(** * crewai-scheduler: the parser, the pipeline and the persistence gateway

    A shallow embedding of [agents.py], [async_io.py] and the part of
    [main.py] that drives them, with the properties of the specification
    stated and proved (or refuted) over it.

    Python values are modelled as follows.
    - [str] is a list of Unicode code points ([N]).
    - [int] is [Z].
    - An exception is a constructor of [exn]; a call that may raise returns
      [result].
    - The file system is a finite map from paths to file contents. *)

From Stdlib Require Import ZArith NArith List Bool Lia String Ascii.
From Stdlib Require Import DecimalString DecimalZ Sorted Permutation.
From stdpp Require Import base option gmap.
Import ListNotations.

Local Open Scope Z_scope.

(** ** Python strings *)

Definition char : Type := N.
Definition str : Type := list char.

(** A literal of the source, read as code points. *)
Definition lit (s : string) : str := map N_of_ascii (list_ascii_of_string s).

Definition LF : char := 10%N.
Definition CR : char := 13%N.
Definition TAB : char := 9%N.
Definition SPACE : char := 32%N.
Definition DASH : char := 45%N.
Definition DOT : char := 46%N.

(** [Py_UNICODE_ISSPACE]: the characters [str.strip()] removes. *)
Definition Py_UNICODE_ISSPACE (c : char) : bool :=
  ((9 <=? c) && (c <=? 13) || (28 <=? c) && (c <=? 32)
   || (c =? 133) || (c =? 160) || (c =? 5760)
   || (8192 <=? c) && (c <=? 8202)
   || (c =? 8232) || (c =? 8233) || (c =? 8239) || (c =? 8287)
   || (c =? 12288))%N.

(** [Py_UNICODE_ISLINEBREAK]: the characters [str.splitlines()] splits at. *)
Definition Py_UNICODE_ISLINEBREAK (c : char) : bool :=
  ((10 <=? c) && (c <=? 13) || (28 <=? c) && (c <=? 30)
   || (c =? 133) || (c =? 8232) || (c =? 8233))%N.

(** The code points of the digit zero of every run of ten decimal digits
    (general category Nd) of the Unicode character database, version 15.0. *)
Definition decimal_zeros : list N :=
  [ 48; 1632; 1776; 1984; 2406; 2534; 2662; 2790; 2918; 3046; 3174; 3302;
    3430; 3558; 3664; 3792; 3872; 4160; 4240; 6112; 6160; 6470; 6608; 6784;
    6800; 6992; 7088; 7232; 7248; 42528; 43216; 43264; 43472; 43504; 43600;
    44016; 65296; 66720; 68912; 69734; 69872; 69942; 70096; 70384; 70736;
    70864; 71248; 71360; 71472; 71904; 72016; 72784; 73040; 73120; 73552;
    92768; 92864; 93008; 120782; 120792; 120802; 120812; 120822; 123200;
    123632; 124144; 125264; 130032 ]%N.

(** [Py_UNICODE_ISDECIMAL]: what [\d] of a [str] pattern matches. *)
Definition Py_UNICODE_ISDECIMAL (c : char) : bool :=
  existsb (fun z => (z <=? c) && (c <? z + 10))%N decimal_zeros.

Fixpoint dropwhile {A} (p : A -> bool) (s : list A) : list A :=
  match s with
  | [] => []
  | c :: rest => if p c then dropwhile p rest else s
  end.

(** [s.lstrip(..)] then [s.rstrip(..)], for the characters [p] holds of. *)
Definition strip_by (p : char -> bool) (s : str) : str :=
  rev (dropwhile p (rev (dropwhile p s))).

(** [s.strip()] *)
Definition strip (s : str) : str := strip_by Py_UNICODE_ISSPACE s.

(** [s.strip(chars)] *)
Definition strip_chars (chars : str) (s : str) : str :=
  strip_by (fun c => existsb (N.eqb c) chars) s.

(** [s.splitlines()]: [cur] is the line being read, last character first.
    A line ends at a line break ([\r\n] counts as one); what follows the
    last line break is a line only when it is not empty. *)
Fixpoint splitlines_from (cur : str) (s : str) : list str :=
  match s with
  | [] => match cur with [] => [] | _ => [rev cur] end
  | c :: rest =>
      if Py_UNICODE_ISLINEBREAK c then
        rev cur ::
          match rest with
          | c' :: rest' =>
              if (c =? CR)%N && (c' =? LF)%N
              then splitlines_from [] rest'
              else splitlines_from [] rest
          | [] => splitlines_from [] rest
          end
      else splitlines_from (c :: cur) rest
  end.

Definition splitlines (s : str) : list str := splitlines_from [] s.

(** ["\n".join(ls)] *)
Fixpoint join_lines (ls : list str) : str :=
  match ls with
  | [] => []
  | [l] => l
  | l :: rest => l ++ LF :: join_lines rest
  end.

(** [re.compile(r"^\d+\.").match(line)]: the greedy [\d+] takes every leading
    decimal digit, and the full stop, which is no digit, must come next. *)
Definition numbered_item_match (line : str) : bool :=
  match line with
  | c :: rest =>
      Py_UNICODE_ISDECIMAL c &&
      match dropwhile Py_UNICODE_ISDECIMAL rest with
      | d :: _ => (d =? DOT)%N
      | [] => false
      end
  | [] => false
  end.

(** [str(n)] of an [int]. *)
Definition str_of_int (n : Z) : str := lit (NilZero.string_of_int (Z.to_int n)).

(** ** Exceptions *)

Inductive exn : Type :=
| ValidationError
| FileNotFoundError (path : str)
| JSONDecodeError
| KeyError (key : str)
| TypeError
| CollaboratorError (msg : str).

Inductive result (A : Type) : Type :=
| Ok (a : A)
| Raise (e : exn).

Arguments Ok {A} a.
Arguments Raise {A} e.

Definition bind {A B} (r : result A) (k : A -> result B) : result B :=
  match r with
  | Ok a => k a
  | Raise e => Raise e
  end.

Notation "x <- r ;; k" := (bind r (fun x => k))
  (at level 100, r at next level, right associativity).

(** ** The domain model ([models.py]) *)

(** A naive [datetime]: the microseconds since 0001-01-01T00:00:00. *)
Definition datetime : Type := Z.

(** Modelled from the spec: the fields of [Goal], [SubTask] and [Schedule]
    of [models.py], which is not among the sources (section 3 for the
    fields, section 6 for their order). *)
Module Goal.
Record t : Type := mk { title : str; description : str }.
End Goal.

Module SubTask.
Record t : Type := mk {
  id : str;
  goal_title : str;
  description : str;
  order : Z;
  estimate_minutes : option Z;
  scheduled_start : option datetime;
  scheduled_end : option datetime
}.
End SubTask.

Module Schedule.
Record t : Type := mk { goal : Goal.t; subtasks : list SubTask.t }.
End Schedule.

(** The truth value of a [str] or a [list]: it is not empty. *)
Definition truthy {A} (l : list A) : bool :=
  match l with
  | [] => false
  | _ :: _ => true
  end.

(** The last representable instant is 9999-12-31T23:59:59.999999. *)
Definition datetime_end : Z := 3652059 * 86400000000.

Definition datetime_ok (t : datetime) : bool :=
  (0 <=? t) && (t <? datetime_end).

Definition opt_ok {A} (p : A -> bool) (o : option A) : bool :=
  match o with
  | Some a => p a
  | None => true
  end.

(** Modelled from the spec: the field constraints of [models.Goal], which is
    not among the sources (section 3: the title is a non-empty string). *)
Definition Goal_validate (g : Goal.t) : bool := truthy (Goal.title g).

(** Modelled from the spec: the field constraints and the invariant of
    [models.SubTask], which is not among the sources (section 3: a non-empty
    description, a positive order, a positive estimate when there is one, and
    a start only together with a later end). *)
Definition SubTask_validate (t : SubTask.t) : bool :=
  truthy (SubTask.description t)
  && (1 <=? SubTask.order t)
  && opt_ok (fun m => 1 <=? m) (SubTask.estimate_minutes t)
  && opt_ok datetime_ok (SubTask.scheduled_start t)
  && opt_ok datetime_ok (SubTask.scheduled_end t)
  && match SubTask.scheduled_start t, SubTask.scheduled_end t with
     | Some s, Some e => s <? e
     | Some _, None => false
     | None, _ => true
     end.

Definition str_eqb (a b : str) : bool := bool_decide (a = b).

Fixpoint distinct {A} (eqb : A -> A -> bool) (l : list A) : bool :=
  match l with
  | [] => true
  | a :: rest => negb (existsb (eqb a) rest) && distinct eqb rest
  end.

(** Modelled from the spec: the constraints of [models.Schedule], which is
    not among the sources (section 3: ids and orders are unique within a
    Schedule). *)
Definition Schedule_validate (s : Schedule.t) : bool :=
  distinct str_eqb (map SubTask.id (Schedule.subtasks s))
  && distinct Z.eqb (map SubTask.order (Schedule.subtasks s)).

(** Modelled from the spec: [SubTask(id=.., goal_title=.., description=..,
    order=..)], the constructor of [models.SubTask]; the optional fields
    start absent, and a value that breaks a constraint is refused. *)
Definition SubTask_new (id goal_title description : str) (order : Z)
  : result SubTask.t :=
  let t := SubTask.mk id goal_title description order None None None in
  if SubTask_validate t then Ok t else Raise ValidationError.

(** Modelled from the spec: [Schedule(goal=.., subtasks=..)], the
    constructor of [models.Schedule]. *)
Definition Schedule_new (goal : Goal.t) (subtasks : list SubTask.t)
  : result Schedule.t :=
  let s := Schedule.mk goal subtasks in
  if Schedule_validate s then Ok s else Raise ValidationError.

(** ** [agents.py] *)

(** The lines of [text] the parser looks at:
    [[ln.strip("- ").strip() for ln in text.splitlines() if ln.strip()]] *)
Definition clean_lines (text : str) : list str :=
  map (fun ln => strip (strip_chars (lit "- ") ln))
    (List.filter (fun ln => truthy (strip ln)) (splitlines text)).

(** The loop [for idx, line in enumerate(lines, start=1)]: [idx] is the
    position of the head of [lines], [subtasks] the list built so far. *)
Fixpoint subtasks_loop (goal : Goal.t) (idx : Z) (lines : list str)
    (subtasks : list SubTask.t) : result (list SubTask.t) :=
  match lines with
  | [] => Ok subtasks
  | line :: rest =>
      if negb (numbered_item_match line) then
        subtasks_loop goal (idx + 1) rest subtasks
      else
        t <- SubTask_new (lit "task-" ++ str_of_int idx) (Goal.title goal)
               line idx ;;
        subtasks_loop goal (idx + 1) rest (subtasks ++ [t])
  end.

Definition _subtasks_from_llm_output (text : str) (goal : Goal.t)
  : result (list SubTask.t) :=
  subtasks_loop goal 1 (clean_lines text) [].

(** [_schedule_from_executor_output]: the executor's text is not read. *)
Definition _schedule_from_executor_output (text : str) (goal : Goal.t)
    (original_subtasks : list SubTask.t) : result Schedule.t :=
  Schedule_new goal original_subtasks.

(** [plan_and_execute]. [kickoff] stands for [build_crew().kickoff(inputs=..)]
    followed by [str(result)]: the generation collaborator, which returns its
    text or raises. *)
Definition plan_and_execute (kickoff : str -> str -> result str)
    (goal : Goal.t) : result Schedule.t :=
  planner_text <- kickoff (Goal.title goal) (Goal.description goal) ;;
  subtasks <- _subtasks_from_llm_output planner_text goal ;;
  _schedule_from_executor_output planner_text goal subtasks.

Definition scenario1 : str :=
  lit "1. Buy domain" ++ [LF] ++ lit "2. Write content" ++ [LF]
  ++ lit "Some heading" ++ [LF] ++ lit "3. Publish site".

Definition a_goal : Goal.t := Goal.mk (lit "Launch blog") (lit "Launch blog").

(** ** What the parser emits, as a list expression *)

(** [enumerate(l, start)] *)
Fixpoint enumerate {A} (start : Z) (l : list A) : list (Z * A) :=
  match l with
  | [] => []
  | a :: rest => (start, a) :: enumerate (start + 1) rest
  end.

(** The SubTask the loop builds for the line [snd p] at position [fst p]. *)
Definition task_of (goal : Goal.t) (p : Z * str) : SubTask.t :=
  SubTask.mk (lit "task-" ++ str_of_int (fst p)) (Goal.title goal) (snd p)
    (fst p) None None None.

Definition numbered (p : Z * str) : bool := numbered_item_match (snd p).

(** The lines the parser keeps, each with its position among the lines of
    [clean_lines]. *)
Definition retained (text : str) : list (Z * str) :=
  List.filter numbered (enumerate 1 (clean_lines text)).

(** ** The calendar of [datetime] *)

Definition is_leap (year : Z) : bool :=
  (year mod 4 =? 0) && (negb (year mod 100 =? 0) || (year mod 400 =? 0)).

(** The days before January 1st of [year]. *)
Definition days_before_year (year : Z) : Z :=
  let y := year - 1 in y * 365 + y / 4 - y / 100 + y / 400.

Definition DAYS_IN_MONTH : list Z :=
  [31; 28; 31; 30; 31; 30; 31; 31; 30; 31; 30; 31].

Definition DAYS_BEFORE_MONTH : list Z :=
  [0; 31; 59; 90; 120; 151; 181; 212; 243; 273; 304; 334].

Definition days_in_month (year month : Z) : Z :=
  if (month =? 2) && is_leap year then 29
  else nth (Z.to_nat (month - 1)) DAYS_IN_MONTH 0.

(** The days of [year] before the first day of [month]. *)
Definition days_before_month (year month : Z) : Z :=
  nth (Z.to_nat (month - 1)) DAYS_BEFORE_MONTH 0
  + (if (2 <? month) && is_leap year then 1 else 0).

(** The ordinal of a date: 0001-01-01 is day 1. *)
Definition ymd2ord (year month day : Z) : Z :=
  days_before_year year + days_before_month year month + day.

(** The date of an ordinal, by 400-, 100-, 4- and 1-year cycles. *)
Definition ord2ymd (ordinal : Z) : Z * Z * Z :=
  let n := ordinal - 1 in
  let (n400, n) := Z.div_eucl n 146097 in
  let (n100, n) := Z.div_eucl n 36524 in
  let (n4, n) := Z.div_eucl n 1461 in
  let (n1, n) := Z.div_eucl n 365 in
  let year := n400 * 400 + 1 + n100 * 100 + n4 * 4 + n1 in
  if (n1 =? 4) || (n100 =? 4) then (year - 1, 12, 31)
  else
    let leapyear := (n1 =? 3) && (negb (n4 =? 24) || (n100 =? 3)) in
    let month := Z.shiftr (n + 50) 5 in
    let preceding :=
      nth (Z.to_nat (month - 1)) DAYS_BEFORE_MONTH 0
      + (if (2 <? month) && leapyear then 1 else 0) in
    if n <? preceding then
      let month := month - 1 in
      let preceding :=
        preceding
        - (nth (Z.to_nat (month - 1)) DAYS_IN_MONTH 0
           + (if (month =? 2) && leapyear then 1 else 0)) in
      (year, month, n - preceding + 1)
    else (year, month, n - preceding + 1).

Definition US_PER_SECOND : Z := 1000000.
Definition US_PER_DAY : Z := 86400 * US_PER_SECOND.

(** [datetime(year, month, day, hour, minute, second, microsecond)] *)
Definition datetime_of (year month day hour minute second us : Z) : datetime :=
  (ymd2ord year month day - 1) * US_PER_DAY
  + (hour * 3600 + minute * 60 + second) * US_PER_SECOND + us.

(** [timedelta(minutes=m)], in microseconds. *)
Definition minutes (m : Z) : Z := m * 60 * US_PER_SECOND.

(** ** The Schedule Builder *)

Definition DEFAULT_DURATION_MINUTES : Z := 30.

(** The minutes a SubTask is given: its estimate, or the default. *)
Definition duration_of (t : SubTask.t) : Z :=
  match SubTask.estimate_minutes t with
  | Some m => m
  | None => DEFAULT_DURATION_MINUTES
  end.

Fixpoint insert_by_order (t : SubTask.t) (l : list SubTask.t)
  : list SubTask.t :=
  match l with
  | [] => [t]
  | u :: rest =>
      if SubTask.order t <=? SubTask.order u then t :: l
      else u :: insert_by_order t rest
  end.

(** The SubTasks in ascending [order]; equal orders keep their places. *)
Fixpoint sort_by_order (l : list SubTask.t) : list SubTask.t :=
  match l with
  | [] => []
  | t :: rest => insert_by_order t (sort_by_order rest)
  end.

Definition set_block (t : SubTask.t) (s e : datetime) : SubTask.t :=
  SubTask.mk (SubTask.id t) (SubTask.goal_title t) (SubTask.description t)
    (SubTask.order t) (SubTask.estimate_minutes t) (Some s) (Some e).

Fixpoint assign_blocks (cursor : datetime) (tasks : list SubTask.t)
  : list SubTask.t :=
  match tasks with
  | [] => []
  | t :: rest =>
      let scheduled_end := cursor + minutes (duration_of t) in
      set_block t cursor scheduled_end :: assign_blocks scheduled_end rest
  end.

(** Modelled from the spec: [Schedule.with_time_blocks] of [models.py], which
    is not among the sources (section 4.2: the SubTasks in ascending order,
    a cursor that starts at the start time, each SubTask from the cursor for
    its estimate or else 30 minutes, the cursor moved to its end; the other
    fields are not touched).  [start] is the start time, by default the
    current time. *)
Definition with_time_blocks (s : Schedule.t) (start : datetime) : Schedule.t :=
  Schedule.mk (Schedule.goal s)
    (assign_blocks start (sort_by_order (Schedule.subtasks s))).

(** A SubTask without its time block. *)
Definition clear_block (t : SubTask.t) : SubTask.t :=
  SubTask.mk (SubTask.id t) (SubTask.goal_title t) (SubTask.description t)
    (SubTask.order t) (SubTask.estimate_minutes t) None None.

(** The start and the end of every SubTask of a Schedule. *)
Definition blocks (s : Schedule.t)
  : list (option datetime * option datetime) :=
  map (fun t => (SubTask.scheduled_start t, SubTask.scheduled_end t))
    (Schedule.subtasks s).

(** Scenario 3: three SubTasks, the first with an estimate of 15 minutes. *)
Definition scenario3 : Schedule.t :=
  Schedule.mk a_goal
    [ SubTask.mk (lit "task-1") (lit "Launch blog") (lit "1. Buy domain") 1
        (Some 15) None None;
      SubTask.mk (lit "task-2") (lit "Launch blog") (lit "2. Write content") 2
        None None None;
      SubTask.mk (lit "task-4") (lit "Launch blog") (lit "3. Publish site") 4
        None None None ].

(** ** JSON documents *)

(** What [json.loads] returns and [json.dumps] takes.  A float is kept as
    the text of its literal: no claim reads one. *)
#[warnings="-register-all"]
Inductive json : Type :=
| JNull
| JBool (b : bool)
| JInt (n : Z)
| JFloat (literal : str)
| JStr (s : str)
| JList (items : list json)
| JDict (items : list (str * json)).

Definition QUOTE : char := 34%N.
Definition BACKSLASH : char := 92%N.
Definition COMMA : char := 44%N.
Definition COLON : char := 58%N.

(** [d[key]] of a [dict], kept as the list of its items. *)
Fixpoint dict_get (key : str) (d : list (str * json)) : option json :=
  match d with
  | [] => None
  | (k, v) :: rest => if str_eqb k key then Some v else dict_get key rest
  end.

(** [d[key] = v]: a key already there keeps its place. *)
Fixpoint dict_set (key : str) (v : json) (d : list (str * json))
  : list (str * json) :=
  match d with
  | [] => [(key, v)]
  | (k, x) :: rest =>
      if str_eqb k key then (k, v) :: rest else (k, x) :: dict_set key v rest
  end.

(** [dict(pairs)] *)
Definition dict_of_pairs (pairs : list (str * json)) : list (str * json) :=
  fold_left (fun d kv => dict_set (fst kv) (snd kv) d) pairs [].

(** *** [json.dumps(obj, indent=2)] *)

Definition hex_digit (n : N) : char :=
  (if n <? 10 then 48 + n else 87 + n)%N.

(** ['{0:04x}'.format(n)], for [n] below 65536. *)
Definition hex4 (n : N) : str :=
  [ hex_digit (N.shiftr n 12 mod 16); hex_digit (N.shiftr n 8 mod 16);
    hex_digit (N.shiftr n 4 mod 16); hex_digit (n mod 16) ]%N.

(** What [encode_basestring_ascii] writes for one character. *)
Definition escape_char (c : char) : str :=
  (if c =? 34 then [BACKSLASH; QUOTE]
   else if c =? 92 then [BACKSLASH; BACKSLASH]
   else if c =? 10 then BACKSLASH :: lit "n"
   else if c =? 13 then BACKSLASH :: lit "r"
   else if c =? 9 then BACKSLASH :: lit "t"
   else if c =? 8 then BACKSLASH :: lit "b"
   else if c =? 12 then BACKSLASH :: lit "f"
   else if (32 <=? c) && (c <=? 126) then [c]
   else if c <? 65536 then BACKSLASH :: lit "u" ++ hex4 c
   else
     let n := c - 65536 in
     BACKSLASH :: lit "u" ++ hex4 (N.lor 55296 (N.land (N.shiftr n 10) 1023))
     ++ BACKSLASH :: lit "u" ++ hex4 (N.lor 56320 (N.land n 1023)))%N.

Definition encode_basestring_ascii (s : str) : str :=
  QUOTE :: flat_map escape_char s ++ [QUOTE].

(** A newline and the indentation of nesting depth [level]. *)
Definition newline_indent (level : nat) : str :=
  LF :: repeat SPACE (2 * level).

(** The chunks, with [sep] between them. *)
Fixpoint join_with (sep : str) (chunks : list str) : str :=
  match chunks with
  | [] => []
  | [c] => c
  | c :: rest => c ++ sep ++ join_with sep rest
  end.

Fixpoint dumps_at (level : nat) (v : json) {struct v} : str :=
  match v with
  | JNull => lit "null"
  | JBool true => lit "true"
  | JBool false => lit "false"
  | JInt n => str_of_int n
  | JFloat literal => literal
  | JStr s => encode_basestring_ascii s
  | JList [] => lit "[]"
  | JList items =>
      lit "[" ++ newline_indent (S level)
      ++ join_with (COMMA :: newline_indent (S level))
           (map (dumps_at (S level)) items)
      ++ newline_indent level ++ lit "]"
  | JDict [] => lit "{}"
  | JDict items =>
      lit "{" ++ newline_indent (S level)
      ++ join_with (COMMA :: newline_indent (S level))
           (map (fun kv => encode_basestring_ascii (fst kv) ++ lit ": "
                           ++ dumps_at (S level) (snd kv)) items)
      ++ newline_indent level ++ lit "}"
  end.

Definition json_dumps (obj : json) : str := dumps_at 0 obj.

(** *** [json.loads(s)] *)

(** The whitespace between tokens: space, tab, newline, carriage return. *)
Definition is_json_ws (c : char) : bool :=
  ((c =? 32) || (c =? 9) || (c =? 10) || (c =? 13))%N.

Definition skip_ws (s : str) : str := dropwhile is_json_ws s.

Definition is_ascii_digit (c : char) : bool := ((48 <=? c) && (c <=? 57))%N.

Definition unhex (c : char) : option N :=
  (if (48 <=? c) && (c <=? 57) then Some (c - 48)
   else if (97 <=? c) && (c <=? 102) then Some (c - 87)
   else if (65 <=? c) && (c <=? 70) then Some (c - 55)
   else None)%N.

(** The number four hexadecimal digits spell. *)
Definition unhex4 (a b c d : char) : option N :=
  match unhex a, unhex b, unhex c, unhex d with
  | Some x, Some y, Some z, Some w => Some (((x * 16 + y) * 16 + z) * 16 + w)%N
  | _, _, _, _ => None
  end.

(** The character a one-letter escape stands for. *)
Definition unescape (esc : char) : option char :=
  (if esc =? 34 then Some 34
   else if esc =? 92 then Some 92
   else if esc =? 47 then Some 47
   else if esc =? 98 then Some 8
   else if esc =? 102 then Some 12
   else if esc =? 110 then Some 10
   else if esc =? 114 then Some 13
   else if esc =? 116 then Some 9
   else None)%N.

Definition is_high_surrogate (n : N) : bool :=
  ((55296 <=? n) && (n <=? 56319))%N.
Definition is_low_surrogate (n : N) : bool :=
  ((56320 <=? n) && (n <=? 57343))%N.

(** [scanstring]: [s] starts after the opening quote, [acc] holds the
    characters read so far, last first.  Returns the string and what follows
    its closing quote.  An escaped high surrogate followed by an escaped low
    surrogate makes one character. *)
Fixpoint scanstring (s : str) (acc : str) {struct s} : result (str * str) :=
  match s with
  | [] => Raise JSONDecodeError
  | c :: rest =>
      if (c =? QUOTE)%N then Ok (rev acc, rest)
      else if (c =? BACKSLASH)%N then
        match rest with
        | [] => Raise JSONDecodeError
        | esc :: rest1 =>
            if (esc =? 117)%N then
              match rest1 with
              | h1 :: h2 :: h3 :: h4 :: rest2 =>
                  match unhex4 h1 h2 h3 h4 with
                  | None => Raise JSONDecodeError
                  | Some uni =>
                      match rest2 with
                      | b :: u :: g1 :: g2 :: g3 :: g4 :: rest3 =>
                          if is_high_surrogate uni
                             && (b =? BACKSLASH)%N && (u =? 117)%N then
                            match unhex4 g1 g2 g3 g4 with
                            | None => Raise JSONDecodeError
                            | Some uni2 =>
                                if is_low_surrogate uni2 then
                                  scanstring rest3
                                    ((65536
                                      + N.lor (N.shiftl (uni - 55296) 10)
                                          (uni2 - 56320))%N :: acc)
                                else scanstring rest2 (uni :: acc)
                            end
                          else scanstring rest2 (uni :: acc)
                      | _ => scanstring rest2 (uni :: acc)
                      end
                  end
              | _ => Raise JSONDecodeError
              end
            else
              match unescape esc with
              | Some ch => scanstring rest1 (ch :: acc)
              | None => Raise JSONDecodeError
              end
        end
      else if (c <? 32)%N then Raise JSONDecodeError
      else scanstring rest (c :: acc)
  end.

(** The leading ASCII digits of [s], and the rest. *)
Fixpoint span_digits (s : str) : str * str :=
  match s with
  | c :: rest =>
      if is_ascii_digit c
      then let (ds, r) := span_digits rest in (c :: ds, r)
      else ([], s)
  | [] => ([], [])
  end.

(** [int(text)] for a text of ASCII digits. *)
Definition int_of_digits (ds : str) : Z :=
  fold_left (fun acc d => acc * 10 + (Z.of_N d - 48)) ds 0.

(** The integer part of a number (an optional minus sign, then either a
    single zero or a non-zero digit and any further digits): whether it is
    negative, its digits and what follows. *)
Definition span_integer (s : str) : option (bool * str * str) :=
  let (neg, body) :=
    match s with
    | c :: rest => if (c =? DASH)%N then (true, rest) else (false, s)
    | [] => (false, s)
    end in
  match body with
  | c :: rest =>
      if (c =? 48)%N then Some (neg, [c], rest)
      else if is_ascii_digit c then
        let (ds, r) := span_digits rest in Some (neg, c :: ds, r)
      else None
  | [] => None
  end.

(** The fraction of a number (a full stop and at least one digit) and its
    exponent (e or E, an optional sign, at least one digit), where present. *)
Definition span_frac (s : str) : str * str :=
  match s with
  | c :: rest =>
      if (c =? DOT)%N then
        match span_digits rest with
        | ([], _) => ([], s)
        | (ds, r) => (c :: ds, r)
        end
      else ([], s)
  | [] => ([], s)
  end.

Definition span_exp (s : str) : str * str :=
  match s with
  | c :: rest =>
      if ((c =? 101) || (c =? 69))%N then
        let (sign, rest1) :=
          match rest with
          | g :: rest1 =>
              if ((g =? 43) || (g =? 45))%N then ([g], rest1) else ([], rest)
          | [] => ([], rest)
          end in
        match span_digits rest1 with
        | ([], _) => ([], s)
        | (ds, r) => (c :: sign ++ ds, r)
        end
      else ([], s)
  | [] => ([], s)
  end.

(** A number: an [int] when it has neither fraction nor exponent. *)
Definition scan_number (s : str) : result (json * str) :=
  match span_integer s with
  | None => Raise JSONDecodeError
  | Some (neg, ds, r) =>
      let (frac, r1) := span_frac r in
      let (exp, r2) := span_exp r1 in
      match frac, exp with
      | [], [] =>
          Ok (JInt (if neg then - int_of_digits ds else int_of_digits ds), r2)
      | _, _ =>
          Ok (JFloat ((if neg then [DASH] else []) ++ ds ++ frac ++ exp), r2)
      end
  end.

(** [s] without the prefix [p], when it starts with it. *)
Fixpoint strip_prefix (p s : str) : option str :=
  match p, s with
  | [], _ => Some s
  | a :: p', b :: s' => if (a =? b)%N then strip_prefix p' s' else None
  | _ :: _, [] => None
  end.

(** [scan_once], [JSONArray] and [JSONObject].  [fuel] bounds the nesting
    and the number of items; [json_loads] gives more than the text can use.
    [acc] holds the items read so far, last first. *)
Fixpoint scan_once (fuel : nat) (s : str) {struct fuel} : result (json * str) :=
  match fuel with
  | O => Raise JSONDecodeError
  | S fuel' =>
      match s with
      | [] => Raise JSONDecodeError
      | c :: rest =>
          if (c =? QUOTE)%N then
            r <- scanstring rest [] ;; Ok (JStr (fst r), snd r)
          else if (c =? 123)%N then
            match skip_ws rest with
            | c' :: rest' =>
                if (c' =? 125)%N then Ok (JDict [], rest')
                else if (c' =? QUOTE)%N then object_loop fuel' rest' []
                else Raise JSONDecodeError
            | [] => Raise JSONDecodeError
            end
          else if (c =? 91)%N then
            match skip_ws rest with
            | c' :: rest' =>
                if (c' =? 93)%N then Ok (JList [], rest')
                else array_loop fuel' (c' :: rest') []
            | [] => Raise JSONDecodeError
            end
          else
            match strip_prefix (lit "null") s, strip_prefix (lit "true") s,
                  strip_prefix (lit "false") s with
            | Some r, _, _ => Ok (JNull, r)
            | _, Some r, _ => Ok (JBool true, r)
            | _, _, Some r => Ok (JBool false, r)
            | None, None, None =>
                match strip_prefix (lit "NaN") s,
                      strip_prefix (lit "Infinity") s,
                      strip_prefix (lit "-Infinity") s with
                | Some r, _, _ => Ok (JFloat (lit "NaN"), r)
                | _, Some r, _ => Ok (JFloat (lit "Infinity"), r)
                | _, _, Some r => Ok (JFloat (lit "-Infinity"), r)
                | None, None, None => scan_number s
                end
            end
      end
  end

with array_loop (fuel : nat) (s : str) (acc : list json) {struct fuel}
  : result (json * str) :=
  match fuel with
  | O => Raise JSONDecodeError
  | S fuel' =>
      r <- scan_once fuel' s ;;
      match skip_ws (snd r) with
      | c :: rest =>
          if (c =? 93)%N then Ok (JList (rev (fst r :: acc)), rest)
          else if (c =? COMMA)%N
          then array_loop fuel' (skip_ws rest) (fst r :: acc)
          else Raise JSONDecodeError
      | [] => Raise JSONDecodeError
      end
  end

(** [s] starts after the opening quote of a key. *)
with object_loop (fuel : nat) (s : str) (acc : list (str * json))
  {struct fuel} : result (json * str) :=
  match fuel with
  | O => Raise JSONDecodeError
  | S fuel' =>
      k <- scanstring s [] ;;
      match skip_ws (snd k) with
      | c :: rest =>
          if (c =? COLON)%N then
            r <- scan_once fuel' (skip_ws rest) ;;
            match skip_ws (snd r) with
            | c' :: rest' =>
                if (c' =? 125)%N
                then Ok (JDict (dict_of_pairs (rev ((fst k, fst r) :: acc))),
                         rest')
                else if (c' =? COMMA)%N then
                  match skip_ws rest' with
                  | q :: rest'' =>
                      if (q =? QUOTE)%N
                      then object_loop fuel' rest'' ((fst k, fst r) :: acc)
                      else Raise JSONDecodeError
                  | [] => Raise JSONDecodeError
                  end
                else Raise JSONDecodeError
            | [] => Raise JSONDecodeError
            end
          else Raise JSONDecodeError
      | [] => Raise JSONDecodeError
      end
  end.

(** [json.loads(s)]: one document, with nothing but whitespace around it. *)
Definition json_loads (s : str) : result json :=
  r <- scan_once (S (length s)) (skip_ws s) ;;
  match skip_ws (snd r) with
  | [] => Ok (fst r)
  | _ :: _ => Raise JSONDecodeError
  end.

(** ** Timestamps in JSON *)

(** ['%0*d' % (width, n)], for [n] of at most [width] digits. *)
Fixpoint pad (width : nat) (n : Z) : str :=
  match width with
  | O => []
  | S w => pad w (n / 10) ++ [Z.to_N (48 + n mod 10)]
  end.

Definition date_of (t : datetime) : Z * Z * Z := ord2ymd (t / US_PER_DAY + 1).
Definition hour_of (t : datetime) : Z := t mod US_PER_DAY / (3600 * US_PER_SECOND).
Definition minute_of (t : datetime) : Z := t / (60 * US_PER_SECOND) mod 60.
Definition second_of (t : datetime) : Z := t / US_PER_SECOND mod 60.
Definition microsecond_of (t : datetime) : Z := t mod US_PER_SECOND.

(** [t.isoformat()], which is also how a [datetime] is written in JSON mode:
    [YYYY-MM-DDTHH:MM:SS], and [.ffffff] when the microseconds are not 0. *)
Definition isoformat (t : datetime) : str :=
  let '(year, month, day) := date_of t in
  pad 4 year ++ lit "-" ++ pad 2 month ++ lit "-" ++ pad 2 day ++ lit "T"
  ++ pad 2 (hour_of t) ++ lit ":" ++ pad 2 (minute_of t) ++ lit ":"
  ++ pad 2 (second_of t)
  ++ (if microsecond_of t =? 0 then [] else lit "." ++ pad 6 (microsecond_of t)).

(** The number [n] digits spell at the head of [s], and what follows. *)
Definition take_digits (n : nat) (s : str) : result (Z * str) :=
  let ds := firstn n s in
  if (length ds =? n)%nat && forallb is_ascii_digit ds
  then Ok (int_of_digits ds, skipn n s)
  else Raise ValidationError.

Definition expect (c : char) (s : str) : result str :=
  match s with
  | c' :: rest => if (c' =? c)%N then Ok rest else Raise ValidationError
  | [] => Raise ValidationError
  end.

(** Reading a [datetime] field from a JSON string, for the spelling
    [isoformat] writes; any other text is refused here. *)
Definition datetime_fromisoformat (s : str) : result datetime :=
  year <- take_digits 4 s ;;
  s <- expect DASH (snd year) ;;
  month <- take_digits 2 s ;;
  s <- expect DASH (snd month) ;;
  day <- take_digits 2 s ;;
  s <- expect 84%N (snd day) ;;
  hour <- take_digits 2 s ;;
  s <- expect COLON (snd hour) ;;
  minute <- take_digits 2 s ;;
  s <- expect COLON (snd minute) ;;
  second <- take_digits 2 s ;;
  us <- match snd second with
        | [] => Ok (0, [])
        | c :: rest =>
            if (c =? DOT)%N then take_digits 6 rest else Raise ValidationError
        end ;;
  if truthy (snd us) then Raise ValidationError
  else if (1 <=? fst year) && (1 <=? fst month) && (fst month <=? 12)
          && (1 <=? fst day)
          && (fst day <=? days_in_month (fst year) (fst month))
          && (fst hour <? 24) && (fst minute <? 60) && (fst second <? 60)
  then Ok (datetime_of (fst year) (fst month) (fst day) (fst hour)
             (fst minute) (fst second) (fst us))
  else Raise ValidationError.

(** ** [model_dump(mode="json")] and [model_validate] *)

Definition json_of_option {A} (f : A -> json) (o : option A) : json :=
  match o with
  | Some a => f a
  | None => JNull
  end.

(** Modelled from the spec: the JSON-mode dump of [models.Goal],
    [models.SubTask] and [models.Schedule], which are not among the sources
    (section 6: the fields of the persisted record, an absent optional field
    written as [null], a timestamp as its ISO text). *)
Definition Goal_model_dump (g : Goal.t) : json :=
  JDict [ (lit "title", JStr (Goal.title g));
          (lit "description", JStr (Goal.description g)) ].

Definition SubTask_model_dump (t : SubTask.t) : json :=
  JDict [ (lit "id", JStr (SubTask.id t));
          (lit "goal_title", JStr (SubTask.goal_title t));
          (lit "description", JStr (SubTask.description t));
          (lit "order", JInt (SubTask.order t));
          (lit "estimate_minutes",
           json_of_option JInt (SubTask.estimate_minutes t));
          (lit "scheduled_start",
           json_of_option (fun d => JStr (isoformat d))
             (SubTask.scheduled_start t));
          (lit "scheduled_end",
           json_of_option (fun d => JStr (isoformat d))
             (SubTask.scheduled_end t)) ].

Definition Schedule_model_dump (s : Schedule.t) : json :=
  JDict [ (lit "goal", Goal_model_dump (Schedule.goal s));
          (lit "subtasks",
           JList (map SubTask_model_dump (Schedule.subtasks s))) ].

(** A field that must be there. *)
Definition required {A} (f : json -> result A) (d : list (str * json))
    (name : str) : result A :=
  match dict_get name d with
  | Some v => f v
  | None => Raise ValidationError
  end.

(** A field that may be missing or [null]. *)
Definition optional {A} (f : json -> result A) (d : list (str * json))
    (name : str) : result (option A) :=
  match dict_get name d with
  | None | Some JNull => Ok None
  | Some v => x <- f v ;; Ok (Some x)
  end.

Definition as_str (v : json) : result str :=
  match v with
  | JStr s => Ok s
  | _ => Raise ValidationError
  end.

Definition as_int (v : json) : result Z :=
  match v with
  | JInt n => Ok n
  | _ => Raise ValidationError
  end.

Definition as_datetime (v : json) : result datetime :=
  match v with
  | JStr s => datetime_fromisoformat s
  | _ => Raise ValidationError
  end.

Fixpoint mapM {A B} (f : A -> result B) (l : list A) : result (list B) :=
  match l with
  | [] => Ok []
  | a :: rest => b <- f a ;; bs <- mapM f rest ;; Ok (b :: bs)
  end.

(** Modelled from the spec: [model_validate] of the three models, which are
    not among the sources: a value of the wrong shape or type, or one that
    breaks a constraint of section 3, is refused. *)
Definition Goal_model_validate (v : json) : result Goal.t :=
  match v with
  | JDict d =>
      title <- required as_str d (lit "title") ;;
      description <- required as_str d (lit "description") ;;
      let g := Goal.mk title description in
      if Goal_validate g then Ok g else Raise ValidationError
  | _ => Raise ValidationError
  end.

Definition SubTask_model_validate (v : json) : result SubTask.t :=
  match v with
  | JDict d =>
      id <- required as_str d (lit "id") ;;
      goal_title <- required as_str d (lit "goal_title") ;;
      description <- required as_str d (lit "description") ;;
      order <- required as_int d (lit "order") ;;
      estimate_minutes <- optional as_int d (lit "estimate_minutes") ;;
      scheduled_start <- optional as_datetime d (lit "scheduled_start") ;;
      scheduled_end <- optional as_datetime d (lit "scheduled_end") ;;
      let t := SubTask.mk id goal_title description order estimate_minutes
                 scheduled_start scheduled_end in
      if SubTask_validate t then Ok t else Raise ValidationError
  | _ => Raise ValidationError
  end.

Definition as_subtasks (v : json) : result (list SubTask.t) :=
  match v with
  | JList items => mapM SubTask_model_validate items
  | _ => Raise ValidationError
  end.

Definition Schedule_model_validate (v : json) : result Schedule.t :=
  match v with
  | JDict d =>
      goal <- required Goal_model_validate d (lit "goal") ;;
      subtasks <- required as_subtasks d (lit "subtasks") ;;
      Schedule_new goal subtasks
  | _ => Raise ValidationError
  end.

(** ** [async_io.py] *)

Definition path : Type := str.

(** The files: the text each existing path holds. *)
Abbreviation filesystem := (gmap path str).

(** What [save_schedule] does to the file system, one step per [await]. *)
Inductive file_op : Type :=
| OpenW (p : path)
| Write (p : path) (data : str).

(** [open_file(p, mode="w")] creates the file or empties it; [f.write(data)]
    puts [data] after what the file holds. *)
Definition run_op (fs : filesystem) (op : file_op) : filesystem :=
  match op with
  | OpenW p => <[p := []]> fs
  | Write p data => <[p := default [] (fs !! p) ++ data]> fs
  end.

Definition run_ops (ops : list file_op) (fs : filesystem) : filesystem :=
  fold_left run_op ops fs.

(** The text [save_schedule] writes; [now] is [datetime.now()]. *)
Definition record_text (schedule : Schedule.t) (now : datetime) : str :=
  let data := Schedule_model_dump schedule in
  let payload :=
    JDict [ (lit "saved_at", JStr (isoformat now)); (lit "schedule", data) ] in
  json_dumps payload.

Definition save_schedule_ops (p : path) (schedule : Schedule.t)
    (now : datetime) : list file_op :=
  let json_str := record_text schedule now in
  [OpenW p; Write p json_str].

(** [save_schedule(path, schedule)], run to its end. *)
Definition save_schedule (p : path) (schedule : Schedule.t) (now : datetime)
    (fs : filesystem) : filesystem :=
  run_ops (save_schedule_ops p schedule now) fs.

(** [is_prefix pre s]: [s] starts with [pre]. *)
Definition is_prefix (pre s : str) : Prop := exists post, s = pre ++ post.

(** The file systems a run of [ops] can leave behind when it is cancelled or
    fails on the way: it stops before a step, or inside a write, of which
    only a part has reached the file. *)
Inductive interrupted : list file_op -> filesystem -> filesystem -> Prop :=
| stopped_before ops fs :
    interrupted ops fs fs
| stopped_in_write p data pre ops fs :
    is_prefix pre data ->
    interrupted (Write p data :: ops) fs (run_op fs (Write p pre))
| stopped_later op ops fs fs' :
    interrupted ops (run_op fs op) fs' ->
    interrupted (op :: ops) fs fs'.

(** [raw[key]] *)
Definition getitem (raw : json) (key : str) : result json :=
  match raw with
  | JDict d =>
      match dict_get key d with
      | Some v => Ok v
      | None => Raise (KeyError key)
      end
  | _ => Raise TypeError
  end.

Definition load_schedule (fs : filesystem) (p : path) : result Schedule.t :=
  match fs !! p with
  | None => Raise (FileNotFoundError p)
  | Some content =>
      raw <- json_loads content ;;
      schedule_data <- getitem raw (lit "schedule") ;;
      Schedule_model_validate schedule_data
  end.



(** Whether the last character of [s] is a hyphen. *)
Definition ends_with_dash (s : str) : bool :=
  match rev s with
  | c :: _ => (c =? DASH)%N
  | [] => false
  end.

(** A text whose only line ends in a hyphen followed by a tab. *)
Definition dash_tab_text : str := lit "1. Prepare launch -" ++ [TAB].

(** A generation collaborator that cannot be reached. *)
Definition unreachable : str -> str -> result str :=
  fun _ _ => Raise (CollaboratorError (lit "connection refused")).



Definition nine_o_clock : datetime := datetime_of 2024 1 1 9 0 0 0.

(** Scenario 3 with its time blocks. *)
Definition scenario3_blocked : Schedule.t :=
  with_time_blocks scenario3 nine_o_clock.

Definition schedule_json : path := lit "schedule.json".

(** A file system with an earlier record at [schedule.json]. *)
Definition fs_with_record : filesystem :=
  save_schedule schedule_json (Schedule.mk a_goal []) nine_o_clock ∅.

(** ** Checking the calendar over one 400-year cycle *)

(** The date of day [r + 1] is a date of the years 1 to 400, and its
    ordinal is [r + 1] again. *)
Definition cycle_ok (r : Z) : bool :=
  let '(y, m, d) := ord2ymd (r + 1) in
  (1 <=? y) && (y <=? 400) && ((145731 <=? r) || (y <=? 399))
  && (1 <=? m) && (m <=? 12)
  && (1 <=? d) && (d <=? days_in_month y m)
  && (ymd2ord y m d =? r + 1).

(** [f] holds from [lo] up to [lo + 2 ^ k - 1]. *)
Fixpoint all_from (k : nat) (lo : Z) (f : Z -> bool) : bool :=
  match k with
  | O => f lo
  | S k' => all_from k' lo f && all_from k' (lo + 2 ^ Z.of_nat k') f
  end.

(** The month and the day of day [n] (from 0) of a year, as [ord2ymd]
    finds them. *)
Definition month_day (n : Z) (leapyear : bool) : Z * Z :=
  let month := Z.shiftr (n + 50) 5 in
  let preceding :=
    nth (Z.to_nat (month - 1)) DAYS_BEFORE_MONTH 0
    + (if (2 <? month) && leapyear then 1 else 0) in
  if n <? preceding then
    let month := month - 1 in
    let preceding :=
      preceding
      - (nth (Z.to_nat (month - 1)) DAYS_IN_MONTH 0
         + (if (month =? 2) && leapyear then 1 else 0)) in
    (month, n - preceding + 1)
  else (month, n - preceding + 1).

(** [month_day] gives a month, a day of that month, and the right number of
    days before it. *)
Definition month_day_ok (n : Z) (leapyear : bool) : bool :=
  let '(m, d) := month_day n leapyear in
  (1 <=? m) && (m <=? 12) && (1 <=? d)
  && (d <=? (if (m =? 2) && leapyear then 29
             else nth (Z.to_nat (m - 1)) DAYS_IN_MONTH 0))
  && (nth (Z.to_nat (m - 1)) DAYS_BEFORE_MONTH 0
      + (if (2 <? m) && leapyear then 1 else 0) + d =? n + 1).

(** ** Well-formed texts and documents *)

(** A Unicode scalar value: a code point that is no surrogate. *)
Definition is_scalar (c : char) : bool :=
  ((c <? 55296) || (57344 <=? c) && (c <=? 1114111))%N.

(** A string of scalar values. *)
Definition unicode_text (s : str) : Prop :=
  Forall (fun c => is_scalar c = true) s.

(** A Python [str]: its code points are at most U+10FFFF. *)
Definition python_text (s : str) : Prop :=
  Forall (fun c => (c <=? 1114111)%N = true) s.

(** Whether somewhere in [s] a high surrogate is directly followed by a low
    surrogate. *)
Fixpoint has_surrogate_pair (s : str) : bool :=
  match s with
  | a :: rest =>
      match rest with
      | b :: _ => is_high_surrogate a && is_low_surrogate b
      | [] => false
      end
      || has_surrogate_pair rest
  | [] => false
  end.

(** The strings [json.dumps] writes so that [json.loads] reads them back:
    any code points, surrogates too, but no surrogate pair. *)
Definition storable (s : str) : Prop :=
  python_text s /\ has_surrogate_pair s = false.

(** What follows an escaped high surrogate that stands alone: not the
    escape of a low surrogate. *)
Definition lone_ok (rest : str) : bool :=
  match rest with
  | b :: u :: g1 :: g2 :: g3 :: g4 :: _ =>
      if (b =? BACKSLASH)%N && (u =? 117)%N then
        match unhex4 g1 g2 g3 g4 with
        | Some n => negb (is_low_surrogate n)
        | None => false
        end
      else true
  | _ => true
  end.

(** The characters of a decimal number of the standard library. *)
Definition udigits (d : Decimal.uint) : str :=
  lit (NilEmpty.string_of_uint d).

(** One step of [int_of_digits]. *)
Definition digit_step (acc : Z) (d : char) : Z := acc * 10 + (Z.of_N d - 48).

(** What may follow a value in the text [json_dumps] writes. *)
Definition value_end (rest : str) : Prop :=
  match rest with
  | [] => True
  | c :: _ => c = COMMA \/ c = LF
  end.

(** The documents [json_dumps] writes so that [json_loads] reads them back:
    no float, no surrogate pair in a string or a key, no key twice in a
    [dict]. *)
Fixpoint json_ok (v : json) : Prop :=
  match v with
  | JNull | JBool _ | JInt _ => True
  | JFloat _ => False
  | JStr s => storable s
  | JList items => (fix all (l : list json) : Prop :=
                      match l with
                      | [] => True
                      | x :: rest => json_ok x /\ all rest
                      end) items
  | JDict items => (fix all (l : list (str * json)) : Prop :=
                      match l with
                      | [] => True
                      | kv :: rest =>
                          (storable (fst kv) /\ json_ok (snd kv)) /\ all rest
                      end) items
                   /\ List.NoDup (map fst items)
  end.

(** The fuel [scan_once] needs for a document. *)
Fixpoint json_size (v : json) : nat :=
  match v with
  | JList items => S (list_sum (map (fun x => S (json_size x)) items))
  | JDict items => S (list_sum (map (fun kv => S (json_size (snd kv))) items))
  | _ => 1
  end.

(** The text of a document starts with a character that is neither
    whitespace nor a closing bracket. *)
Definition opens_value (s : str) : Prop :=
  match s with
  | [] => False
  | c :: _ => is_json_ws c = false /\ c <> 93%N /\ c <> 125%N
  end.

(** The text after the first of the chunks [f x]: for each further item the
    separator and its chunk, then [closing]. *)
Fixpoint continued {A} (f : A -> str) (sep : str) (xs : list A)
    (closing : str) : str :=
  match xs with
  | [] => closing
  | x :: rest => sep ++ f x ++ continued f sep rest closing
  end.

(** [v] is read back from the text written for it, at any depth, before any
    text a value can be followed by, with enough fuel. *)
Definition reads_back (v : json) : Prop :=
  forall level rest fuel,
    value_end rest -> (json_size v <= fuel)%nat ->
    scan_once fuel (dumps_at level v ++ rest) = Ok (v, rest).

(** What [dumps_at] writes for a member at depth [level]. *)
Definition member_text (level : nat) (kv : str * json) : str :=
  encode_basestring_ascii (fst kv) ++ lit ": " ++ dumps_at level (snd kv).

(** What section 3 asks of a Schedule and of what it holds. *)
Definition data_model_ok (s : Schedule.t) : Prop :=
  Goal_validate (Schedule.goal s) = true
  /\ Forall (fun t => SubTask_validate t = true) (Schedule.subtasks s)
  /\ Schedule_validate s = true.

(** The strings of a SubTask and of a Schedule. *)
Definition SubTask_strings (t : SubTask.t) : list str :=
  [SubTask.id t; SubTask.goal_title t; SubTask.description t].

Definition Schedule_strings (s : Schedule.t) : list str :=
  Goal.title (Schedule.goal s) :: Goal.description (Schedule.goal s)
  :: flat_map SubTask_strings (Schedule.subtasks s).

Definition unicode_subtask (t : SubTask.t) : Prop :=
  unicode_text (SubTask.id t) /\ unicode_text (SubTask.goal_title t)
  /\ unicode_text (SubTask.description t).

(** No string of the Schedule holds a surrogate code point. *)
Definition unicode_schedule (s : Schedule.t) : Prop :=
  unicode_text (Goal.title (Schedule.goal s))
  /\ unicode_text (Goal.description (Schedule.goal s))
  /\ Forall unicode_subtask (Schedule.subtasks s).

(** A Schedule whose SubTask has a description ending in the two surrogate
    code points U+D83D, U+DE00. *)
Definition surrogate_schedule : Schedule.t :=
  Schedule.mk a_goal
    [ SubTask.mk (lit "task-1") (lit "Launch blog")
        (lit "1. " ++ [55357; 56832]%N) 1 None None None ].

(** ** Texts of the planner *)

(** The characters [strip("- ")] removes. *)
Definition is_bullet (c : char) : bool := existsb (N.eqb c) (lit "- ").

(** ["\r\n".join(ls)] *)
Fixpoint join_crlf (ls : list str) : str :=
  match ls with
  | [] => []
  | [l] => l
  | l :: rest => l ++ CR :: LF :: join_crlf rest
  end.

(** A line with its bullet in front. *)
Definition bulleted (item : str * str) : str := fst item ++ snd item.

(** Scenario 1 as a bulleted list. *)
Definition bulleted_items : list (str * str) :=
  [ (lit "- ", lit "1. Buy domain"); (lit "  - ", lit "2. Write content");
    (lit "-- ", lit "3. Publish site") ].

Definition scenario1_lines : list str :=
  [ lit "1. Buy domain"; lit "2. Write content"; lit "Some heading";
    lit "3. Publish site" ].

(** Whether [s.strip()] is true: the line is not blank. *)
Definition not_blank (ln : str) : bool := truthy (strip ln).

(** Two steps of a plan with a blank line and a line of spaces between them. *)
Definition spaced_lines : list str :=
  [ lit "1. Buy domain"; []; lit "   "; lit "2. Write content" ].

(** A plan in which every line is a numbered step. *)
Definition numbered_plan : str :=
  lit "1. Buy domain" ++ [LF] ++ lit "2. Write content" ++ [LF]
  ++ lit "3. Publish site".

(** ** [main.py]: the fan-out *)


(** ** [main.py]: the readable schedule *)

(** [f"{t:%Y-%m-%d %H:%M}"] of a [datetime] (the year on four digits). *)
Definition strftime_minute (t : datetime) : str :=
  let '(year, month, day) := date_of t in
  pad 4 year ++ lit "-" ++ pad 2 month ++ lit "-" ++ pad 2 day ++ lit " "
  ++ pad 2 (hour_of t) ++ lit ":" ++ pad 2 (minute_of t).

(** [f"{task.estimate_minutes} min" if task.estimate_minutes else
    "unknown duration"]: neither [None] nor 0 is true. *)
Definition estimate_text (task : SubTask.t) : str :=
  match SubTask.estimate_minutes task with
  | Some m => if m =? 0 then lit "unknown duration"
              else str_of_int m ++ lit " min"
  | None => lit "unknown duration"
  end.

(** The loop [for idx, task in enumerate(subtasks, start=1)] that appends
    four lines per SubTask; a format specification given to [None] raises
    [TypeError]. *)
Fixpoint readable_loop (idx : Z) (tasks : list SubTask.t) (lines : list str)
  : result (list str) :=
  match tasks with
  | [] => Ok lines
  | task :: rest =>
      let est := estimate_text task in
      let lines :=
        lines ++ [str_of_int idx ++ lit ". " ++ SubTask.description task] in
      match SubTask.scheduled_start task with
      | None => Raise TypeError
      | Some start =>
          let lines := lines ++ [lit "   - Start: " ++ strftime_minute start] in
          let lines := lines ++ [lit "   - Estimate: " ++ est] in
          let lines := lines ++ [[]] in
          readable_loop (idx + 1) rest lines
      end
  end.

(** The lines of the readable schedule file. *)
Definition readable_lines (goal : Goal.t) (schedule : Schedule.t)
  : result (list str) :=
  readable_loop 1 (Schedule.subtasks schedule)
    [lit "Goal: " ++ Goal.title goal; []].

(** The four lines of the SubTask [snd p], numbered [fst p]. *)
Definition entry_lines (p : Z * SubTask.t) : list str :=
  [ str_of_int (fst p) ++ lit ". " ++ SubTask.description (snd p);
    lit "   - Start: "
    ++ match SubTask.scheduled_start (snd p) with
       | Some start => strftime_minute start
       | None => []
       end;
    lit "   - Estimate: " ++ estimate_text (snd p);
    [] ].

(** ** The text of a record *)

(** Printable ASCII, or a newline. *)
Definition is_printable (c : char) : bool :=
  ((32 <=? c) && (c <=? 126) || (c =? 10))%N.

Definition printable_text (s : str) : Prop :=
  Forall (fun c => is_printable c = true) s.

(** A document that holds no float. *)
Fixpoint float_free (v : json) : Prop :=
  match v with
  | JFloat _ => False
  | JList items => (fix all (l : list json) : Prop :=
                      match l with
                      | [] => True
                      | x :: rest => float_free x /\ all rest
                      end) items
  | JDict items => (fix all (l : list (str * json)) : Prop :=
                      match l with
                      | [] => True
                      | kv :: rest => float_free (snd kv) /\ all rest
                      end) items
  | _ => True
  end.

(** A generation collaborator that answers with scenario 1. *)
Definition scenario1_planner : str -> str -> result str :=
  fun _ _ => Ok scenario1.

(** A record with no [schedule] member. *)
Definition record_without_schedule : json :=
  JDict [ (lit "saved_at", JStr (isoformat nine_o_clock)) ].

(** Whether the escape of a low surrogate comes next in the text. *)
Definition low_escape_next (s : str) : bool :=
  match s with
  | b :: u :: g1 :: g2 :: g3 :: g4 :: _ =>
      (b =? BACKSLASH)%N && (u =? 117)%N
      && match unhex4 g1 g2 g3 g4 with
         | Some n => is_low_surrogate n
         | None => false
         end
  | _ => false
  end.

(** While a string is read: when the last character read is a high
    surrogate, the escape of a low surrogate does not come next. *)
Definition no_pair_ahead (acc s : str) : Prop :=
  match acc with
  | h :: _ => is_high_surrogate h = true -> low_escape_next s = false
  | [] => True
  end.

(** A document none of whose strings and keys holds a surrogate pair. *)
Fixpoint pair_free (v : json) : Prop :=
  match v with
  | JStr s => has_surrogate_pair s = false
  | JList items => (fix all (l : list json) : Prop :=
                      match l with
                      | [] => True
                      | x :: rest => pair_free x /\ all rest
                      end) items
  | JDict items => (fix all (l : list (str * json)) : Prop :=
                      match l with
                      | [] => True
                      | kv :: rest =>
                          (has_surrogate_pair (fst kv) = false
                           /\ pair_free (snd kv)) /\ all rest
                      end) items
  | _ => True
  end.

(** [rest] is what is left of [s] after a leading part. *)
Definition is_suffix (rest s : str) : Prop := exists pre, s = pre ++ rest.

(** What follows a value inside an array or an object: whitespace, a comma
    or a closing bracket. *)
Definition terminated (rest : str) : Prop :=
  match rest with
  | c :: _ => is_json_ws c = true \/ c = COMMA \/ c = 93%N \/ c = 125%N
  | [] => False
  end.

(** A text that opens a string, an array or an object. *)
Definition delimited (s : str) : Prop :=
  match s with
  | c :: _ => c = QUOTE \/ c = 91%N \/ c = 123%N
  | [] => False
  end.

(** What [scan_once] does with a text that opens neither a string, nor an
    object, nor an array: the literals, then a number. *)
Definition scan_scalar (s : str) : result (json * str) :=
  match strip_prefix (lit "null") s, strip_prefix (lit "true") s,
        strip_prefix (lit "false") s with
  | Some r, _, _ => Ok (JNull, r)
  | _, Some r, _ => Ok (JBool true, r)
  | _, _, Some r => Ok (JBool false, r)
  | None, None, None =>
      match strip_prefix (lit "NaN") s,
            strip_prefix (lit "Infinity") s,
            strip_prefix (lit "-Infinity") s with
      | Some r, _, _ => Ok (JFloat (lit "NaN"), r)
      | _, Some r, _ => Ok (JFloat (lit "Infinity"), r)
      | _, _, Some r => Ok (JFloat (lit "-Infinity"), r)
      | None, None, None => scan_number s
      end
  end.

(** * Properties *)

(** ** Characters *)

Lemma decimal_in_run c :
  Py_UNICODE_ISDECIMAL c = true ->
  exists z, In z decimal_zeros /\ (z <= c < z + 10)%N.
Proof.
  unfold Py_UNICODE_ISDECIMAL. rewrite existsb_exists.
  intros (z & Hin & Hz). exists z. split; [exact Hin|].
  apply andb_true_iff in Hz as [H1 H2].
  apply N.leb_le in H1. apply N.ltb_lt in H2. lia.
Qed.

Lemma decimal_not_space c :
  Py_UNICODE_ISDECIMAL c = true -> Py_UNICODE_ISSPACE c = false.
Proof.
  intros H. apply decimal_in_run in H as (z & Hin & Hz).
  unfold Py_UNICODE_ISSPACE.
  repeat (destruct Hin as [<- | Hin];
    [ repeat (apply orb_false_iff; split);
      try (apply andb_false_iff);
      try (apply N.eqb_neq; lia);
      try (left; apply N.leb_gt; lia); try (right; apply N.leb_gt; lia)
    | ]).
  destruct Hin.
Qed.

Lemma decimal_ge_zero c : Py_UNICODE_ISDECIMAL c = true -> (48 <= c)%N.
Proof.
  intros H. apply decimal_in_run in H as (z & Hin & Hz).
  assert (Hall : Forall (fun z => (48 <= z)%N) decimal_zeros)
    by (unfold decimal_zeros; repeat constructor; lia).
  rewrite List.Forall_forall in Hall. specialize (Hall z Hin). simpl in Hall. lia.
Qed.

Lemma decimal_not_dash_space c :
  Py_UNICODE_ISDECIMAL c = true -> existsb (N.eqb c) (lit "- ") = false.
Proof.
  intros H. apply decimal_ge_zero in H. simpl.
  rewrite !orb_false_iff. repeat split; try apply N.eqb_neq; lia.
Qed.

Lemma linebreak_is_space c :
  Py_UNICODE_ISLINEBREAK c = true -> Py_UNICODE_ISSPACE c = true.
Proof.
  unfold Py_UNICODE_ISLINEBREAK, Py_UNICODE_ISSPACE.
  rewrite !orb_true_iff, !andb_true_iff, !N.leb_le, !N.eqb_eq. lia.
Qed.

(** ** Stripping *)

Section Strip.
Context {A : Type} (p : A -> bool).

Definition head_not (s : list A) : Prop :=
  match s with
  | [] => True
  | c :: _ => p c = false
  end.

(** Neither end of [s] would be stripped. *)
Definition trimmed (s : list A) : Prop := head_not s /\ head_not (rev s).

Lemma dropwhile_head_not s : head_not (dropwhile p s).
Proof.
  induction s as [|c s IH]; simpl; [exact I|].
  destruct (p c) eqn:E; [exact IH | exact E].
Qed.

Lemma dropwhile_fix s : head_not s -> dropwhile p s = s.
Proof. destruct s as [|c s]; simpl; [reflexivity | intros ->; reflexivity]. Qed.

Lemma head_not_app s t : s <> [] -> head_not (s ++ t) <-> head_not s.
Proof. destruct s; [congruence | reflexivity]. Qed.

Lemma head_not_rev_dropwhile r :
  head_not (rev r) -> head_not (rev (dropwhile p r)).
Proof.
  induction r as [|a r IH]; simpl; [trivial|].
  destruct (p a) eqn:E; [|trivial].
  destruct r as [|b r]; simpl in *; [congruence|].
  intros H. apply IH. apply head_not_app in H; [exact H|].
  destruct (rev r); discriminate.
Qed.

Lemma dropwhile_Forall (P : A -> Prop) s :
  Forall P s -> Forall P (dropwhile p s).
Proof.
  induction 1 as [|c s Hc Hs IH]; simpl; [constructor|].
  destruct (p c); [exact IH | constructor; assumption].
Qed.

End Strip.

Lemma strip_by_trimmed p s : trimmed p (strip_by p s).
Proof.
  unfold strip_by, trimmed. split.
  - apply head_not_rev_dropwhile. rewrite rev_involutive.
    apply dropwhile_head_not.
  - rewrite rev_involutive. apply dropwhile_head_not.
Qed.

Lemma strip_by_fix p s : trimmed p s -> strip_by p s = s.
Proof.
  intros [H1 H2]. unfold strip_by.
  rewrite (dropwhile_fix p s H1), (dropwhile_fix p (rev s) H2).
  apply rev_involutive.
Qed.

Lemma strip_by_Forall (P : char -> Prop) p s :
  Forall P s -> Forall P (strip_by p s).
Proof.
  intros H. unfold strip_by.
  apply List.Forall_rev, dropwhile_Forall, List.Forall_rev, dropwhile_Forall, H.
Qed.

(** ** Lines *)

Definition no_linebreak (s : str) : Prop :=
  Forall (fun c => Py_UNICODE_ISLINEBREAK c = false) s.

Lemma splitlines_from_no_linebreak s : forall cur,
  no_linebreak cur -> Forall no_linebreak (splitlines_from cur s).
Proof.
  induction s as [s IH] using (induction_ltof1 _ (@List.length char)).
  unfold ltof in IH. intros cur Hcur. destruct s as [|c rest]; simpl.
  - destruct cur; constructor; [|constructor].
    apply List.Forall_rev, Hcur.
  - destruct (Py_UNICODE_ISLINEBREAK c) eqn:E.
    + constructor; [apply List.Forall_rev, Hcur|].
      destruct rest as [|c' rest'].
      * simpl. constructor.
      * destruct ((c =? CR)%N && (c' =? LF)%N);
          apply IH; simpl; try lia; constructor.
    + apply IH; [simpl; lia|]. constructor; assumption.
Qed.

Lemma splitlines_from_app l : forall cur s,
  no_linebreak l ->
  splitlines_from cur (l ++ s) = splitlines_from (rev l ++ cur) s.
Proof.
  induction l as [|c l IH]; intros cur s H; simpl; [reflexivity|].
  inversion H as [|c0 l0 Hc Hl]; subst. rewrite Hc, IH by assumption.
  rewrite <- app_assoc. reflexivity.
Qed.

Lemma splitlines_join ls :
  Forall (fun l => no_linebreak l /\ l <> []) ls ->
  splitlines (join_lines ls) = ls.
Proof.
  unfold splitlines. induction 1 as [|l rest [Hl Hne] Hrest IH];
    [reflexivity|].
  destruct rest as [|l' rest'].
  - simpl. rewrite <- (app_nil_r l) at 1.
    rewrite splitlines_from_app by assumption. simpl. rewrite app_nil_r.
    destruct (rev l) eqn:E.
    + apply (f_equal (@rev char)) in E. rewrite rev_involutive in E.
      contradiction.
    + rewrite <- E, rev_involutive. reflexivity.
  - change (join_lines (l :: l' :: rest'))
      with (l ++ LF :: join_lines (l' :: rest')).
    remember (join_lines (l' :: rest')) as J eqn:EJ.
    rewrite splitlines_from_app by assumption. rewrite app_nil_r.
    simpl. rewrite rev_involutive. f_equal.
    destruct J; exact IH.
Qed.

(** ** The parser *)

Lemma numbered_item_head line :
  numbered_item_match line = true ->
  exists c rest, line = c :: rest /\ Py_UNICODE_ISDECIMAL c = true.
Proof.
  destruct line as [|c rest]; simpl; [discriminate|].
  intros H. apply andb_true_iff in H as [H _]. eauto.
Qed.

Lemma SubTask_new_numbered ident title line idx :
  numbered_item_match line = true -> 1 <= idx ->
  SubTask_new ident title line idx
  = Ok (SubTask.mk ident title line idx None None None).
Proof.
  intros Hm Hidx. apply numbered_item_head in Hm as (c & rest & -> & _).
  unfold SubTask_new, SubTask_validate. simpl.
  destruct (Z.leb_spec 1 idx); [reflexivity | lia].
Qed.

Lemma subtasks_loop_emits goal lines : forall idx subtasks,
  1 <= idx ->
  subtasks_loop goal idx lines subtasks
  = Ok (subtasks
        ++ map (task_of goal) (List.filter numbered (enumerate idx lines))).
Proof.
  induction lines as [|line rest IH]; intros idx subtasks Hidx; simpl.
  - rewrite app_nil_r. reflexivity.
  - unfold numbered at 1. simpl.
    destruct (numbered_item_match line) eqn:E; simpl.
    + rewrite SubTask_new_numbered by assumption. simpl.
      rewrite IH by lia. rewrite <- app_assoc. reflexivity.
    + apply IH. lia.
Qed.

Lemma parser_emits text goal :
  _subtasks_from_llm_output text goal
  = Ok (map (task_of goal) (retained text)).
Proof.
  unfold _subtasks_from_llm_output, retained.
  rewrite subtasks_loop_emits by lia. reflexivity.
Qed.

Lemma enumerate_fst_lower {A} (l : list A) : forall i,
  Forall (fun p => i <= fst p) (enumerate i l).
Proof.
  induction l as [|a l IH]; intros i; simpl; constructor; simpl; [lia|].
  eapply List.Forall_impl; [|apply IH]. simpl. intros; lia.
Qed.

Lemma Forall_filter_keep {A} (P : A -> Prop) (f : A -> bool) l :
  Forall P l -> Forall P (List.filter f l).
Proof.
  induction 1 as [|a l Ha Hl IH]; simpl; [constructor|].
  destruct (f a); [constructor; assumption | exact IH].
Qed.

(** Positions grow strictly along any selection of an enumeration. *)
Lemma enumerate_filter_increasing {A} (f : Z * A -> bool) (l : list A) :
  forall i, StronglySorted Z.lt
              (map fst (List.filter f (enumerate i l))).
Proof.
  induction l as [|a l IH]; intros i; simpl; [constructor|].
  destruct (f (i, a)); [|apply IH].
  simpl. constructor; [apply IH|].
  apply List.Forall_map, Forall_filter_keep.
  eapply List.Forall_impl; [|apply (enumerate_fst_lower l (i + 1))].
  simpl. intros; lia.
Qed.

Lemma to_int_not_nil n :
  Z.to_int n <> Decimal.Pos Decimal.Nil /\ Z.to_int n <> Decimal.Neg Decimal.Nil.
Proof.
  split; intros H; pose proof (f_equal Z.of_int H) as H0;
    rewrite DecimalZ.of_to in H0; simpl in H0; subst n; discriminate H.
Qed.

Lemma lit_inj a b : lit a = lit b -> a = b.
Proof.
  unfold lit. intros H.
  rewrite <- (string_of_list_ascii_of_string a),
          <- (string_of_list_ascii_of_string b).
  f_equal. revert H.
  generalize (list_ascii_of_string a), (list_ascii_of_string b).
  intros l. induction l as [|x l IH]; intros [|y l']; simpl;
    try discriminate; [reflexivity|].
  intros H. injection H as Hx Hl. f_equal; [|apply IH, Hl].
  rewrite <- (ascii_N_embedding x), <- (ascii_N_embedding y), Hx.
  reflexivity.
Qed.

Lemma str_of_int_inj a b : str_of_int a = str_of_int b -> a = b.
Proof.
  unfold str_of_int. intros H. apply lit_inj in H.
  apply DecimalZ.to_int_inj.
  destruct (to_int_not_nil a) as [Ha1 Ha2], (to_int_not_nil b) as [Hb1 Hb2].
  pose proof (NilZero.isi _ Ha1 Ha2) as Ia.
  pose proof (NilZero.isi _ Hb1 Hb2) as Ib.
  rewrite H in Ia. congruence.
Qed.

Lemma task_id_inj a b :
  lit "task-" ++ str_of_int a = lit "task-" ++ str_of_int b -> a = b.
Proof. intros H. apply app_inv_head in H. apply str_of_int_inj, H. Qed.

Lemma increasing_NoDup l : StronglySorted Z.lt l -> List.NoDup l.
Proof.
  induction 1 as [|a l Hs IH Ha]; constructor; [|exact IH].
  intros Hin. rewrite List.Forall_forall in Ha. specialize (Ha a Hin). lia.
Qed.

Lemma enumerate_snd {A} (l : list A) : forall i, map snd (enumerate i l) = l.
Proof. induction l as [|a l IH]; intros i; simpl; [|rewrite IH]; reflexivity. Qed.

Lemma enumerate_filter_snd {A} (f : A -> bool) (l : list A) : forall i,
  map snd (List.filter (fun p => f (snd p)) (enumerate i l)) = List.filter f l.
Proof.
  induction l as [|a l IH]; intros i; simpl; [reflexivity|].
  destruct (f a); simpl; rewrite IH; reflexivity.
Qed.

(** The pair [(i, a)] of [enumerate start l] has [a] at index [i - start]. *)
Lemma enumerate_nth {A} (l : list A) : forall start,
  Forall (fun p => start <= fst p
                   /\ nth_error l (Z.to_nat (fst p - start)) = Some (snd p))
    (enumerate start l).
Proof.
  induction l as [|a l IH]; intros start; simpl; constructor; simpl.
  - split; [lia|]. replace (start - start) with 0 by lia. reflexivity.
  - eapply List.Forall_impl; [|apply (IH (start + 1))]. simpl.
    intros [i b] [Hi Hb]; simpl in *. split; [lia|].
    replace (Z.to_nat (i - start)) with (S (Z.to_nat (i - (start + 1))))
      by lia.
    exact Hb.
Qed.

Lemma retained_descriptions text :
  map snd (retained text)
  = List.filter numbered_item_match (clean_lines text).
Proof. apply enumerate_filter_snd. Qed.

Lemma task_of_description goal ps :
  map SubTask.description (map (task_of goal) ps) = map snd ps.
Proof. rewrite List.map_map. reflexivity. Qed.

Lemma task_of_order goal ps :
  map SubTask.order (map (task_of goal) ps) = map fst ps.
Proof. rewrite List.map_map. reflexivity. Qed.

Lemma task_of_id goal ps :
  map SubTask.id (map (task_of goal) ps)
  = map (fun i => lit "task-" ++ str_of_int i) (map fst ps).
Proof. rewrite !List.map_map. reflexivity. Qed.

Lemma NoDup_map_injective {A B} (f : A -> B) l :
  (forall a b, f a = f b -> a = b) -> List.NoDup l -> List.NoDup (map f l).
Proof.
  intros Hf. induction 1 as [|a l Ha Hl IH]; simpl; constructor; [|exact IH].
  rewrite List.in_map_iff. intros (b & Hb & Hin).
  apply Hf in Hb. subst b. contradiction.
Qed.

(** C1, as the specification states it, fails on scenario 1: the heading
    takes position 3, so the third SubTask gets order 4 and id [task-4]. *)
Lemma parser_scenario1_skips_position :
  exists l,
    _subtasks_from_llm_output scenario1 a_goal = Ok l
    /\ map SubTask.description l
       = [lit "1. Buy domain"; lit "2. Write content"; lit "3. Publish site"]
    /\ map SubTask.order l = [1; 2; 4]
    /\ map SubTask.id l = [lit "task-1"; lit "task-2"; lit "task-4"]
    /\ map SubTask.order l <> [1; 2; 3].
Proof.
  eexists. split; [vm_compute; reflexivity|].
  repeat split; discriminate.
Qed.

(** C1 (amended): the parser always returns; it emits one SubTask per line
    matching the numbered-list pattern, in order, with the line verbatim as
    description; the [order] of a SubTask (and the number in its [id]) is the
    1-based position of its line among all the lines left after blank ones
    are dropped, matching or not.  On scenario 1 the orders are 1, 2, 4. *)
Theorem parser_order_is_line_position :
  (forall text goal,
     exists l,
       _subtasks_from_llm_output text goal = Ok l
       /\ l = map (task_of goal) (retained text)
       /\ map SubTask.description l
          = List.filter numbered_item_match (clean_lines text)
       /\ Forall (fun t =>
            1 <= SubTask.order t
            /\ nth_error (clean_lines text) (Z.to_nat (SubTask.order t - 1))
               = Some (SubTask.description t)
            /\ SubTask.id t = lit "task-" ++ str_of_int (SubTask.order t)
            /\ SubTask.goal_title t = Goal.title goal) l)
  /\ (forall goal,
        exists l,
          _subtasks_from_llm_output scenario1 goal = Ok l
          /\ map SubTask.description l
             = [lit "1. Buy domain"; lit "2. Write content";
                lit "3. Publish site"]
          /\ map SubTask.order l = [1; 2; 4]).
Proof.
  split.
  - intros text goal. eexists. split; [apply parser_emits|].
    split; [reflexivity|]. split.
    + rewrite task_of_description. apply retained_descriptions.
    + apply List.Forall_map. unfold retained. apply Forall_filter_keep.
      eapply List.Forall_impl; [|apply enumerate_nth].
      intros [i line] [Hi Hn]; simpl in *. auto.
  - intros goal. eexists. split; [apply parser_emits|].
    rewrite task_of_description, task_of_order. split; reflexivity.
Qed.

(** C8: the parser is total and never raises, whatever the text, and the
    empty text gives the empty list. *)
Theorem parser_never_raises :
  (forall text goal, exists l, _subtasks_from_llm_output text goal = Ok l)
  /\ (forall goal, _subtasks_from_llm_output [] goal = Ok []).
Proof.
  split.
  - intros text goal. eexists. apply parser_emits.
  - intros goal. reflexivity.
Qed.

(** C10: along the list the parser returns, orders grow strictly, ids are
    pairwise distinct, and every id is ["task-"] followed by the order; the
    orders need not be contiguous (scenario 1 gives 1, 2, 4). *)
Theorem parser_orders_increase_ids_distinct :
  (forall text goal,
     exists l,
       _subtasks_from_llm_output text goal = Ok l
       /\ StronglySorted Z.lt (map SubTask.order l)
       /\ List.NoDup (map SubTask.id l)
       /\ Forall (fun t =>
            SubTask.id t = lit "task-" ++ str_of_int (SubTask.order t)) l)
  /\ (exists l,
        _subtasks_from_llm_output scenario1 a_goal = Ok l
        /\ map SubTask.order l = [1; 2; 4]).
Proof.
  split.
  - intros text goal. eexists. split; [apply parser_emits|].
    assert (Hs : StronglySorted Z.lt (map fst (retained text)))
      by apply enumerate_filter_increasing.
    split; [rewrite task_of_order; exact Hs|]. split.
    + rewrite task_of_id.
      apply NoDup_map_injective; [apply task_id_inj|].
      apply increasing_NoDup, Hs.
    + apply List.Forall_map, List.Forall_forall. reflexivity.
  - eexists. split; [apply parser_emits|]. reflexivity.
Qed.

(** ** Parsing the parser's own output again *)

Lemma clean_lines_shape text :
  Forall (fun l => no_linebreak l /\ trimmed Py_UNICODE_ISSPACE l)
    (clean_lines text).
Proof.
  unfold clean_lines. apply List.Forall_map, Forall_filter_keep.
  eapply List.Forall_impl;
    [|apply (splitlines_from_no_linebreak text []); constructor].
  intros ln Hln. simpl. split.
  - apply strip_by_Forall, strip_by_Forall, Hln.
  - apply strip_by_trimmed.
Qed.

(** A line the parser kept, with no hyphen at its end, is left as it is by
    both strippings, and is not blank. *)
Lemma kept_line_is_clean d :
  numbered_item_match d = true ->
  trimmed Py_UNICODE_ISSPACE d ->
  ends_with_dash d = false ->
  truthy (strip d) = true /\ strip (strip_chars (lit "- ") d) = d.
Proof.
  intros Hm Ht Hd. unfold strip.
  assert (E : strip_chars (lit "- ") d = d).
  { apply strip_by_fix. destruct Ht as [_ Hlast].
    apply numbered_item_head in Hm as (c & rest & -> & Hc). split.
    - simpl head_not. apply decimal_not_dash_space, Hc.
    - unfold ends_with_dash in Hd. unfold head_not in *.
      destruct (rev (c :: rest)) as [|z zs]; [exact I|].
      change (lit "- ") with [DASH; SPACE]. simpl. rewrite Hd. simpl.
      destruct (N.eqb_spec z SPACE) as [->|];
        [discriminate Hlast | reflexivity]. }
  rewrite E, (strip_by_fix _ d Ht). split; [|reflexivity].
  apply numbered_item_head in Hm as (c & rest & -> & _). reflexivity.
Qed.

Lemma clean_lines_join ds :
  Forall (fun d => no_linebreak d /\ trimmed Py_UNICODE_ISSPACE d
                   /\ numbered_item_match d = true
                   /\ ends_with_dash d = false) ds ->
  clean_lines (join_lines ds) = ds.
Proof.
  intros H. unfold clean_lines. rewrite splitlines_join.
  - induction H as [|d ds (Hnl & Ht & Hm & Hd) _ IH]; [reflexivity|].
    destruct (kept_line_is_clean d Hm Ht Hd) as [E1 E2].
    cbn [List.filter]. rewrite E1. cbn [map]. rewrite E2, IH. reflexivity.
  - eapply List.Forall_impl; [|exact H].
    intros d (Hnl & _ & Hm & _). split; [exact Hnl|].
    apply numbered_item_head in Hm as (c & rest & -> & _). discriminate.
Qed.

Lemma filter_all {A} (f : A -> bool) l :
  Forall (fun a => f a = true) l -> List.filter f l = l.
Proof.
  induction 1 as [|a l Ha Hl IH]; simpl; [reflexivity|].
  rewrite Ha, IH. reflexivity.
Qed.

(** C9, as the specification states it, fails: a hyphen that a tab protected
    in the first run is stripped in the second. *)
Lemma reparse_drops_trailing_dash :
  exists l l',
    _subtasks_from_llm_output dash_tab_text a_goal = Ok l
    /\ _subtasks_from_llm_output
         (join_lines (map SubTask.description l)) a_goal = Ok l'
    /\ map SubTask.description l = [lit "1. Prepare launch -"]
    /\ map SubTask.description l' = [lit "1. Prepare launch"]
    /\ map SubTask.description l' <> map SubTask.description l.
Proof.
  eexists. eexists. split; [vm_compute; reflexivity|].
  split; [vm_compute; reflexivity|].
  repeat split; discriminate.
Qed.

(** C9 (amended): when no description the parser produced ends in a hyphen,
    running the parser on the descriptions joined by newlines yields the
    same descriptions in the same order. *)
Theorem reparse_same_descriptions text goal l :
  _subtasks_from_llm_output text goal = Ok l ->
  Forall (fun t => ends_with_dash (SubTask.description t) = false) l ->
  exists l',
    _subtasks_from_llm_output (join_lines (map SubTask.description l)) goal
    = Ok l'
    /\ map SubTask.description l' = map SubTask.description l.
Proof.
  rewrite parser_emits. intros [= <-] Hdash.
  rewrite task_of_description in *.
  eexists. split; [apply parser_emits|].
  rewrite task_of_description, retained_descriptions.
  assert (Hds : Forall (fun d => no_linebreak d
                     /\ trimmed Py_UNICODE_ISSPACE d
                     /\ numbered_item_match d = true
                     /\ ends_with_dash d = false) (map snd (retained text))).
  { rewrite List.Forall_map in Hdash. simpl in Hdash.
    rewrite List.Forall_forall in Hdash. rewrite List.Forall_forall.
    intros d Hin. apply List.in_map_iff in Hin as (p & <- & Hp).
    specialize (Hdash p Hp).
    pose proof Hp as Hq. apply (List.in_map snd) in Hq.
    rewrite retained_descriptions in Hq.
    apply List.filter_In in Hq as [Hin Hm].
    pose proof (clean_lines_shape text) as Hc.
    rewrite List.Forall_forall in Hc. destruct (Hc _ Hin). auto. }
  rewrite clean_lines_join by exact Hds.
  apply filter_all. eapply List.Forall_impl; [|exact Hds].
  intros d (_ & _ & Hm & _). exact Hm.
Qed.

(** The amended C9 at scenario 1. *)
Lemma reparse_same_descriptions_scenario1 :
  exists l,
    _subtasks_from_llm_output scenario1 a_goal = Ok l
    /\ exists l',
         _subtasks_from_llm_output
           (join_lines (map SubTask.description l)) a_goal = Ok l'
         /\ map SubTask.description l' = map SubTask.description l.
Proof.
  eexists. split; [vm_compute; reflexivity|].
  apply (reparse_same_descriptions scenario1 a_goal).
  - vm_compute. reflexivity.
  - repeat constructor.
Defined.

(** ** The pipeline *)

Lemma distinct_NoDup {A} (eqb : A -> A -> bool) l :
  (forall a b, eqb a b = true <-> a = b) ->
  List.NoDup l -> distinct eqb l = true.
Proof.
  intros Heq. induction 1 as [|a l Ha Hl IH]; simpl; [reflexivity|].
  rewrite IH, andb_true_r. apply negb_true_iff.
  destruct (existsb (eqb a) l) eqn:E; [|reflexivity].
  apply existsb_exists in E as (b & Hin & Hb). apply Heq in Hb. subst b.
  contradiction.
Qed.

Lemma str_eqb_eq a b : str_eqb a b = true <-> a = b.
Proof. unfold str_eqb. apply bool_decide_eq_true. Qed.

Lemma Schedule_new_parsed goal text :
  Schedule_new goal (map (task_of goal) (retained text))
  = Ok (Schedule.mk goal (map (task_of goal) (retained text))).
Proof.
  unfold Schedule_new, Schedule_validate. simpl.
  assert (Hs : StronglySorted Z.lt (map fst (retained text)))
    by apply enumerate_filter_increasing.
  rewrite task_of_id, task_of_order.
  rewrite (distinct_NoDup str_eqb), (distinct_NoDup Z.eqb); auto.
  - apply Z.eqb_eq.
  - apply increasing_NoDup, Hs.
  - apply str_eqb_eq.
  - apply NoDup_map_injective; [apply task_id_inj|].
    apply increasing_NoDup, Hs.
Qed.

Lemma plan_and_execute_returns kickoff goal text :
  kickoff (Goal.title goal) (Goal.description goal) = Ok text ->
  plan_and_execute kickoff goal
  = Ok (Schedule.mk goal (map (task_of goal) (retained text))).
Proof.
  intros H. unfold plan_and_execute. rewrite H. simpl.
  rewrite parser_emits. simpl. apply Schedule_new_parsed.
Qed.

(** C2, as the specification states it, fails: when the generation
    collaborator raises, so does [plan_and_execute]; no Schedule comes back. *)
Lemma plan_and_execute_propagates_failure :
  plan_and_execute unreachable a_goal
  = Raise (CollaboratorError (lit "connection refused"))
  /\ forall s, plan_and_execute unreachable a_goal <> Ok s.
Proof. split; [reflexivity | discriminate]. Qed.

(** C2 (amended): when the generation collaborator returns empty text,
    [plan_and_execute] returns a Schedule of the Goal with zero SubTasks (and
    for any other text the Schedule of what the parser emits); when the
    collaborator raises, [plan_and_execute] raises the same error. *)
Theorem plan_and_execute_outcome kickoff goal :
  match kickoff (Goal.title goal) (Goal.description goal) with
  | Raise e => plan_and_execute kickoff goal = Raise e
  | Ok [] => plan_and_execute kickoff goal = Ok (Schedule.mk goal [])
  | Ok text =>
      plan_and_execute kickoff goal
      = Ok (Schedule.mk goal (map (task_of goal) (retained text)))
  end.
Proof.
  destruct (kickoff _ _) as [text|e] eqn:E.
  - rewrite (plan_and_execute_returns _ _ _ E). destruct text; reflexivity.
  - unfold plan_and_execute. rewrite E. reflexivity.
Qed.

(** ** The Schedule Builder *)

Lemma insert_by_order_perm t l : Permutation (insert_by_order t l) (t :: l).
Proof.
  induction l as [|u l IH]; simpl; [reflexivity|].
  destruct (SubTask.order t <=? SubTask.order u); [reflexivity|].
  rewrite IH. apply perm_swap.
Qed.

Lemma sort_by_order_perm l : Permutation (sort_by_order l) l.
Proof.
  induction l as [|t l IH]; simpl; [reflexivity|].
  rewrite insert_by_order_perm, IH. reflexivity.
Qed.

Lemma insert_by_order_sorted t l :
  StronglySorted Z.le (map SubTask.order l) ->
  StronglySorted Z.le (map SubTask.order (insert_by_order t l)).
Proof.
  induction l as [|u l IH]; simpl; intros H.
  - repeat constructor.
  - inversion H as [|x xs Hs Hall]; subst.
    destruct (Z.leb_spec (SubTask.order t) (SubTask.order u)); simpl.
    + constructor; [exact H|]. constructor; [assumption|].
      eapply List.Forall_impl; [|exact Hall]. simpl. intros; lia.
    + constructor; [apply IH, Hs|].
      apply List.Forall_map.
      eapply Permutation_Forall;
        [symmetry; apply insert_by_order_perm|].
      constructor; [lia|]. rewrite List.Forall_map in Hall. exact Hall.
Qed.

Lemma sort_by_order_sorted l :
  StronglySorted Z.le (map SubTask.order (sort_by_order l)).
Proof.
  induction l as [|t l IH]; simpl; [constructor|].
  apply insert_by_order_sorted, IH.
Qed.

Lemma assign_blocks_clear l : forall cursor,
  map clear_block (assign_blocks cursor l) = map clear_block l.
Proof.
  induction l as [|t l IH]; intros cursor; simpl; [reflexivity|].
  rewrite IH. reflexivity.
Qed.

Lemma assign_blocks_order l : forall cursor,
  map SubTask.order (assign_blocks cursor l) = map SubTask.order l.
Proof.
  induction l as [|t l IH]; intros cursor; simpl; [reflexivity|].
  rewrite IH. reflexivity.
Qed.

(** Every block starts where it should, lasts its duration, and hands its
    end to the next block. *)
Lemma assign_blocks_at l : forall cursor i t,
  nth_error (assign_blocks cursor l) i = Some t ->
  exists st,
    SubTask.scheduled_start t = Some st
    /\ SubTask.scheduled_end t = Some (st + minutes (duration_of t))
    /\ In (clear_block t) (map clear_block l)
    /\ (i = 0%nat -> st = cursor)
    /\ forall t', nth_error (assign_blocks cursor l) (S i) = Some t' ->
                  SubTask.scheduled_start t'
                  = Some (st + minutes (duration_of t)).
Proof.
  induction l as [|u l IH]; intros cursor i t H.
  - destruct i; discriminate.
  - destruct i as [|i]; simpl in H.
    + injection H as <-. exists cursor. simpl.
      repeat split; auto.
      intros t' H'. destruct l as [|v l]; simpl in H'; [discriminate|].
      injection H' as <-. reflexivity.
    + destruct (IH _ _ _ H) as (st & H1 & H2 & H3 & _ & H5).
      exists st. repeat split; auto; [right; exact H3 | discriminate].
Qed.

(** C5: [with_time_blocks] takes the SubTasks in ascending [order] and
    leaves their other fields alone; the first block starts at the start
    time; every block ends its duration (the estimate, or else 30 minutes)
    after it starts, which is later than its start, and the next block starts
    at that end.  In scenario 3 the blocks are 09:00-09:15, 09:15-09:45 and
    09:45-10:15. *)
Theorem with_time_blocks_sequential (s : Schedule.t) (start : datetime) :
  Forall (fun t => forall m, SubTask.estimate_minutes t = Some m -> 0 < m)
    (Schedule.subtasks s) ->
  let out := Schedule.subtasks (with_time_blocks s start) in
  Schedule.goal (with_time_blocks s start) = Schedule.goal s
  /\ Permutation (map clear_block out) (map clear_block (Schedule.subtasks s))
  /\ StronglySorted Z.le (map SubTask.order out)
  /\ (forall t, nth_error out 0 = Some t ->
        SubTask.scheduled_start t = Some start)
  /\ (forall i t,
        nth_error out i = Some t ->
        exists st en,
          SubTask.scheduled_start t = Some st
          /\ SubTask.scheduled_end t = Some en
          /\ en = st + minutes
                       match SubTask.estimate_minutes t with
                       | Some m => m
                       | None => 30
                       end
          /\ st < en
          /\ forall t', nth_error out (S i) = Some t' ->
                        SubTask.scheduled_start t' = Some en)
  /\ blocks (with_time_blocks scenario3 (datetime_of 2024 1 1 9 0 0 0))
     = [ (Some (datetime_of 2024 1 1 9 0 0 0),
          Some (datetime_of 2024 1 1 9 15 0 0));
         (Some (datetime_of 2024 1 1 9 15 0 0),
          Some (datetime_of 2024 1 1 9 45 0 0));
         (Some (datetime_of 2024 1 1 9 45 0 0),
          Some (datetime_of 2024 1 1 10 15 0 0)) ].
Proof.
  intros Hpos out. subst out. unfold with_time_blocks.
  cbn [Schedule.subtasks Schedule.goal].
  split; [reflexivity|]. split.
  { rewrite assign_blocks_clear. apply Permutation_map, sort_by_order_perm. }
  split.
  { rewrite assign_blocks_order. apply sort_by_order_sorted. }
  split.
  { intros t H. apply assign_blocks_at in H as (st & H1 & _ & _ & H4 & _).
    rewrite H1, H4; reflexivity. }
  split; [|vm_compute; reflexivity].
  intros i t H. apply assign_blocks_at in H as (st & H1 & H2 & H3 & _ & H5).
  exists st, (st + minutes (duration_of t)).
  repeat split; auto.
  assert (Hd : 0 < duration_of t).
  { apply List.in_map_iff in H3 as (u & Hu & Hin).
    apply (Permutation_in _ (sort_by_order_perm _)) in Hin.
    rewrite List.Forall_forall in Hpos. specialize (Hpos u Hin).
    unfold duration_of.
    replace (SubTask.estimate_minutes t) with (SubTask.estimate_minutes u)
      by (apply (f_equal SubTask.estimate_minutes) in Hu; exact Hu).
    destruct (SubTask.estimate_minutes u) as [m|]; [apply Hpos; reflexivity|].
    reflexivity. }
  unfold minutes, US_PER_SECOND. lia.
Qed.

(** C5 at scenario 3, started at 2024-01-01T09:00. *)
Lemma with_time_blocks_scenario3 :
  let out :=
    Schedule.subtasks
      (with_time_blocks scenario3 (datetime_of 2024 1 1 9 0 0 0)) in
  StronglySorted Z.le (map SubTask.order out)
  /\ forall i t,
       nth_error out i = Some t ->
       exists st en,
         SubTask.scheduled_start t = Some st
         /\ SubTask.scheduled_end t = Some en
         /\ st < en
         /\ forall t', nth_error out (S i) = Some t' ->
                       SubTask.scheduled_start t' = Some en.
Proof.
  assert (Hpos : Forall
            (fun t => forall m, SubTask.estimate_minutes t = Some m -> 0 < m)
            (Schedule.subtasks scenario3)).
  { repeat constructor; simpl; intros m [= <-]; lia. }
  pose proof (with_time_blocks_sequential scenario3
                (datetime_of 2024 1 1 9 0 0 0) Hpos) as H.
  destruct H as (_ & _ & Hsorted & _ & Hblocks & _).
  split; [exact Hsorted|].
  intros i t Hi. destruct (Hblocks i t Hi) as (st & en & H1 & H2 & _ & H4 & H5).
  exists st, en. auto.
Defined.

(** ** The persistence gateway *)

(** C7: where no record exists at the path, [load_schedule] raises
    [FileNotFoundError] for that path; it returns no Schedule. *)
Theorem load_schedule_not_found (fs : filesystem) (p : path) :
  fs !! p = None ->
  load_schedule fs p = Raise (FileNotFoundError p)
  /\ forall s, load_schedule fs p <> Ok s.
Proof.
  intros H. unfold load_schedule. rewrite H. split; [reflexivity|discriminate].
Qed.

(** C7 on the empty file system. *)
Lemma load_schedule_not_found_empty :
  load_schedule ∅ schedule_json = Raise (FileNotFoundError schedule_json)
  /\ forall s, load_schedule ∅ schedule_json <> Ok s.
Proof. apply (load_schedule_not_found ∅ schedule_json). reflexivity. Defined.

Lemma save_schedule_writes p schedule now fs :
  save_schedule p schedule now fs = <[p := record_text schedule now]> fs.
Proof.
  unfold save_schedule, save_schedule_ops, run_ops.
  cbn [fold_left run_op].
  rewrite lookup_insert_eq. cbn [default app]. apply insert_insert_eq.
Qed.

(** C3, as the specification states it, fails: a save cancelled after the
    file was opened leaves it empty, which is neither the earlier record nor
    the new one. *)
Lemma interrupted_save_truncates :
  exists fs',
    interrupted (save_schedule_ops schedule_json scenario3_blocked nine_o_clock)
      fs_with_record fs'
    /\ fs_with_record !! schedule_json
       = Some (record_text (Schedule.mk a_goal []) nine_o_clock)
    /\ fs' !! schedule_json = Some []
    /\ fs' !! schedule_json <> fs_with_record !! schedule_json
    /\ fs' !! schedule_json
       <> Some (record_text scenario3_blocked nine_o_clock).
Proof.
  exists (run_op fs_with_record (OpenW schedule_json)).
  split; [apply stopped_later, stopped_before|].
  unfold fs_with_record. rewrite save_schedule_writes. cbn [run_op].
  rewrite !lookup_insert_eq.
  repeat split; intros H; apply (f_equal (option_map (@List.length char))) in H;
    vm_compute in H; discriminate H.
Qed.

Lemma is_prefix_nil s : is_prefix [] s.
Proof. exists s. reflexivity. Qed.

Lemma is_prefix_refl s : is_prefix s s.
Proof. exists []. symmetry. apply app_nil_r. Qed.

(** C3 (amended): [save_schedule] opens the path for writing, which empties
    the file, and then writes the record.  Run to its end it leaves the full
    new record at the path.  Cancelled or failing on the way it leaves at the
    path either what was there before (it had not yet opened the file) or a
    leading part of the new record, which may be empty or cut short; no
    other path changes. *)
Theorem interrupted_save_leaves_prefix
    (p : path) (schedule : Schedule.t) (now : datetime) (fs fs' : filesystem) :
  interrupted (save_schedule_ops p schedule now) fs fs' ->
  save_schedule p schedule now fs !! p = Some (record_text schedule now)
  /\ (fs' !! p = fs !! p
      \/ exists pre,
           is_prefix pre (record_text schedule now) /\ fs' !! p = Some pre)
  /\ forall q, q <> p -> fs' !! q = fs !! q.
Proof.
  intros H. split; [rewrite save_schedule_writes; apply lookup_insert_eq|].
  unfold save_schedule_ops in H. cbv zeta in H.
  inversion H as [ | | op ops fs1 fs1' H1]; subst.
  { split; [left; reflexivity | reflexivity]. }
  inversion H1 as [ | q data pre ops fs2 Hpre | op ops fs2 fs2' H2]; subst.
  - cbn [run_op]. split.
    + right. exists []. split; [apply is_prefix_nil | apply lookup_insert_eq].
    + intros q Hq. apply lookup_insert_ne. congruence.
  - cbn [run_op]. rewrite !lookup_insert_eq. cbn [default app]. split.
    + right. exists pre. split; [exact Hpre | reflexivity].
    + intros q Hq. rewrite !lookup_insert_ne by congruence. reflexivity.
  - inversion H2; subst.
    cbn [run_op]. rewrite !lookup_insert_eq. cbn [default app]. split.
    + right. exists (record_text schedule now).
      split; [apply is_prefix_refl | reflexivity].
    + intros q Hq. rewrite !lookup_insert_ne by congruence. reflexivity.
Qed.

(** The amended C3 for a save of scenario 3 that is cancelled once the file
    is open, over an earlier record. *)
Lemma interrupted_save_scenario3 :
  save_schedule schedule_json scenario3_blocked nine_o_clock fs_with_record
    !! schedule_json
  = Some (record_text scenario3_blocked nine_o_clock)
  /\ (run_op fs_with_record (OpenW schedule_json) !! schedule_json
      = fs_with_record !! schedule_json
      \/ exists pre,
           is_prefix pre (record_text scenario3_blocked nine_o_clock)
           /\ run_op fs_with_record (OpenW schedule_json) !! schedule_json
              = Some pre)
  /\ forall q, q <> schedule_json ->
       run_op fs_with_record (OpenW schedule_json) !! q = fs_with_record !! q.
Proof.
  apply (interrupted_save_leaves_prefix schedule_json scenario3_blocked
           nine_o_clock fs_with_record
           (run_op fs_with_record (OpenW schedule_json))).
  apply stopped_later, stopped_before.
Defined.

(** ** The notification loop *)


(** ** The fan-out *)






(** ** Fixed-width decimal fields *)

Lemma int_of_digits_snoc ds c :
  int_of_digits (ds ++ [c]) = int_of_digits ds * 10 + (Z.of_N c - 48).
Proof. unfold int_of_digits. rewrite fold_left_app. reflexivity. Qed.

Lemma pad_length w : forall n, length (pad w n) = w.
Proof.
  induction w as [|w IH]; intros n; simpl; [reflexivity|].
  rewrite length_app, IH. simpl. lia.
Qed.

Lemma pad_digits w : forall n, forallb is_ascii_digit (pad w n) = true.
Proof.
  induction w as [|w IH]; intros n; simpl; [reflexivity|].
  rewrite forallb_app, IH. simpl. rewrite andb_true_r.
  unfold is_ascii_digit. pose proof (Z.mod_pos_bound n 10 ltac:(lia)).
  apply andb_true_iff. split; apply N.leb_le; lia.
Qed.

Lemma pad_value w : forall n,
  0 <= n < 10 ^ Z.of_nat w -> int_of_digits (pad w n) = n.
Proof.
  induction w as [|w IH]; intros n Hn.
  - simpl in *. unfold int_of_digits. simpl. lia.
  - rewrite Nat2Z.inj_succ, Z.pow_succ_r in Hn by lia.
    simpl. rewrite int_of_digits_snoc, IH.
    + pose proof (Z.mod_pos_bound n 10 ltac:(lia)).
      rewrite Z2N.id by lia. pose proof (Z.div_mod n 10 ltac:(lia)). lia.
    + split; [apply Z.div_pos; lia|].
      apply Z.div_lt_upper_bound; lia.
Qed.

Lemma take_digits_pad w n rest :
  0 <= n < 10 ^ Z.of_nat w ->
  take_digits w (pad w n ++ rest) = Ok (n, rest).
Proof.
  intros Hn. unfold take_digits.
  assert (E1 : firstn w (pad w n ++ rest) = pad w n).
  { rewrite <- (pad_length w n) at 1. rewrite firstn_app, Nat.sub_diag.
    rewrite firstn_all. simpl. apply app_nil_r. }
  assert (E2 : skipn w (pad w n ++ rest) = rest).
  { rewrite <- (pad_length w n) at 1. rewrite skipn_app, Nat.sub_diag.
    rewrite skipn_all. reflexivity. }
  rewrite E1, E2, pad_length, Nat.eqb_refl, pad_digits, pad_value by exact Hn.
  reflexivity.
Qed.

(** ** The calendar *)

Lemma all_from_spec k f : forall lo,
  all_from k lo f = true ->
  forall r, lo <= r < lo + 2 ^ Z.of_nat k -> f r = true.
Proof.
  induction k as [|k IH]; intros lo H r Hr.
  - simpl in *. replace r with lo by lia. exact H.
  - simpl in H. apply andb_true_iff in H as [H1 H2].
    rewrite Nat2Z.inj_succ, Z.pow_succ_r in Hr by lia.
    destruct (Z.lt_ge_cases r (lo + 2 ^ Z.of_nat k)).
    + apply (IH lo H1). lia.
    + apply (IH _ H2). lia.
Qed.

Lemma div_eucl_eq a b : Z.div_eucl a b = (a / b, a mod b).
Proof. unfold Z.div, Z.modulo. destruct (Z.div_eucl a b). reflexivity. Qed.

Lemma month_day_checked n leapyear :
  0 <= n < 365 -> month_day_ok n leapyear = true.
Proof.
  assert (H : all_from 9 0
                (fun n => if 365 <=? n then true
                          else month_day_ok n true && month_day_ok n false)
              = true) by (vm_compute; reflexivity).
  intros Hn. pose proof (all_from_spec _ _ _ H n) as Hc. simpl in Hc.
  specialize (Hc ltac:(lia)).
  destruct (Z.leb_spec 365 n); [lia|].
  apply andb_true_iff in Hc. destruct leapyear; tauto.
Qed.

Lemma cycle_checked r : 0 <= r < 146097 -> cycle_ok r = true.
Proof.
  intros Hr. unfold cycle_ok, ord2ymd.
  replace (r + 1 - 1) with r by lia.
  rewrite !div_eucl_eq.
  rewrite (Z.div_small r 146097), (Z.mod_small r 146097) by lia.
  pose proof (Z.div_mod r 36524 ltac:(lia)) as E1.
  pose proof (Z.mod_pos_bound r 36524 ltac:(lia)) as B1.
  set (n100 := r / 36524) in *. set (r1 := r mod 36524) in *.
  pose proof (Z.div_mod r1 1461 ltac:(lia)) as E2.
  pose proof (Z.mod_pos_bound r1 1461 ltac:(lia)) as B2.
  set (n4 := r1 / 1461) in *. set (r2 := r1 mod 1461) in *.
  pose proof (Z.div_mod r2 365 ltac:(lia)) as E3.
  pose proof (Z.mod_pos_bound r2 365 ltac:(lia)) as B3.
  set (n1 := r2 / 365) in *. set (n := r2 mod 365) in *.
  clearbody n100 r1 n4 r2 n1 n.
  assert (H100 : 0 <= n100 <= 4) by lia.
  assert (H4 : 0 <= n4 <= 24) by lia.
  assert (H1 : 0 <= n1 <= 4) by lia.
  cbv zeta.
  destruct ((n1 =? 4) || (n100 =? 4)) eqn:Elast.
  - (* the last day of a leap year *)
    assert (Hy : exists y, 0 * 400 + 1 + n100 * 100 + n4 * 4 + n1 - 1 = y
                           /\ is_leap y = true
                           /\ days_before_year y + 366 = r + 1
                           /\ 1 <= y <= 400
                           /\ (145731 <= r \/ y <= 399)).
    { eexists. split; [reflexivity|].
      apply orb_true_iff in Elast.
      unfold is_leap, days_before_year.
      rewrite !Z.eqb_eq in Elast.
      rewrite andb_true_iff, orb_true_iff, negb_true_iff, Z.eqb_eq,
        Z.eqb_neq, Z.eqb_eq.
      Z.to_euclidean_division_equations. lia. }
    destruct Hy as (y & -> & Hleap & Hdays & Hyr & H399).
    unfold days_in_month, ymd2ord, days_before_month. rewrite Hleap.
    cbn [nth Z.to_nat DAYS_IN_MONTH DAYS_BEFORE_MONTH].
    rewrite !andb_true_iff, orb_true_iff, !Z.leb_le, Z.eqb_eq.
    simpl. lia.
  - apply orb_false_iff in Elast as [El1 El100].
    apply Z.eqb_neq in El1, El100.
    set (leapyear := (n1 =? 3) && (negb (n4 =? 24) || (n100 =? 3))).
    pose proof (month_day_checked n leapyear B3) as Hmd.
    unfold month_day_ok, month_day in Hmd. cbv zeta in Hmd.
    set (y := 0 * 400 + 1 + n100 * 100 + n4 * 4 + n1).
    assert (Hy : is_leap y = leapyear /\ days_before_year y = r - n
                 /\ 1 <= y <= 400 /\ (145731 <= r \/ y <= 399)).
    { subst y leapyear. unfold is_leap, days_before_year. split.
      - destruct (Z.eqb_spec n1 3), (Z.eqb_spec n4 24), (Z.eqb_spec n100 3);
          cbn [andb orb negb];
          rewrite ?andb_true_iff, ?andb_false_iff, ?orb_true_iff,
            ?orb_false_iff, ?negb_true_iff, ?negb_false_iff,
            ?Z.eqb_eq, ?Z.eqb_neq;
          Z.to_euclidean_division_equations; lia.
      - Z.to_euclidean_division_equations. lia. }
    destruct Hy as (Hleap & Hdays & Hyr & H399).
    match goal with
    | |- context [n <? ?p] => destruct (n <? p)
    end;
      unfold days_in_month, ymd2ord, days_before_month; rewrite Hleap, Hdays;
      rewrite !andb_true_iff, !Z.leb_le, Z.eqb_eq in Hmd;
      rewrite !andb_true_iff, orb_true_iff, !Z.leb_le, Z.eqb_eq; lia.
Qed.

Lemma is_leap_cycle a y : is_leap (400 * a + y) = is_leap y.
Proof.
  unfold is_leap.
  replace ((400 * a + y) mod 4) with (y mod 4)
    by (rewrite <- (Z.mod_add y (100 * a) 4) by lia; f_equal; lia).
  replace ((400 * a + y) mod 100) with (y mod 100)
    by (rewrite <- (Z.mod_add y (4 * a) 100) by lia; f_equal; lia).
  replace ((400 * a + y) mod 400) with (y mod 400)
    by (rewrite <- (Z.mod_add y a 400) by lia; f_equal; lia).
  reflexivity.
Qed.

Lemma days_before_year_cycle a y :
  days_before_year (400 * a + y) = 146097 * a + days_before_year y.
Proof.
  unfold days_before_year. cbv zeta.
  replace ((400 * a + y - 1) / 4) with (100 * a + (y - 1) / 4)
    by (rewrite <- (Z.div_add_l (100 * a) 4 (y - 1)) by lia; f_equal; lia).
  replace ((400 * a + y - 1) / 100) with (4 * a + (y - 1) / 100)
    by (rewrite <- (Z.div_add_l (4 * a) 100 (y - 1)) by lia; f_equal; lia).
  replace ((400 * a + y - 1) / 400) with (a + (y - 1) / 400)
    by (rewrite <- (Z.div_add_l a 400 (y - 1)) by lia; f_equal; lia).
  lia.
Qed.

Lemma ymd2ord_cycle a y m d :
  ymd2ord (400 * a + y) m d = 146097 * a + ymd2ord y m d.
Proof.
  unfold ymd2ord, days_before_month.
  rewrite days_before_year_cycle, is_leap_cycle. lia.
Qed.

Lemma days_in_month_cycle a y m :
  days_in_month (400 * a + y) m = days_in_month y m.
Proof. unfold days_in_month. rewrite is_leap_cycle. reflexivity. Qed.

Lemma ord2ymd_cycle a r :
  0 <= r < 146097 ->
  ord2ymd (146097 * a + r + 1)
  = let '(y, m, d) := ord2ymd (r + 1) in (400 * a + y, m, d).
Proof.
  intros Hr. unfold ord2ymd. cbv zeta.
  replace (146097 * a + r + 1 - 1) with (r + a * 146097) by lia.
  replace (r + 1 - 1) with r by lia.
  rewrite !div_eucl_eq.
  rewrite Z.div_add, Z.mod_add by lia.
  rewrite (Z.div_small r 146097), (Z.mod_small r 146097) by lia.
  set (n100 := r / 36524). set (n1' := r mod 36524).
  set (n4 := n1' / 1461). set (n2' := n1' mod 1461).
  set (n1 := n2' / 365). set (n := n2' mod 365).
  destruct ((n1 =? 4) || (n100 =? 4)); [f_equal; f_equal; lia|].
  set (leapyear := (n1 =? 3) && (negb (n4 =? 24) || (n100 =? 3))).
  set (month := Z.shiftr (n + 50) 5).
  match goal with |- context [n <? ?p] => destruct (n <? p) end;
    f_equal; f_equal; lia.
Qed.

Lemma ord2ymd_valid n :
  1 <= n <= 3652059 ->
  let '(y, m, d) := ord2ymd n in
  1 <= y <= 9999 /\ 1 <= m <= 12 /\ 1 <= d <= days_in_month y m
  /\ ymd2ord y m d = n.
Proof.
  intros Hn.
  pose proof (Z.div_mod (n - 1) 146097 ltac:(lia)) as E.
  pose proof (Z.mod_pos_bound (n - 1) 146097 ltac:(lia)) as Hr.
  set (a := (n - 1) / 146097) in *. set (r := (n - 1) mod 146097) in *.
  assert (Ha : 0 <= a < 25).
  { split; [apply Z.div_pos; lia|]. apply Z.div_lt_upper_bound; lia. }
  replace n with (146097 * a + r + 1) by lia.
  rewrite ord2ymd_cycle by lia.
  pose proof (cycle_checked r Hr) as Hc. unfold cycle_ok in Hc.
  destruct (ord2ymd (r + 1)) as [[y m] d].
  rewrite !andb_true_iff, orb_true_iff, !Z.leb_le, Z.eqb_eq in Hc.
  destruct Hc as (((((((H1 & H2) & H3) & H4) & H5) & H6) & H7) & H8).
  rewrite days_in_month_cycle, ymd2ord_cycle. lia.
Qed.

(** ** Timestamps in JSON *)

Lemma datetime_fields t :
  datetime_ok t = true ->
  let '(y, m, d) := date_of t in
  1 <= y <= 9999 /\ 1 <= m <= 12 /\ 1 <= d <= days_in_month y m
  /\ 0 <= hour_of t < 24 /\ 0 <= minute_of t < 60 /\ 0 <= second_of t < 60
  /\ 0 <= microsecond_of t < 1000000
  /\ datetime_of y m d (hour_of t) (minute_of t) (second_of t)
       (microsecond_of t) = t.
Proof.
  unfold datetime_ok, datetime_end. rewrite andb_true_iff, Z.leb_le, Z.ltb_lt.
  intros Ht. unfold date_of.
  assert (Hd : 1 <= t / US_PER_DAY + 1 <= 3652059).
  { unfold US_PER_DAY, US_PER_SECOND.
    split; [pose proof (Z.div_pos t (86400 * 1000000)); lia|].
    assert (t / (86400 * 1000000) < 3652059)
      by (apply Z.div_lt_upper_bound; lia).
    lia. }
  pose proof (ord2ymd_valid _ Hd) as Hv.
  destruct (ord2ymd (t / US_PER_DAY + 1)) as [[y m] d].
  destruct Hv as (Hy & Hm & Hdd & Ho).
  repeat (split; [assumption|]).
  unfold datetime_of. rewrite Ho.
  unfold hour_of, minute_of, second_of, microsecond_of, US_PER_DAY,
    US_PER_SECOND in *.
  Z.to_euclidean_division_equations. lia.
Qed.

Lemma expect_cons c rest : expect c (c :: rest) = Ok rest.
Proof. simpl. rewrite N.eqb_refl. reflexivity. Qed.

Lemma days_in_month_le y m : 1 <= m <= 12 -> days_in_month y m <= 31.
Proof.
  intros Hm. unfold days_in_month.
  destruct ((m =? 2) && is_leap y); [lia|].
  assert (Hc : m = 1 \/ m = 2 \/ m = 3 \/ m = 4 \/ m = 5 \/ m = 6 \/ m = 7
               \/ m = 8 \/ m = 9 \/ m = 10 \/ m = 11 \/ m = 12) by lia.
  repeat (destruct Hc as [->|Hc]; [simpl; lia|]). subst m. simpl. lia.
Qed.

Ltac pad_bound :=
  match goal with
  | |- _ <= _ < 10 ^ Z.of_nat ?w =>
      let v := eval vm_compute in (10 ^ Z.of_nat w) in
      change (10 ^ Z.of_nat w) with v; lia
  end.

Lemma fromisoformat_isoformat t :
  datetime_ok t = true -> datetime_fromisoformat (isoformat t) = Ok t.
Proof.
  intros Ht. pose proof (datetime_fields t Ht) as H.
  unfold isoformat. destruct (date_of t) as [[y m] d].
  destruct H as (Hy & Hm & Hd & Hh & Hmi & Hs & Hus & E).
  pose proof (days_in_month_le y m Hm) as Hd31.
  unfold datetime_fromisoformat.
  change (lit "-") with [DASH]. change (lit "T") with [84%N].
  change (lit ":") with [COLON]. change (lit ".") with [DOT].
  cbn [app].
  rewrite take_digits_pad by pad_bound. cbn [bind fst snd].
  rewrite expect_cons. cbn [bind fst snd].
  rewrite take_digits_pad by pad_bound. cbn [bind fst snd].
  rewrite expect_cons. cbn [bind fst snd].
  rewrite take_digits_pad by pad_bound. cbn [bind fst snd].
  rewrite expect_cons. cbn [bind fst snd].
  rewrite take_digits_pad by pad_bound. cbn [bind fst snd].
  rewrite expect_cons. cbn [bind fst snd].
  rewrite take_digits_pad by pad_bound. cbn [bind fst snd].
  rewrite expect_cons. cbn [bind fst snd].
  rewrite take_digits_pad by pad_bound. cbn [bind fst snd].
  assert (Hchk : (1 <=? y) && (1 <=? m) && (m <=? 12) && (1 <=? d)
                 && (d <=? days_in_month y m) && (hour_of t <? 24)
                 && (minute_of t <? 60) && (second_of t <? 60) = true).
  { rewrite !andb_true_iff, !Z.leb_le, !Z.ltb_lt. lia. }
  destruct (Z.eqb_spec (microsecond_of t) 0) as [E0|E0].
  - cbn [bind fst snd truthy]. rewrite Hchk, <- E0. rewrite E. reflexivity.
  - cbn [app]. rewrite N.eqb_refl.
    rewrite <- (app_nil_r (pad 6 (microsecond_of t))).
    rewrite take_digits_pad by pad_bound. cbn [bind fst snd truthy].
    rewrite Hchk, E. reflexivity.
Qed.

(** ** JSON strings *)

Lemma unhex_hex_digit k : (k < 16)%N -> unhex (hex_digit k) = Some k.
Proof.
  intros Hk. unfold hex_digit, unhex.
  destruct (N.ltb_spec k 10).
  - replace ((48 <=? 48 + k) && (48 + k <=? 57))%N with true
      by (symmetry; apply andb_true_iff; split; apply N.leb_le; lia).
    f_equal. lia.
  - replace ((48 <=? 87 + k) && (87 + k <=? 57))%N with false
      by (symmetry; apply andb_false_iff; right; apply N.leb_gt; lia).
    replace ((97 <=? 87 + k) && (87 + k <=? 102))%N with true
      by (symmetry; apply andb_true_iff; split; apply N.leb_le; lia).
    f_equal. lia.
Qed.

Lemma unhex4_hex4 n :
  (n < 65536)%N ->
  unhex4 (hex_digit (N.shiftr n 12 mod 16)) (hex_digit (N.shiftr n 8 mod 16))
    (hex_digit (N.shiftr n 4 mod 16)) (hex_digit (n mod 16)) = Some n.
Proof.
  intros Hn. unfold unhex4.
  rewrite !unhex_hex_digit by (apply N.mod_lt; lia).
  f_equal. rewrite !N.shiftr_div_pow2.
  change (2 ^ 12)%N with 4096%N. change (2 ^ 8)%N with 256%N.
  change (2 ^ 4)%N with 16%N.
  zify. Z.to_euclidean_division_equations. lia.
Qed.

Lemma lor_disjoint a b k :
  (a mod 2 ^ k = 0)%N -> (b < 2 ^ k)%N -> N.lor a b = (a + b)%N.
Proof.
  intros Ha Hb.
  assert (Hand : N.land a b = 0%N).
  { apply N.bits_inj. intros i. rewrite N.land_spec, N.bits_0.
    destruct (N.lt_ge_cases i k) as [Hi|Hi].
    - rewrite <- (N.mod_pow2_bits_low a k i Hi), Ha, N.bits_0. reflexivity.
    - replace (N.testbit b i) with false; [apply andb_false_r|].
      symmetry. rewrite <- (N.mod_small b (2 ^ k) Hb).
      apply N.mod_pow2_bits_high. exact Hi. }
  rewrite <- N.lxor_lor by exact Hand.
  symmetry. apply N.add_nocarry_lxor. exact Hand.
Qed.

Lemma high_surrogate_of n :
  (n < 1048576)%N ->
  let s1 := N.lor 55296 (N.land (N.shiftr n 10) 1023) in
  let s2 := N.lor 56320 (N.land n 1023) in
  (s1 < 65536)%N /\ (s2 < 65536)%N
  /\ is_high_surrogate s1 = true /\ is_low_surrogate s2 = true
  /\ (65536 + N.lor (N.shiftl (s1 - 55296) 10) (s2 - 56320) = 65536 + n)%N.
Proof.
  intros Hn. cbv zeta.
  change 1023%N with (N.ones 10). rewrite !N.land_ones.
  rewrite N.shiftr_div_pow2. change (2 ^ 10)%N with 1024%N.
  assert (Hhi : (n / 1024 mod 1024 < 1024)%N) by (apply N.mod_lt; lia).
  assert (Hlo : (n mod 1024 < 1024)%N) by (apply N.mod_lt; lia).
  rewrite (lor_disjoint 55296 (n / 1024 mod 1024) 10 eq_refl Hhi).
  rewrite (lor_disjoint 56320 (n mod 1024) 10 eq_refl Hlo).
  rewrite !N.add_sub_swap, !N.sub_diag, !N.add_0_l by lia.
  rewrite N.shiftl_mul_pow2.
  rewrite (lor_disjoint _ _ 10 (N.Div0.mod_mul _ _) Hlo).
  change (2 ^ 10)%N with 1024%N.
  unfold is_high_surrogate, is_low_surrogate.
  rewrite !andb_true_iff, !N.leb_le.
  zify. Z.to_euclidean_division_equations. lia.
Qed.

Lemma scanstring_plain c rest acc :
  c <> QUOTE -> c <> BACKSLASH -> (32 <= c)%N ->
  scanstring (c :: rest) acc = scanstring rest (c :: acc).
Proof.
  intros H1 H2 H3. cbn [scanstring].
  rewrite (proj2 (N.eqb_neq _ _) H1), (proj2 (N.eqb_neq _ _) H2).
  rewrite (proj2 (N.ltb_ge _ _) H3). reflexivity.
Qed.

Lemma scanstring_u4 n rest acc :
  (n < 65536)%N -> is_high_surrogate n = false ->
  scanstring (BACKSLASH :: 117%N :: hex4 n ++ rest) acc
  = scanstring rest (n :: acc).
Proof.
  intros Hn Hs. unfold hex4. cbn [scanstring app].
  change (BACKSLASH =? QUOTE)%N with false.
  change (BACKSLASH =? BACKSLASH)%N with true.
  change (117 =? 117)%N with true. cbv iota.
  rewrite unhex4_hex4 by exact Hn. rewrite Hs. cbn [andb].
  destruct rest as [|? [|? [|? [|? [|? [|? ?]]]]]]; reflexivity.
Qed.

Lemma scanstring_pair n rest acc :
  (n < 1048576)%N ->
  scanstring
    (BACKSLASH :: 117%N :: hex4 (N.lor 55296 (N.land (N.shiftr n 10) 1023))
     ++ BACKSLASH :: 117%N :: hex4 (N.lor 56320 (N.land n 1023)) ++ rest) acc
  = scanstring rest ((65536 + n)%N :: acc).
Proof.
  intros Hn. destruct (high_surrogate_of n Hn) as (H1 & H2 & H3 & H4 & H5).
  cbv zeta in *.
  set (s1 := N.lor 55296 (N.land (N.shiftr n 10) 1023)) in *.
  set (s2 := N.lor 56320 (N.land n 1023)) in *.
  unfold hex4. cbn [scanstring app].
  change (BACKSLASH =? QUOTE)%N with false.
  change (BACKSLASH =? BACKSLASH)%N with true.
  change (117 =? 117)%N with true. cbv iota.
  rewrite (unhex4_hex4 s1 H1), H3. cbn [andb]. cbv iota.
  rewrite (unhex4_hex4 s2 H2), H4, H5. reflexivity.
Qed.

Lemma lone_ok_plain b u (tl : str) :
  ((b =? BACKSLASH) && (u =? 117))%N = false -> lone_ok (b :: u :: tl) = true.
Proof.
  intros H. destruct tl as [|g1 [|g2 [|g3 [|g4 tl]]]]; try reflexivity.
  cbn [lone_ok]. rewrite H. reflexivity.
Qed.

Lemma lone_ok_head b (tl : str) :
  (b =? BACKSLASH)%N = false -> lone_ok (b :: tl) = true.
Proof.
  intros H. destruct tl as [|u tl]; [reflexivity|].
  apply lone_ok_plain. rewrite H. reflexivity.
Qed.

Lemma scanstring_u4_lone n rest acc :
  (n < 65536)%N -> lone_ok rest = true ->
  scanstring (BACKSLASH :: 117%N :: hex4 n ++ rest) acc
  = scanstring rest (n :: acc).
Proof.
  intros Hn Hl. unfold hex4. cbn [scanstring app].
  change (BACKSLASH =? QUOTE)%N with false.
  change (BACKSLASH =? BACKSLASH)%N with true.
  change (117 =? 117)%N with true. cbv iota.
  rewrite unhex4_hex4 by exact Hn.
  destruct rest as [|b [|u [|g1 [|g2 [|g3 [|g4 r3]]]]]]; try reflexivity.
  cbn [lone_ok] in Hl.
  destruct (is_high_surrogate n); [|reflexivity]. cbn [andb].
  destruct ((b =? BACKSLASH) && (u =? 117))%N; [|reflexivity].
  destruct (unhex4 g1 g2 g3 g4) as [m|]; [|discriminate Hl].
  destruct (is_low_surrogate m); [discriminate Hl | reflexivity].
Qed.

Lemma surrogates_apart n :
  is_high_surrogate n = true -> is_low_surrogate n = false.
Proof.
  unfold is_high_surrogate, is_low_surrogate.
  rewrite andb_true_iff, andb_false_iff, !N.leb_le, !N.leb_gt. lia.
Qed.

(** The escape of a character that is no low surrogate may follow a high
    surrogate that stands alone. *)
Lemma escape_lone_ok c (tail : str) :
  (c <=? 1114111)%N = true -> is_low_surrogate c = false ->
  lone_ok (escape_char c ++ tail) = true.
Proof.
  intros Hc Hlow. apply N.leb_le in Hc. unfold escape_char.
  destruct (N.eqb_spec c 34) as [->|N1]; [apply lone_ok_plain; reflexivity|].
  destruct (N.eqb_spec c 92) as [->|N2]; [apply lone_ok_plain; reflexivity|].
  destruct (N.eqb_spec c 10) as [->|N3]; [apply lone_ok_plain; reflexivity|].
  destruct (N.eqb_spec c 13) as [->|N4]; [apply lone_ok_plain; reflexivity|].
  destruct (N.eqb_spec c 9) as [->|N5]; [apply lone_ok_plain; reflexivity|].
  destruct (N.eqb_spec c 8) as [->|N6]; [apply lone_ok_plain; reflexivity|].
  destruct (N.eqb_spec c 12) as [->|N7]; [apply lone_ok_plain; reflexivity|].
  destruct ((32 <=? c) && (c <=? 126))%N eqn:E.
  { cbn [app]. apply lone_ok_head. apply N.eqb_neq. exact N2. }
  destruct (N.ltb_spec c 65536) as [L|L].
  - unfold hex4. cbn [lit list_ascii_of_string map app lone_ok].
    change (N_of_ascii "u") with 117%N.
    change (BACKSLASH =? BACKSLASH)%N with true.
    change (117 =? 117)%N with true. cbn [andb].
    rewrite unhex4_hex4 by exact L. rewrite Hlow. reflexivity.
  - assert (Hn : (c - 65536 < 1048576)%N) by lia.
    destruct (high_surrogate_of (c - 65536) Hn) as (H1 & _ & H3 & _).
    cbv zeta in *.
    set (s1 := N.lor 55296 (N.land (N.shiftr (c - 65536) 10) 1023)) in *.
    unfold hex4 at 1. cbn [lit list_ascii_of_string map app lone_ok].
    change (N_of_ascii "u") with 117%N.
    change (BACKSLASH =? BACKSLASH)%N with true.
    change (117 =? 117)%N with true. cbn [andb].
    rewrite unhex4_hex4 by exact H1.
    rewrite (surrogates_apart s1 H3). reflexivity.
Qed.

(** An escaped character is read back; a high surrogate, when what follows
    is not the escape of a low surrogate. *)
Lemma scanstring_escape c rest acc :
  (c <=? 1114111)%N = true ->
  (is_high_surrogate c = true -> lone_ok rest = true) ->
  scanstring (escape_char c ++ rest) acc = scanstring rest (c :: acc).
Proof.
  intros Hc Hlone. apply N.leb_le in Hc. unfold escape_char.
  destruct (N.eqb_spec c 34) as [->|N1]; [reflexivity|].
  destruct (N.eqb_spec c 92) as [->|N2]; [reflexivity|].
  destruct (N.eqb_spec c 10) as [->|N3]; [reflexivity|].
  destruct (N.eqb_spec c 13) as [->|N4]; [reflexivity|].
  destruct (N.eqb_spec c 9) as [->|N5]; [reflexivity|].
  destruct (N.eqb_spec c 8) as [->|N6]; [reflexivity|].
  destruct (N.eqb_spec c 12) as [->|N7]; [reflexivity|].
  destruct ((32 <=? c) && (c <=? 126))%N eqn:E.
  { apply andb_true_iff in E as [E _]. apply N.leb_le in E.
    apply scanstring_plain; assumption. }
  destruct (N.ltb_spec c 65536) as [L|L].
  - change (BACKSLASH :: lit "u" ++ hex4 c)
      with (BACKSLASH :: 117%N :: hex4 c).
    cbn [app]. destruct (is_high_surrogate c) eqn:Eh.
    + apply scanstring_u4_lone; [exact L | apply Hlone; reflexivity].
    + apply scanstring_u4; [exact L | exact Eh].
  - assert (Hn : (c - 65536 < 1048576)%N) by lia.
    cbv zeta.
    replace (c :: acc) with ((65536 + (c - 65536))%N :: acc)
      by (f_equal; lia).
    rewrite <- (scanstring_pair (c - 65536) rest acc Hn).
    reflexivity.
Qed.

Lemma scanstring_encode s : forall rest acc,
  storable s ->
  scanstring (flat_map escape_char s ++ QUOTE :: rest) acc
  = Ok (rev acc ++ s, rest).
Proof.
  induction s as [|c s IH]; intros rest acc [Hs Hp].
  - cbn [flat_map app scanstring]. rewrite N.eqb_refl, app_nil_r. reflexivity.
  - inversion Hs as [|c0 s0 Hc Hs']; subst.
    cbn [has_surrogate_pair] in Hp. apply orb_false_iff in Hp as [Hcp Hp'].
    cbn [flat_map]. rewrite <- app_assoc.
    rewrite scanstring_escape; [ | exact Hc | ].
    + rewrite IH by (split; assumption).
      cbn [rev]. rewrite <- app_assoc. reflexivity.
    + intros Hh. destruct s as [|c' s'].
      * cbn [flat_map app]. apply lone_ok_head. reflexivity.
      * cbn [flat_map]. rewrite <- app_assoc.
        inversion Hs' as [|c1 s1 Hc' _]; subst.
        apply escape_lone_ok; [exact Hc'|].
        rewrite Hh in Hcp. exact Hcp.
Qed.

Lemma unicode_storable s : unicode_text s -> storable s.
Proof.
  intros H. split.
  - eapply List.Forall_impl; [|exact H]. intros c Hc. unfold is_scalar in Hc.
    rewrite orb_true_iff, andb_true_iff, N.ltb_lt, !N.leb_le in Hc.
    apply N.leb_le. lia.
  - induction H as [|c s Hc Hs IH]; [reflexivity|].
    cbn [has_surrogate_pair]. rewrite IH, orb_false_r.
    destruct s as [|b s]; [reflexivity|].
    replace (is_high_surrogate c) with false; [reflexivity|].
    symmetry. unfold is_scalar in Hc. unfold is_high_surrogate.
    rewrite orb_true_iff, andb_true_iff, N.ltb_lt, !N.leb_le in Hc.
    rewrite andb_false_iff, !N.leb_gt. lia.
Qed.

(** ** JSON integers *)

Lemma udigits_fold d : forall acc,
  fold_left digit_step (udigits d) (Z.pos acc) = Z.pos (Pos.of_uint_acc d acc).
Proof.
  unfold udigits.
  induction d as [|d IH|d IH|d IH|d IH|d IH|d IH|d IH|d IH|d IH|d IH];
    intros acc; [reflexivity|..];
    cbn [NilEmpty.string_of_uint Pos.of_uint_acc];
    change (lit (String ?a ?s)) with (N_of_ascii a :: lit s);
    cbn [fold_left]; rewrite <- IH; f_equal;
    unfold digit_step; simpl N_of_ascii; lia.
Qed.

Lemma udigits_value d : int_of_digits (udigits d) = Z.of_N (Pos.of_uint d).
Proof.
  unfold int_of_digits. change (fun acc d => acc * 10 + (Z.of_N d - 48))
    with digit_step.
  induction d as [|d IH|d IH|d IH|d IH|d IH|d IH|d IH|d IH|d IH|d IH];
    [reflexivity | exact IH | ..];
    unfold udigits; cbn [NilEmpty.string_of_uint Pos.of_uint];
    change (lit (String ?a ?s)) with (N_of_ascii a :: lit s);
    cbn [fold_left]; apply (udigits_fold d).
Qed.

Lemma udigits_digits d : forallb is_ascii_digit (udigits d) = true.
Proof.
  unfold udigits.
  induction d as [|d IH|d IH|d IH|d IH|d IH|d IH|d IH|d IH|d IH|d IH];
    [reflexivity|..];
    cbn [NilEmpty.string_of_uint];
    change (lit (String ?a ?s)) with (N_of_ascii a :: lit s);
    cbn [forallb]; rewrite IH; reflexivity.
Qed.

(** The decimal digits of a positive number start with a digit that is not
    zero. *)
Lemma to_uint_head p :
  exists c ds,
    udigits (Pos.to_uint p) = c :: ds
    /\ is_ascii_digit c = true /\ c <> 48%N.
Proof.
  pose proof (DecimalPos.Unsigned.to_of (Pos.to_uint p)) as E.
  rewrite DecimalPos.Unsigned.of_to in E. cbn [N.to_uint] in E.
  pose proof (DecimalPos.Unsigned.to_uint_nonzero p) as Hz.
  pose proof (DecimalPos.Unsigned.to_uint_nonnil p) as Hn.
  destruct (Pos.to_uint p) as [|d|d|d|d|d|d|d|d|d|d] eqn:Ed;
    [contradiction | | ..];
    try (unfold udigits; cbn [NilEmpty.string_of_uint];
         change (lit (String ?a ?s)) with (N_of_ascii a :: lit s);
         eexists; eexists; split; [reflexivity|];
         split; [reflexivity | discriminate]).
  exfalso. destruct (Decimal.uint_eq_dec (Decimal.nzhead (Decimal.D0 d)) Decimal.Nil) as [Hnil|Hnil].
  - apply DecimalFacts.unorm_0 in Hnil. congruence.
  - rewrite (DecimalFacts.unorm_nzhead _ Hnil) in E.
    symmetry in E. apply DecimalFacts.nzhead_nonzero in E. exact E.
Qed.

Lemma str_of_int_pos p : str_of_int (Z.pos p) = udigits (Pos.to_uint p).
Proof.
  unfold str_of_int, udigits. cbn [Z.to_int NilZero.string_of_int].
  unfold NilZero.string_of_uint.
  pose proof (DecimalPos.Unsigned.to_uint_nonnil p).
  destruct (Pos.to_uint p); [contradiction | reflexivity..].
Qed.

Lemma str_of_int_neg p :
  str_of_int (Z.neg p) = DASH :: udigits (Pos.to_uint p).
Proof.
  unfold str_of_int, udigits. cbn [Z.to_int NilZero.string_of_int].
  unfold NilZero.string_of_uint.
  pose proof (DecimalPos.Unsigned.to_uint_nonnil p).
  destruct (Pos.to_uint p); [contradiction | reflexivity..].
Qed.

Lemma span_digits_app ds rest :
  forallb is_ascii_digit ds = true ->
  head_not is_ascii_digit rest ->
  span_digits (ds ++ rest) = (ds, rest).
Proof.
  intros Hds Hrest. induction ds as [|c ds IH].
  - destruct rest as [|c rest]; [reflexivity|].
    cbn [head_not] in Hrest. cbn [app span_digits].
    rewrite Hrest. reflexivity.
  - cbn [forallb] in Hds. apply andb_true_iff in Hds as [Hc Hds].
    cbn [app span_digits]. rewrite Hc, (IH Hds). reflexivity.
Qed.

Lemma digit_bounds c : is_ascii_digit c = true -> (48 <= c <= 57)%N.
Proof.
  unfold is_ascii_digit. rewrite andb_true_iff, !N.leb_le. tauto.
Qed.

Lemma value_end_not_digit rest : value_end rest -> head_not is_ascii_digit rest.
Proof.
  destruct rest as [|c rest]; [trivial|]. intros [->| ->]; reflexivity.
Qed.

Lemma span_frac_end rest : value_end rest -> span_frac rest = ([], rest).
Proof.
  destruct rest as [|c rest]; [reflexivity|]. intros [->| ->]; reflexivity.
Qed.

Lemma span_exp_end rest : value_end rest -> span_exp rest = ([], rest).
Proof.
  destruct rest as [|c rest]; [reflexivity|]. intros [->| ->]; reflexivity.
Qed.

Lemma span_integer_digits c ds rest :
  is_ascii_digit c = true -> c <> 48%N ->
  forallb is_ascii_digit ds = true -> value_end rest ->
  span_integer (c :: ds ++ rest) = Some (false, c :: ds, rest)
  /\ span_integer (DASH :: c :: ds ++ rest) = Some (true, c :: ds, rest).
Proof.
  intros Hc Hz Hds Hrest. pose proof (digit_bounds c Hc) as Hb.
  unfold span_integer.
  assert (E1 : (c =? DASH)%N = false) by (apply N.eqb_neq; unfold DASH; lia).
  assert (E2 : (c =? 48)%N = false) by (apply N.eqb_neq; exact Hz).
  rewrite E1, N.eqb_refl, E2, Hc.
  rewrite (span_digits_app ds rest Hds (value_end_not_digit rest Hrest)).
  split; reflexivity.
Qed.

Lemma scan_number_int z rest :
  value_end rest -> scan_number (str_of_int z ++ rest) = Ok (JInt z, rest).
Proof.
  intros Hrest. destruct z as [|p|p].
  - change (str_of_int 0) with [48%N]. unfold scan_number. cbn [app].
    change (span_integer (48%N :: rest)) with (Some (false, [48%N], rest)).
    cbv iota beta.
    rewrite span_frac_end, span_exp_end by exact Hrest. reflexivity.
  - rewrite str_of_int_pos.
    destruct (to_uint_head p) as (c & ds & E & Hc & Hz).
    pose proof (udigits_digits (Pos.to_uint p)) as Hall.
    pose proof (udigits_value (Pos.to_uint p)) as Hv.
    rewrite DecimalPos.Unsigned.of_to in Hv.
    rewrite E in *. cbn [forallb] in Hall.
    apply andb_true_iff in Hall as [_ Hds].
    unfold scan_number. cbn [app].
    rewrite (proj1 (span_integer_digits c ds rest Hc Hz Hds Hrest)).
    cbv iota beta.
    rewrite span_frac_end, span_exp_end by exact Hrest.
    rewrite Hv. reflexivity.
  - rewrite str_of_int_neg.
    destruct (to_uint_head p) as (c & ds & E & Hc & Hz).
    pose proof (udigits_digits (Pos.to_uint p)) as Hall.
    pose proof (udigits_value (Pos.to_uint p)) as Hv.
    rewrite DecimalPos.Unsigned.of_to in Hv.
    rewrite E in *. cbn [forallb] in Hall.
    apply andb_true_iff in Hall as [_ Hds].
    unfold scan_number. cbn [app].
    rewrite (proj2 (span_integer_digits c ds rest Hc Hz Hds Hrest)).
    cbv iota beta.
    rewrite span_frac_end, span_exp_end by exact Hrest.
    rewrite Hv. reflexivity.
Qed.

Lemma strip_prefix_mismatch a p c s :
  a <> c -> strip_prefix (a :: p) (c :: s) = None.
Proof. intros H. cbn [strip_prefix]. rewrite (proj2 (N.eqb_neq _ _) H). reflexivity. Qed.

Ltac literal s :=
  let v := eval vm_compute in (lit s) in change (lit s) with v.

(** A text that starts like a number is read as a number. *)
Lemma scan_once_number fuel c s :
  is_ascii_digit c = true
  \/ (c = DASH /\ exists d s', s = d :: s' /\ is_ascii_digit d = true) ->
  scan_once (S fuel) (c :: s) = scan_number (c :: s).
Proof.
  intros H. cbn [scan_once].
  literal "null"%string. literal "true"%string. literal "false"%string.
  literal "NaN"%string. literal "Infinity"%string.
  literal "-Infinity"%string.
  destruct H as [Hc | (-> & d & s' & -> & Hd)].
  - pose proof (digit_bounds c Hc) as Hb.
    rewrite !strip_prefix_mismatch by lia.
    destruct (N.eqb_spec c QUOTE) as [E|_]; [unfold QUOTE in E; lia|].
    destruct (N.eqb_spec c 123) as [E|_]; [lia|].
    destruct (N.eqb_spec c 91) as [E|_]; [lia|].
    reflexivity.
  - pose proof (digit_bounds d Hd) as Hb.
    rewrite !strip_prefix_mismatch by (unfold DASH; lia).
    change (strip_prefix (45 :: ?p) (DASH :: ?x))%N with (strip_prefix p x).
    rewrite strip_prefix_mismatch by lia.
    reflexivity.
Qed.

Lemma scan_once_int fuel z rest :
  value_end rest ->
  scan_once (S fuel) (str_of_int z ++ rest) = Ok (JInt z, rest).
Proof.
  intros Hrest. rewrite <- (scan_number_int z rest Hrest).
  destruct z as [|p|p].
  - change (str_of_int 0) with [48%N]. cbn [app].
    apply scan_once_number. left. reflexivity.
  - rewrite str_of_int_pos.
    destruct (to_uint_head p) as (c & ds & -> & Hc & _). cbn [app].
    apply scan_once_number. left. exact Hc.
  - rewrite str_of_int_neg.
    destruct (to_uint_head p) as (c & ds & -> & Hc & _). cbn [app].
    apply scan_once_number. right. split; [reflexivity|]. eauto.
Qed.

(** ** JSON documents *)

Lemma json_ok_list items :
  json_ok (JList items) <-> Forall json_ok items.
Proof.
  cbn [json_ok]. induction items as [|x items IH].
  - split; [constructor | trivial].
  - rewrite IH. split.
    + intros [H1 H2]. constructor; assumption.
    + intros H. inversion H; subst. split; assumption.
Qed.

Lemma json_ok_dict items :
  json_ok (JDict items)
  <-> Forall (fun kv => storable (fst kv) /\ json_ok (snd kv)) items
      /\ List.NoDup (map fst items).
Proof.
  cbn [json_ok].
  assert (E : forall l,
    (fix all (l : list (str * json)) : Prop :=
       match l with
       | [] => True
       | kv :: rest => (storable (fst kv) /\ json_ok (snd kv)) /\ all rest
       end) l
    <-> Forall (fun kv => storable (fst kv) /\ json_ok (snd kv)) l).
  { induction l as [|kv l IH].
    - split; [constructor | trivial].
    - rewrite IH. split.
      + intros [H1 H2]. constructor; assumption.
      + intros H. inversion H; subst. split; assumption. }
  rewrite E. reflexivity.
Qed.

(** Induction on documents, with the hypothesis for every item. *)
Lemma json_nested_ind (P : json -> Prop) :
  P JNull -> (forall b, P (JBool b)) -> (forall n, P (JInt n)) ->
  (forall l, P (JFloat l)) -> (forall s, P (JStr s)) ->
  (forall items, Forall P items -> P (JList items)) ->
  (forall items, Forall (fun kv => P (snd kv)) items -> P (JDict items)) ->
  forall v, P v.
Proof.
  intros Hnull Hbool Hint Hfloat Hstr Hlist Hdict.
  fix IH 1. intros [ | b | n | l | s | items | items ].
  - exact Hnull.
  - apply Hbool.
  - apply Hint.
  - apply Hfloat.
  - apply Hstr.
  - apply Hlist. induction items as [|x items IHl]; constructor;
      [apply IH | exact IHl].
  - apply Hdict. induction items as [|kv items IHl]; constructor;
      [apply IH | exact IHl].
Qed.

Lemma skip_ws_fix s : head_not is_json_ws s -> skip_ws s = s.
Proof. apply dropwhile_fix. Qed.

Lemma skip_ws_spaces n s : skip_ws (repeat SPACE n ++ s) = skip_ws s.
Proof. induction n as [|n IH]; [reflexivity | exact IH]. Qed.

Lemma skip_ws_indent level s : skip_ws (newline_indent level ++ s) = skip_ws s.
Proof. unfold newline_indent. cbn [app]. apply (skip_ws_spaces (2 * level) s). Qed.

Lemma dumps_list_cons level x xs :
  dumps_at level (JList (x :: xs))
  = lit "[" ++ newline_indent (S level)
    ++ join_with (COMMA :: newline_indent (S level))
         (map (dumps_at (S level)) (x :: xs))
    ++ newline_indent level ++ lit "]".
Proof. reflexivity. Qed.

Lemma dumps_dict_cons level kv kvs :
  dumps_at level (JDict (kv :: kvs))
  = lit "{" ++ newline_indent (S level)
    ++ join_with (COMMA :: newline_indent (S level))
         (map (fun kv => encode_basestring_ascii (fst kv) ++ lit ": "
                         ++ dumps_at (S level) (snd kv)) (kv :: kvs))
    ++ newline_indent level ++ lit "}".
Proof. reflexivity. Qed.

Lemma str_of_int_head z :
  exists c r, str_of_int z = c :: r
              /\ (is_ascii_digit c = true \/ c = DASH).
Proof.
  destruct z as [|p|p].
  - exists 48%N, []. split; [reflexivity | left; reflexivity].
  - rewrite str_of_int_pos. destruct (to_uint_head p) as (c & ds & -> & Hc & _).
    eauto.
  - rewrite str_of_int_neg. eauto.
Qed.

Lemma dumps_opens level v : json_ok v -> opens_value (dumps_at level v).
Proof.
  destruct v as [ | [|] | n | l | s | [|x xs] | [|kv kvs] ];
    try (intros _; cbn; repeat split; discriminate).
  - intros _. cbn [dumps_at].
    destruct (str_of_int_head n) as (c & r & -> & [Hc| ->]).
    + pose proof (digit_bounds c Hc). cbn. unfold is_json_ws.
      repeat split; try lia.
      rewrite !orb_false_iff. repeat split; apply N.eqb_neq; lia.
    + cbn. repeat split; discriminate.
  - intros [].
Qed.

Lemma join_with_continued {A} (f : A -> str) sep xs : forall x closing,
  join_with sep (map f (x :: xs)) ++ closing
  = f x ++ continued f sep xs closing.
Proof.
  induction xs as [|y ys IH]; intros x closing; [reflexivity|].
  change (join_with sep (map f (x :: y :: ys)))
    with (f x ++ sep ++ join_with sep (map f (y :: ys))).
  rewrite <- !app_assoc. rewrite IH. reflexivity.
Qed.

Lemma value_end_continued {A} (f : A -> str) level xs rest :
  value_end (continued f (COMMA :: newline_indent (S level)) xs
               (newline_indent level ++ rest)).
Proof. destruct xs; cbn; [right | left]; reflexivity. Qed.

Lemma sum_cons a l : list_sum (a :: l) = (a + list_sum l)%nat.
Proof. reflexivity. Qed.

Lemma array_loop_reads level rest xs : forall x acc fuel,
  Forall reads_back (x :: xs) -> Forall json_ok (x :: xs) ->
  (list_sum (map (fun x => S (json_size x)) (x :: xs)) <= fuel)%nat ->
  array_loop fuel
    (dumps_at (S level) x
     ++ continued (dumps_at (S level)) (COMMA :: newline_indent (S level)) xs
          (newline_indent level ++ 93%N :: rest)) acc
  = Ok (JList (rev acc ++ x :: xs), rest).
Proof.
  induction xs as [|y ys IH]; intros x acc fuel Hrb Hok Hfuel;
    inversion Hrb as [|? ? Hx Hrb']; inversion Hok as [|? ? Hokx Hok']; subst;
    cbn [map] in Hfuel; rewrite sum_cons in Hfuel;
    (destruct fuel as [|fuel]; [lia|]); cbn [array_loop].
  - rewrite Hx; [ | apply (value_end_continued (dumps_at (S level)) level [] _)
                  | cbn in Hfuel; lia ].
    cbn [bind fst snd continued]. rewrite skip_ws_indent.
    cbn. reflexivity.
  - rewrite Hx;
      [ | apply (value_end_continued (dumps_at (S level)) level (y :: ys) _)
        | lia ].
    cbn [bind fst snd continued app].
    change (skip_ws (COMMA :: ?s)) with (COMMA :: s).
    cbv beta iota.
    change (COMMA =? 93)%N with false. rewrite N.eqb_refl. cbv iota.
    rewrite skip_ws_indent.
    inversion Hok' as [|? ? Hoky _]; subst.
    pose proof (dumps_opens (S level) y Hoky) as Hop.
    rewrite skip_ws_fix.
    + rewrite (IH y (x :: acc) fuel Hrb' Hok') by (cbn [map]; lia).
      cbn [rev]. rewrite <- app_assoc. reflexivity.
    + destruct (dumps_at (S level) y); [contradiction|]. cbn. apply Hop.
Qed.

Lemma member_text_eq level kv :
  member_text level kv
  = QUOTE :: flat_map escape_char (fst kv)
    ++ QUOTE :: COLON :: SPACE :: dumps_at level (snd kv).
Proof.
  unfold member_text, encode_basestring_ascii. cbn [app].
  rewrite <- app_assoc. reflexivity.
Qed.

Lemma object_loop_reads level rest kvs : forall kv acc fuel,
  Forall (fun kv => reads_back (snd kv)) (kv :: kvs) ->
  Forall (fun kv => storable (fst kv) /\ json_ok (snd kv)) (kv :: kvs) ->
  (list_sum (map (fun kv => S (json_size (snd kv))) (kv :: kvs)) <= fuel)%nat ->
  object_loop fuel
    (flat_map escape_char (fst kv)
     ++ QUOTE :: COLON :: SPACE :: dumps_at (S level) (snd kv)
     ++ continued (member_text (S level)) (COMMA :: newline_indent (S level))
          kvs (newline_indent level ++ 125%N :: rest)) acc
  = Ok (JDict (dict_of_pairs (rev acc ++ kv :: kvs)), rest).
Proof.
  induction kvs as [|kv2 kvs IH]; intros [k v] acc fuel Hrb Hok Hfuel;
    inversion Hrb as [|? ? Hx Hrb']; inversion Hok as [|? ? [Hk Hv] Hok'];
    subst; cbn [fst snd] in *;
    cbn [map] in Hfuel; rewrite sum_cons in Hfuel; cbn [fst snd] in Hfuel;
    (destruct fuel as [|fuel]; [lia|]); cbn [object_loop];
    rewrite scanstring_encode by exact Hk;
    cbn [bind fst snd rev app];
    change (skip_ws (COLON :: ?s)) with (COLON :: s); cbv beta iota;
    rewrite N.eqb_refl;
    change (skip_ws (SPACE :: ?s)) with (skip_ws s);
    pose proof (dumps_opens (S level) v Hv) as Hop;
    (rewrite skip_ws_fix;
      [ | destruct (dumps_at (S level) v); [contradiction | cbn; apply Hop] ]).
  - rewrite Hx; [ | apply (value_end_continued (member_text (S level)) level [] _)
                  | lia ].
    cbn [bind fst snd continued]. rewrite skip_ws_indent.
    cbn. reflexivity.
  - rewrite Hx;
      [ | apply (value_end_continued (member_text (S level)) level
                   (kv2 :: kvs) _)
        | lia ].
    cbn [bind fst snd continued app].
    change (skip_ws (COMMA :: ?s)) with (COMMA :: s). cbv beta iota.
    change (COMMA =? 125)%N with false. rewrite N.eqb_refl. cbv iota.
    rewrite skip_ws_indent, member_text_eq. cbn [app].
    change (skip_ws (QUOTE :: ?s)) with (QUOTE :: s). cbv beta iota.
    rewrite N.eqb_refl.
    rewrite <- app_assoc. cbn [app].
    rewrite (IH kv2 ((k, v) :: acc) fuel Hrb' Hok') by (cbn [map]; lia).
    cbn [rev]. rewrite <- app_assoc. reflexivity.
Qed.

Lemma dict_set_fresh k v d :
  ~ In k (map fst d) -> dict_set k v d = d ++ [(k, v)].
Proof.
  induction d as [|[k' x] d IH]; intros Hk; [reflexivity|].
  cbn [dict_set app]. cbn [map fst In] in Hk.
  destruct (str_eqb k' k) eqn:E.
  - apply str_eqb_eq in E. tauto.
  - rewrite IH by tauto. reflexivity.
Qed.

Lemma dict_of_pairs_fresh items : forall d,
  List.NoDup (map fst (d ++ items)) ->
  fold_left (fun d kv => dict_set (fst kv) (snd kv) d) items d = d ++ items.
Proof.
  induction items as [|[k v] items IH]; intros d Hnd; cbn [fold_left fst snd].
  - symmetry. apply app_nil_r.
  - rewrite dict_set_fresh.
    + rewrite IH; rewrite <- app_assoc; [reflexivity | exact Hnd].
    + rewrite map_app in Hnd. cbn [map fst] in Hnd.
      apply List.NoDup_remove_2 in Hnd. intros Hin. apply Hnd.
      apply in_or_app. left. exact Hin.
Qed.

Lemma dict_of_pairs_nodup items :
  List.NoDup (map fst items) -> dict_of_pairs items = items.
Proof. intros H. apply (dict_of_pairs_fresh items []). exact H. Qed.

Lemma Forall_modus {A} (P Q : A -> Prop) l :
  Forall (fun a => P a -> Q a) l -> Forall P l -> Forall Q l.
Proof.
  induction 1 as [|a l Ha Hl IH]; intros HP; [constructor|].
  inversion HP; subst. constructor; auto.
Qed.

(** Every well-formed document is read back from its text. *)
Lemma json_reads_back : forall v, json_ok v -> reads_back v.
Proof.
  induction v as [ | b | n | l | s | items IH | items IH ]
    using json_nested_ind; intros Hok level rest fuel Hrest Hfuel;
    (destruct fuel as [|fuel]; [cbn in Hfuel; lia|]).
  - reflexivity.
  - destruct b; reflexivity.
  - apply scan_once_int. exact Hrest.
  - destruct Hok.
  - cbn [dumps_at]. unfold encode_basestring_ascii.
    cbn [app scan_once]. rewrite N.eqb_refl. rewrite <- app_assoc.
    cbn [app]. rewrite scanstring_encode by exact Hok. reflexivity.
  - apply json_ok_list in Hok.
    pose proof (Forall_modus _ _ _ IH Hok) as Hrb.
    destruct items as [|x xs]; [reflexivity|].
    rewrite dumps_list_cons.
    change (lit "[") with [91%N]. change (lit "]") with [93%N].
    cbn [app scan_once].
    change (91 =? QUOTE)%N with false. change (91 =? 123)%N with false.
    change (91 =? 91)%N with true. cbv iota.
    rewrite <- !app_assoc. rewrite skip_ws_indent.
    rewrite join_with_continued. cbn [app].
    inversion Hok as [|? ? Hokx _]; subst.
    pose proof (dumps_opens (S level) x Hokx) as Hop.
    assert (Hsum : (list_sum (map (fun x => S (json_size x)) (x :: xs))
                    <= fuel)%nat) by (cbn [json_size] in Hfuel; lia).
    pose proof (array_loop_reads level rest xs x [] fuel Hrb Hok Hsum) as L.
    destruct (dumps_at (S level) x) as [|c r]; [contradiction|].
    cbn [opens_value] in Hop. destruct Hop as (Hws & H93 & _).
    rewrite skip_ws_fix by (cbn; exact Hws). cbn [app].
    rewrite (proj2 (N.eqb_neq _ _) H93). exact L.
  - apply json_ok_dict in Hok. destruct Hok as [Hok Hnd].
    assert (Hrb : Forall (fun kv => reads_back (snd kv)) items).
    { clear - IH Hok. induction IH as [|kv l Hkv Hl IHl]; [constructor|].
      inversion Hok as [|? ? [_ Hv] Hok']; subst. constructor; auto. }
    destruct items as [|kv kvs]; [reflexivity|].
    rewrite dumps_dict_cons.
    change (fun kv => encode_basestring_ascii (fst kv) ++ lit ": "
                      ++ dumps_at (S level) (snd kv))
      with (member_text (S level)).
    change (lit "{") with [123%N]. change (lit "}") with [125%N].
    cbn [app scan_once].
    change (123 =? QUOTE)%N with false. change (123 =? 123)%N with true.
    cbv iota.
    rewrite <- !app_assoc. rewrite skip_ws_indent.
    rewrite join_with_continued. cbn [app].
    rewrite member_text_eq. cbn [app].
    change (skip_ws (QUOTE :: ?s)) with (QUOTE :: s). cbv beta iota.
    change (QUOTE =? 125)%N with false. rewrite N.eqb_refl.
    rewrite <- app_assoc. cbn [app].
    assert (Hsum : (list_sum (map (fun kv => S (json_size (snd kv)))
                                (kv :: kvs)) <= fuel)%nat)
      by (cbn [json_size] in Hfuel; lia).
    pose proof (object_loop_reads level rest kvs kv [] fuel Hrb Hok Hsum)
      as L.
    cbn [rev app] in L. rewrite dict_of_pairs_nodup in L by exact Hnd.
    exact L.
Qed.

Lemma continued_length {A} (f : A -> str) (size : A -> nat) sep closing xs :
  sep <> [] ->
  Forall (fun x => (size x <= length (f x))%nat) xs ->
  (list_sum (map (fun x => S (size x)) xs) + length closing
   <= length (continued f sep xs closing))%nat.
Proof.
  intros Hsep. induction 1 as [|x xs Hx Hxs IH]; cbn [continued map].
  - rewrite sum_cons || simpl; lia.
  - rewrite sum_cons, !length_app. destruct sep; [congruence|].
    cbn [length]. lia.
Qed.

(** The text of a document is at least as long as the fuel it needs. *)
Lemma dumps_length : forall v level,
  json_ok v -> (json_size v <= length (dumps_at level v))%nat.
Proof.
  induction v as [ | b | n | l | s | items IH | items IH ]
    using json_nested_ind; intros level Hok.
  - cbn. lia.
  - destruct b; cbn; lia.
  - cbn [dumps_at json_size].
    destruct (str_of_int_head n) as (c & r & -> & _). cbn [length]. lia.
  - destruct Hok.
  - cbn [dumps_at json_size]. unfold encode_basestring_ascii.
    cbn [length]. lia.
  - apply json_ok_list in Hok.
    destruct items as [|x xs]; [cbn; lia|].
    rewrite dumps_list_cons, join_with_continued.
    cbn [json_size map]. rewrite sum_cons, !length_app.
    inversion IH as [|? ? IHx IHxs]; inversion Hok as [|? ? Hx Hxs]; subst.
    pose proof (IHx (S level) Hx) as Lx.
    assert (Hall : Forall (fun x => (json_size x
                                     <= length (dumps_at (S level) x))%nat) xs).
    { clear - IHxs Hxs. induction IHxs as [|y ys Hy Hys IHl]; [constructor|].
      inversion Hxs; subst. constructor; auto. }
    pose proof (continued_length (dumps_at (S level)) json_size
                  (COMMA :: newline_indent (S level))
                  (newline_indent level ++ lit "]") xs
                  ltac:(discriminate) Hall) as Lc.
    rewrite length_app in Lc.
    change (length (lit "[")) with 1%nat. change (length (lit "]")) with 1%nat in Lc.
    lia.
  - apply json_ok_dict in Hok. destruct Hok as [Hok _].
    destruct items as [|kv kvs]; [cbn; lia|].
    rewrite dumps_dict_cons.
    change (fun kv => encode_basestring_ascii (fst kv) ++ lit ": "
                      ++ dumps_at (S level) (snd kv))
      with (member_text (S level)).
    rewrite join_with_continued.
    cbn [json_size map]. rewrite sum_cons, !length_app.
    inversion IH as [|? ? IHx IHxs]; inversion Hok as [|? ? [_ Hx] Hxs]; subst.
    pose proof (IHx (S level) Hx) as Lx.
    assert (Hall : Forall (fun kv => (json_size (snd kv)
                              <= length (member_text (S level) kv))%nat) kvs).
    { clear - IHxs Hxs. induction IHxs as [|y ys Hy Hys IHl]; [constructor|].
      inversion Hxs as [|? ? [_ Hy'] Hys']; subst. constructor; auto.
      unfold member_text. rewrite !length_app.
      pose proof (Hy (S level) Hy'). lia. }
    pose proof (continued_length (member_text (S level))
                  (fun kv => json_size (snd kv))
                  (COMMA :: newline_indent (S level))
                  (newline_indent level ++ lit "}") kvs
                  ltac:(discriminate) Hall) as Lc.
    rewrite length_app in Lc.
    unfold member_text at 1. rewrite !length_app.
    change (length (lit "{")) with 1%nat. change (length (lit "}")) with 1%nat in Lc.
    lia.
Qed.

(** [json_loads] reads back every well-formed document [json_dumps] wrote. *)
Lemma json_loads_dumps v : json_ok v -> json_loads (json_dumps v) = Ok v.
Proof.
  intros Hok. unfold json_loads, json_dumps.
  pose proof (dumps_opens 0 v Hok) as Hop.
  pose proof (dumps_length v 0 Hok) as Hlen.
  rewrite skip_ws_fix
    by (destruct (dumps_at 0 v); [contradiction | cbn; apply Hop]).
  pose proof (json_reads_back v Hok 0%nat [] (S (length (dumps_at 0 v)))
                I ltac:(lia)) as R.
  rewrite app_nil_r in R. rewrite R. reflexivity.
Qed.

(** ** Dumping and validating the models *)

Lemma dict_get_here k v d : dict_get k ((k, v) :: d) = Some v.
Proof.
  cbn [dict_get]. rewrite (proj2 (str_eqb_eq k k) eq_refl). reflexivity.
Qed.

Lemma dict_get_next k k' v d :
  k' <> k -> dict_get k ((k', v) :: d) = dict_get k d.
Proof.
  intros H. cbn [dict_get]. destruct (str_eqb k' k) eqn:E; [|reflexivity].
  apply str_eqb_eq in E. contradiction.
Qed.

Ltac lookup :=
  repeat (rewrite dict_get_next
            by (let E := fresh in intros E; vm_compute in E; discriminate E));
  rewrite dict_get_here.

Lemma optional_int d name o :
  dict_get name d = Some (json_of_option JInt o) ->
  optional as_int d name = Ok o.
Proof. intros H. unfold optional. rewrite H. destruct o; reflexivity. Qed.

Lemma optional_datetime d name o :
  dict_get name d = Some (json_of_option (fun t => JStr (isoformat t)) o) ->
  opt_ok datetime_ok o = true ->
  optional as_datetime d name = Ok o.
Proof.
  intros H Hok. unfold optional. rewrite H. destruct o as [t|]; [|reflexivity].
  cbn [json_of_option as_datetime bind]. cbn [opt_ok] in Hok.
  rewrite (fromisoformat_isoformat t Hok). reflexivity.
Qed.

Lemma Goal_validate_dump g :
  Goal_validate g = true -> Goal_model_validate (Goal_model_dump g) = Ok g.
Proof.
  intros H. destruct g as [title description].
  unfold Goal_model_validate, Goal_model_dump, required.
  cbn [Goal.title Goal.description].
  lookup. cbn [as_str bind]. lookup. cbn [as_str bind].
  rewrite H. reflexivity.
Qed.

Lemma SubTask_validate_dump t :
  SubTask_validate t = true ->
  SubTask_model_validate (SubTask_model_dump t) = Ok t.
Proof.
  intros H. pose proof H as Hv. unfold SubTask_validate in Hv.
  rewrite !andb_true_iff in Hv.
  destruct Hv as (((((_ & _) & _) & Hs) & He) & _).
  destruct t as [id goal_title description order estimate sstart send].
  cbn [SubTask.scheduled_start SubTask.scheduled_end] in Hs, He.
  unfold SubTask_model_validate, SubTask_model_dump, required.
  cbn [SubTask.id SubTask.goal_title SubTask.description SubTask.order
       SubTask.estimate_minutes SubTask.scheduled_start SubTask.scheduled_end].
  lookup. cbn [as_str bind]. lookup. cbn [as_str bind].
  lookup. cbn [as_str bind]. lookup. cbn [as_int bind].
  rewrite (optional_int _ _ estimate) by (lookup; reflexivity).
  cbn [bind].
  rewrite (optional_datetime _ _ sstart) by (try (lookup; reflexivity); exact Hs).
  cbn [bind].
  rewrite (optional_datetime _ _ send) by (try (lookup; reflexivity); exact He).
  cbn [bind]. rewrite H. reflexivity.
Qed.

Lemma mapM_validate_dump ts :
  Forall (fun t => SubTask_validate t = true) ts ->
  mapM SubTask_model_validate (map SubTask_model_dump ts) = Ok ts.
Proof.
  induction 1 as [|t ts Ht Hts IH]; [reflexivity|].
  cbn [map mapM]. rewrite (SubTask_validate_dump t Ht). cbn [bind].
  rewrite IH. reflexivity.
Qed.

Lemma Schedule_validate_dump s :
  data_model_ok s ->
  Schedule_model_validate (Schedule_model_dump s) = Ok s.
Proof.
  intros (Hg & Hts & Hs). destruct s as [goal subtasks].
  cbn [Schedule.goal Schedule.subtasks] in *.
  unfold Schedule_model_validate, Schedule_model_dump, required.
  cbn [Schedule.goal Schedule.subtasks].
  lookup. rewrite (Goal_validate_dump goal Hg). cbn [bind].
  lookup. cbn [as_subtasks]. rewrite (mapM_validate_dump subtasks Hts).
  cbn [bind]. unfold Schedule_new. rewrite Hs. reflexivity.
Qed.

(** ** Saving and loading *)

Lemma pad_unicode w : forall n, unicode_text (pad w n).
Proof.
  induction w as [|w IH]; intros n; cbn [pad]; [constructor|].
  apply List.Forall_app. split; [apply IH|]. constructor; [|constructor].
  pose proof (Z.mod_pos_bound n 10 ltac:(lia)).
  unfold is_scalar. apply orb_true_iff. left. apply N.ltb_lt. lia.
Qed.

Lemma unicode_app a b :
  unicode_text a -> unicode_text b -> unicode_text (a ++ b).
Proof. intros Ha Hb. apply List.Forall_app. split; assumption. Qed.

Lemma isoformat_unicode t : unicode_text (isoformat t).
Proof.
  unfold isoformat. destruct (date_of t) as [[y m] d].
  do 5 (apply unicode_app; [apply pad_unicode|];
        apply unicode_app; [repeat constructor|]).
  apply unicode_app; [apply pad_unicode|].
  destruct (microsecond_of t =? 0); [constructor|].
  apply unicode_app; [repeat constructor | apply pad_unicode].
Qed.

Ltac distinct_keys :=
  cbn [map fst];
  repeat (constructor;
          [ let H := fresh in intros H; vm_compute in H; intuition discriminate
          | ]);
  constructor.

Lemma Schedule_strings_Forall (P : str -> Prop) s :
  Forall P (Schedule_strings s)
  <-> P (Goal.title (Schedule.goal s))
      /\ P (Goal.description (Schedule.goal s))
      /\ Forall (fun t => Forall P (SubTask_strings t)) (Schedule.subtasks s).
Proof.
  unfold Schedule_strings. rewrite !List.Forall_cons_iff.
  rewrite List.Forall_flat_map. reflexivity.
Qed.

Lemma SubTask_dump_ok t :
  Forall storable (SubTask_strings t) -> json_ok (SubTask_model_dump t).
Proof.
  unfold SubTask_strings. rewrite !List.Forall_cons_iff.
  intros (H1 & H2 & H3 & _). unfold SubTask_model_dump.
  apply json_ok_dict. split.
  - repeat (constructor;
            [split; [apply unicode_storable; repeat constructor|] | ]);
      cbn [snd json_ok]; try assumption; try exact I; try constructor.
    + destruct (SubTask.estimate_minutes t); exact I.
    + destruct (SubTask.scheduled_start t);
        [apply unicode_storable, isoformat_unicode | exact I].
    + destruct (SubTask.scheduled_end t);
        [apply unicode_storable, isoformat_unicode | exact I].
  - distinct_keys.
Qed.

Lemma Schedule_dump_ok s :
  Forall storable (Schedule_strings s) -> json_ok (Schedule_model_dump s).
Proof.
  intros H. apply Schedule_strings_Forall in H as (H1 & H2 & H3).
  unfold Schedule_model_dump. apply json_ok_dict. split.
  - constructor; [split; [apply unicode_storable; repeat constructor|] | ].
    + unfold Goal_model_dump. apply json_ok_dict. split.
      * repeat (constructor;
                [split; [apply unicode_storable; repeat constructor|] | ]);
          cbn [snd json_ok]; try assumption; constructor.
      * distinct_keys.
    + constructor;
        [split; [apply unicode_storable; repeat constructor|] | constructor].
      cbn [snd]. apply json_ok_list. apply List.Forall_map.
      eapply List.Forall_impl; [|exact H3]. apply SubTask_dump_ok.
  - distinct_keys.
Qed.

Lemma unicode_schedule_storable s :
  unicode_schedule s -> Forall storable (Schedule_strings s).
Proof.
  intros (H1 & H2 & H3). apply Schedule_strings_Forall.
  split; [apply unicode_storable, H1|].
  split; [apply unicode_storable, H2|].
  eapply List.Forall_impl; [|exact H3].
  intros t (T1 & T2 & T3). unfold SubTask_strings.
  repeat constructor; apply unicode_storable; assumption.
Qed.

Lemma record_ok schedule now :
  Forall storable (Schedule_strings schedule) ->
  json_ok (JDict [ (lit "saved_at", JStr (isoformat now));
                   (lit "schedule", Schedule_model_dump schedule) ]).
Proof.
  intros H. apply json_ok_dict. split.
  - constructor;
      [split; [apply unicode_storable; repeat constructor
              | apply unicode_storable, isoformat_unicode] | ].
    constructor;
      [split; [apply unicode_storable; repeat constructor|] | constructor].
    apply Schedule_dump_ok, H.
  - distinct_keys.
Qed.

Lemma record_reads_back schedule now :
  Forall storable (Schedule_strings schedule) ->
  json_loads (record_text schedule now)
  = Ok (JDict [ (lit "saved_at", JStr (isoformat now));
                (lit "schedule", Schedule_model_dump schedule) ]).
Proof.
  intros H. unfold record_text. cbv zeta.
  apply json_loads_dumps, record_ok, H.
Qed.

(** ** More on the parser *)

Lemma splitlines_from_Forall (P : char -> Prop) s : forall cur,
  Forall P cur -> Forall P s -> Forall (Forall P) (splitlines_from cur s).
Proof.
  induction s as [s IH] using (induction_ltof1 _ (@List.length char)).
  unfold ltof in IH. intros cur Hcur Hs. destruct s as [|c rest]; simpl.
  - destruct cur; constructor; [|constructor].
    apply List.Forall_rev, Hcur.
  - inversion Hs as [|c0 l0 Hc Hrest]; subst.
    destruct (Py_UNICODE_ISLINEBREAK c) eqn:E.
    + constructor; [apply List.Forall_rev, Hcur|].
      destruct rest as [|c' rest'].
      * simpl. constructor.
      * destruct ((c =? CR)%N && (c' =? LF)%N).
        -- apply IH; [simpl; lia | constructor |].
           inversion Hrest; assumption.
        -- apply IH; [simpl; lia | constructor | exact Hrest].
    + apply IH; [simpl; lia | constructor; assumption | exact Hrest].
Qed.

(** Every character of a line of [clean_lines] is a character of the text. *)
Lemma clean_lines_Forall (P : char -> Prop) text :
  Forall P text -> Forall (Forall P) (clean_lines text).
Proof.
  intros H. unfold clean_lines. apply List.Forall_map, Forall_filter_keep.
  eapply List.Forall_impl;
    [|apply (splitlines_from_Forall P text []); [constructor | exact H]].
  intros ln Hln. simpl. apply strip_by_Forall, strip_by_Forall, Hln.
Qed.

Lemma retained_in_clean_lines text p :
  In p (retained text) ->
  In (snd p) (clean_lines text) /\ numbered_item_match (snd p) = true
  /\ 1 <= fst p <= Z.of_nat (length (clean_lines text)).
Proof.
  intros Hin. unfold retained in Hin. apply List.filter_In in Hin as [Hin Hm].
  pose proof (enumerate_nth (clean_lines text) 1) as Hn.
  rewrite List.Forall_forall in Hn. destruct (Hn p Hin) as [Hlo Hnth].
  split; [eapply nth_error_In; exact Hnth|]. split; [exact Hm|].
  assert (Hlt : (Z.to_nat (fst p - 1) < length (clean_lines text))%nat)
    by (apply nth_error_Some; rewrite Hnth; discriminate).
  lia.
Qed.

(** X1: every SubTask the parser emits has a description that matches the
    numbered-list pattern, holds no line break and has no whitespace at
    either end; its estimate, start and end are absent, and it meets the
    constraints of the data model. *)
Theorem parser_descriptions_are_numbered_lines text goal :
  exists l,
    _subtasks_from_llm_output text goal = Ok l
    /\ Forall (fun t =>
         numbered_item_match (SubTask.description t) = true
         /\ no_linebreak (SubTask.description t)
         /\ trimmed Py_UNICODE_ISSPACE (SubTask.description t)
         /\ SubTask.estimate_minutes t = None
         /\ SubTask.scheduled_start t = None
         /\ SubTask.scheduled_end t = None
         /\ SubTask_validate t = true) l.
Proof.
  eexists. split; [apply parser_emits|].
  apply List.Forall_map, List.Forall_forall. intros p Hin.
  destruct (retained_in_clean_lines text p Hin) as (Hc & Hm & Hlo & _).
  pose proof (clean_lines_shape text) as Hs.
  rewrite List.Forall_forall in Hs. destruct (Hs _ Hc) as [Hnl Ht].
  cbn [task_of SubTask.description SubTask.estimate_minutes
       SubTask.scheduled_start SubTask.scheduled_end].
  repeat split; try assumption; try apply Ht.
  pose proof (SubTask_new_numbered (lit "task-" ++ str_of_int (fst p))
                (Goal.title goal) (snd p) (fst p) Hm Hlo) as Hnew.
  unfold SubTask_new in Hnew. cbv zeta in Hnew.
  destruct (SubTask_validate _) eqn:E; [reflexivity | discriminate Hnew].
Qed.

Lemma enumerate_length {A} (l : list A) : forall i,
  length (enumerate i l) = length l.
Proof.
  induction l as [|a l IH]; intros i; simpl; [|rewrite IH]; reflexivity.
Qed.

(** X2: the parser emits at most one SubTask per line of the text, and every
    order lies between 1 and the number of lines that are not blank. *)
Theorem parser_orders_within_line_count text goal :
  exists l,
    _subtasks_from_llm_output text goal = Ok l
    /\ (length l <= length (clean_lines text) <= length (splitlines text))%nat
    /\ Forall (fun t =>
         1 <= SubTask.order t <= Z.of_nat (length (clean_lines text))) l.
Proof.
  eexists. split; [apply parser_emits|]. split.
  - rewrite length_map. unfold retained. split.
    + etransitivity; [apply List.filter_length_le|].
      rewrite enumerate_length. lia.
    + unfold clean_lines. rewrite length_map. apply List.filter_length_le.
  - apply List.Forall_map, List.Forall_forall. intros p Hin.
    destruct (retained_in_clean_lines text p Hin) as (_ & _ & H). exact H.
Qed.

Lemma dropwhile_app_all {A} (p : A -> bool) pre s :
  forallb p pre = true -> dropwhile p (pre ++ s) = dropwhile p s.
Proof.
  induction pre as [|c pre IH]; simpl; [reflexivity|].
  intros H. apply andb_true_iff in H as [Hc Hpre]. rewrite Hc. apply IH, Hpre.
Qed.

Lemma dropwhile_keeps {A} (p : A -> bool) c s :
  In c s -> p c = false -> In c (dropwhile p s).
Proof.
  induction s as [|a s IH]; simpl; [tauto|].
  intros Hin Hc. destruct (p a) eqn:E; [|exact Hin].
  destruct Hin as [-> | Hin]; [congruence | apply IH; assumption].
Qed.

(** What holds a character that is not stripped is not stripped away. *)
Lemma strip_by_keeps p c s : In c s -> p c = false -> In c (strip_by p s).
Proof.
  intros Hin Hc. unfold strip_by.
  apply List.in_rev. rewrite rev_involutive.
  apply dropwhile_keeps; [|exact Hc].
  apply -> List.in_rev. apply dropwhile_keeps; assumption.
Qed.

Lemma bullet_no_linebreak pre :
  forallb is_bullet pre = true -> no_linebreak pre.
Proof.
  intros H. apply List.Forall_forall. intros c Hin.
  rewrite forallb_forall in H. specialize (H c Hin).
  unfold is_bullet in H. simpl in H. rewrite orb_false_r in H.
  apply orb_true_iff in H as [H | H]; apply N.eqb_eq in H; subst c; reflexivity.
Qed.

Lemma bulleted_line_is_cleaned (item : str * str) :
  forallb is_bullet (fst item) = true ->
  numbered_item_match (snd item) = true ->
  trimmed Py_UNICODE_ISSPACE (snd item) ->
  ends_with_dash (snd item) = false ->
  truthy (strip (bulleted item)) = true
  /\ strip (strip_chars (lit "- ") (bulleted item)) = snd item.
Proof.
  destruct item as [pre d]. unfold bulleted. cbn [fst snd].
  intros Hpre Hm Ht Hd.
  destruct (kept_line_is_clean d Hm Ht Hd) as [_ E].
  pose proof Hm as Hh. apply numbered_item_head in Hh as (c & rest & -> & Hc).
  split.
  - assert (Hin : In c (strip (pre ++ c :: rest))).
    { apply strip_by_keeps; [|apply decimal_not_space, Hc].
      apply in_or_app. right. left. reflexivity. }
    destruct (strip (pre ++ c :: rest)); [destruct Hin | reflexivity].
  - rewrite <- E at 2. f_equal. unfold strip_chars, strip_by. do 3 f_equal.
    rewrite dropwhile_app_all by exact Hpre. reflexivity.
Qed.

(** X3: hyphens and spaces in front of a numbered line (a bulleted list) are
    dropped: the text parses as it does without them. *)
Theorem parser_strips_bullets (items : list (str * str)) (goal : Goal.t) :
  Forall (fun item =>
    forallb is_bullet (fst item) = true
    /\ no_linebreak (snd item)
    /\ trimmed Py_UNICODE_ISSPACE (snd item)
    /\ numbered_item_match (snd item) = true
    /\ ends_with_dash (snd item) = false) items ->
  _subtasks_from_llm_output
    (join_lines (map bulleted items)) goal
  = _subtasks_from_llm_output (join_lines (map snd items)) goal
  /\ exists l,
       _subtasks_from_llm_output
         (join_lines (map bulleted items)) goal
       = Ok l
       /\ map SubTask.description l = map snd items.
Proof.
  intros H.
  assert (E2 : clean_lines (join_lines (map bulleted items)) = map snd items).
  { unfold clean_lines. rewrite splitlines_join.
    - induction H as [|item items (Hpre & Hnl & Ht & Hm & Hd) _ IH];
        [reflexivity|].
      destruct (bulleted_line_is_cleaned item Hpre Hm Ht Hd) as [T1 T2].
      cbn [map List.filter]. rewrite T1. cbn [map]. rewrite T2, IH.
      reflexivity.
    - apply List.Forall_map. eapply List.Forall_impl; [|exact H]. simpl.
      intros [pre d] (Hpre & Hnl & _ & Hm & _). unfold bulleted.
      cbn [fst snd] in *. split.
      + apply List.Forall_app. split; [apply bullet_no_linebreak, Hpre | exact Hnl].
      + apply numbered_item_head in Hm as (c & rest & -> & _).
        destruct pre; discriminate. }
  assert (E1 : clean_lines (join_lines (map snd items)) = map snd items).
  { apply clean_lines_join, List.Forall_map.
    eapply List.Forall_impl; [|exact H]. simpl. intros item (_ & Hrest).
    exact Hrest. }
  assert (E : _subtasks_from_llm_output
                (join_lines (map bulleted items)) goal
              = _subtasks_from_llm_output (join_lines (map snd items)) goal).
  { unfold _subtasks_from_llm_output. rewrite E1, E2. reflexivity. }
  split; [exact E|].
  eexists. split; [apply parser_emits|].
  rewrite task_of_description, retained_descriptions, E2.
  apply filter_all, List.Forall_map.
  eapply List.Forall_impl; [|exact H]. simpl. intros item (_ & _ & _ & Hm & _).
  exact Hm.
Qed.

Lemma parser_strips_bullets_scenario1 :
  _subtasks_from_llm_output
    (join_lines (map bulleted bulleted_items)) a_goal
  = _subtasks_from_llm_output (join_lines (map snd bulleted_items)) a_goal
  /\ exists l,
       _subtasks_from_llm_output
         (join_lines (map bulleted bulleted_items))
         a_goal
       = Ok l
       /\ map SubTask.description l = map snd bulleted_items.
Proof.
  apply (parser_strips_bullets bulleted_items a_goal).
  repeat constructor.
Defined.

Lemma splitlines_from_crlf l : forall cur rest,
  no_linebreak l ->
  splitlines_from cur (l ++ CR :: LF :: rest)
  = splitlines_from cur (l ++ LF :: rest).
Proof.
  intros cur rest H. rewrite !splitlines_from_app by exact H.
  simpl. destruct rest; reflexivity.
Qed.

Lemma splitlines_crlf ls :
  Forall no_linebreak ls ->
  splitlines (join_crlf ls) = splitlines (join_lines ls).
Proof.
  unfold splitlines. induction 1 as [|l rest Hl Hrest IH]; [reflexivity|].
  destruct rest as [|l' rest']; [reflexivity|].
  change (join_crlf (l :: l' :: rest'))
    with (l ++ CR :: LF :: join_crlf (l' :: rest')).
  change (join_lines (l :: l' :: rest'))
    with (l ++ LF :: join_lines (l' :: rest')).
  rewrite splitlines_from_crlf by exact Hl.
  rewrite !splitlines_from_app by exact Hl.
  remember (join_crlf (l' :: rest')) as J1. remember (join_lines (l' :: rest')) as J2.
  simpl. f_equal.
  destruct J1, J2; simpl in *; try exact IH.
Qed.

(** X4: lines ended by a carriage return and a newline are read as lines
    ended by a newline: the parser returns the same SubTasks. *)
Theorem parser_accepts_crlf (ls : list str) (goal : Goal.t) :
  Forall no_linebreak ls ->
  _subtasks_from_llm_output (join_crlf ls) goal
  = _subtasks_from_llm_output (join_lines ls) goal.
Proof.
  intros H. unfold _subtasks_from_llm_output, clean_lines.
  rewrite (splitlines_crlf ls H). reflexivity.
Qed.

Lemma parser_accepts_crlf_scenario1 :
  _subtasks_from_llm_output (join_crlf scenario1_lines) a_goal
  = _subtasks_from_llm_output (join_lines scenario1_lines) a_goal.
Proof.
  apply (parser_accepts_crlf scenario1_lines a_goal).
  repeat constructor.
Defined.

(** X5: a text with no decimal digit in it gives no SubTask. *)
Theorem parser_needs_a_digit (text : str) (goal : Goal.t) :
  Forall (fun c => Py_UNICODE_ISDECIMAL c = false) text ->
  _subtasks_from_llm_output text goal = Ok [].
Proof.
  intros H. rewrite parser_emits. f_equal.
  destruct (retained text) as [|p ps] eqn:E; [reflexivity|].
  assert (Hin : In p (retained text)) by (rewrite E; left; reflexivity).
  destruct (retained_in_clean_lines text p Hin) as (Hc & Hm & _).
  pose proof (clean_lines_Forall _ text H) as Hall.
  rewrite List.Forall_forall in Hall. specialize (Hall _ Hc).
  apply numbered_item_head in Hm as (c & rest & Eq & Hd).
  rewrite Eq in Hall. inversion Hall; subst. congruence.
Qed.

Lemma parser_needs_a_digit_heading :
  _subtasks_from_llm_output (lit "Some heading") a_goal = Ok [].
Proof.
  apply (parser_needs_a_digit (lit "Some heading") a_goal).
  repeat constructor.
Defined.

(** ** Blank lines and contiguous orders *)

Lemma splitlines_join_cons l l' rest :
  no_linebreak l ->
  splitlines (join_lines (l :: l' :: rest))
  = l :: splitlines (join_lines (l' :: rest)).
Proof.
  intros Hl. unfold splitlines.
  change (join_lines (l :: l' :: rest))
    with (l ++ LF :: join_lines (l' :: rest)).
  rewrite splitlines_from_app by exact Hl. rewrite app_nil_r.
  cbn [splitlines_from]. change (Py_UNICODE_ISLINEBREAK LF) with true.
  cbv iota. rewrite rev_involutive. f_equal.
  destruct (join_lines (l' :: rest)); reflexivity.
Qed.

(** Joining lines and splitting them again gives the lines back, up to an
    empty last line. *)
Lemma splitlines_join_not_blank ls :
  Forall no_linebreak ls ->
  List.filter not_blank (splitlines (join_lines ls)) = List.filter not_blank ls.
Proof.
  induction 1 as [|l rest Hl Hrest IH]; [reflexivity|].
  destruct rest as [|l' rest'].
  - cbn [join_lines]. unfold splitlines.
    rewrite <- (app_nil_r l) at 1.
    rewrite splitlines_from_app by exact Hl. rewrite app_nil_r.
    cbn [splitlines_from]. destruct (rev l) eqn:E.
    + apply (f_equal (@rev char)) in E. rewrite rev_involutive in E.
      subst l. reflexivity.
    + rewrite <- E, rev_involutive. reflexivity.
  - rewrite splitlines_join_cons by exact Hl.
    cbn [List.filter]. rewrite IH. reflexivity.
Qed.

Lemma filter_filter {A} (f : A -> bool) l :
  List.filter f (List.filter f l) = List.filter f l.
Proof.
  induction l as [|a l IH]; [reflexivity|]. cbn [List.filter].
  destruct (f a) eqn:E; [|exact IH]. cbn [List.filter]. rewrite E, IH.
  reflexivity.
Qed.

(** X13: blank lines do not count: a text parses as it does with its blank
    lines removed, so they change no order and no id. *)
Theorem parser_ignores_blank_lines (ls : list str) (goal : Goal.t) :
  Forall no_linebreak ls ->
  _subtasks_from_llm_output (join_lines ls) goal
  = _subtasks_from_llm_output (join_lines (List.filter not_blank ls)) goal.
Proof.
  intros H. unfold _subtasks_from_llm_output, clean_lines.
  fold not_blank.
  rewrite (splitlines_join_not_blank ls H).
  rewrite (splitlines_join_not_blank (List.filter not_blank ls))
    by (apply Forall_filter_keep, H).
  rewrite filter_filter. reflexivity.
Qed.

Lemma parser_ignores_blank_lines_example :
  _subtasks_from_llm_output (join_lines spaced_lines) a_goal
  = _subtasks_from_llm_output
      (join_lines (List.filter not_blank spaced_lines)) a_goal.
Proof.
  apply (parser_ignores_blank_lines spaced_lines a_goal).
  repeat constructor.
Defined.

Lemma enumerate_fst {A} (l : list A) : forall i,
  map fst (enumerate i l)
  = map (fun k => i + Z.of_nat k) (seq 0 (length l)).
Proof.
  induction l as [|a l IH]; intros i; [reflexivity|].
  cbn [enumerate map length seq fst]. f_equal; [lia|].
  rewrite IH, <- seq_shift, List.map_map. apply map_ext. intros k. lia.
Qed.

(** X14: when every line that is not blank is a numbered step, nothing is
    skipped: the SubTasks are those lines in order, and their orders are
    1, 2, ... without a gap. *)
Theorem parser_orders_contiguous (text : str) (goal : Goal.t) :
  Forall (fun line => numbered_item_match line = true) (clean_lines text) ->
  exists l,
    _subtasks_from_llm_output text goal = Ok l
    /\ map SubTask.description l = clean_lines text
    /\ map SubTask.order l
       = map (fun k => 1 + Z.of_nat k) (seq 0 (length l)).
Proof.
  intros H. eexists. split; [apply parser_emits|].
  assert (E : retained text = enumerate 1 (clean_lines text)).
  { unfold retained. apply filter_all.
    pose proof (enumerate_snd (clean_lines text) 1) as Hs.
    apply List.Forall_forall. intros p Hin. unfold numbered.
    rewrite List.Forall_forall in H. apply H. rewrite <- Hs.
    apply List.in_map, Hin. }
  rewrite task_of_description, task_of_order, length_map, E.
  split; [apply enumerate_snd|].
  rewrite enumerate_fst, enumerate_length. reflexivity.
Qed.

Lemma parser_orders_contiguous_numbered_plan :
  exists l,
    _subtasks_from_llm_output numbered_plan a_goal = Ok l
    /\ map SubTask.description l = clean_lines numbered_plan
    /\ map SubTask.order l
       = map (fun k => 1 + Z.of_nat k) (seq 0 (length l)).
Proof.
  apply (parser_orders_contiguous numbered_plan a_goal).
  replace (clean_lines numbered_plan)
    with [lit "1. Buy domain"; lit "2. Write content"; lit "3. Publish site"]
    by (vm_compute; reflexivity).
  repeat constructor.
Defined.

(** ** From the plan to the record and back *)

Lemma task_of_valid goal text p :
  In p (retained text) -> SubTask_validate (task_of goal p) = true.
Proof.
  intros Hin.
  destruct (retained_in_clean_lines text p Hin) as (_ & Hm & Hlo & _).
  pose proof (SubTask_new_numbered (lit "task-" ++ str_of_int (fst p))
                (Goal.title goal) (snd p) (fst p) Hm Hlo) as Hnew.
  unfold SubTask_new in Hnew. cbv zeta in Hnew. unfold task_of.
  destruct (SubTask_validate _); [reflexivity | discriminate Hnew].
Qed.

Lemma digits_printable ds :
  forallb is_ascii_digit ds = true -> printable_text ds.
Proof.
  intros H. apply List.Forall_forall. intros c Hin.
  rewrite forallb_forall in H. specialize (H c Hin).
  apply digit_bounds in H.
  unfold is_printable. apply orb_true_iff. left.
  apply andb_true_iff. split; apply N.leb_le; lia.
Qed.

Lemma str_of_int_printable n : printable_text (str_of_int n).
Proof.
  destruct n as [|p|p].
  - repeat constructor.
  - rewrite str_of_int_pos. apply digits_printable, udigits_digits.
  - rewrite str_of_int_neg. constructor; [reflexivity|].
    apply digits_printable, udigits_digits.
Qed.

Lemma printable_unicode s : printable_text s -> unicode_text s.
Proof.
  apply List.Forall_impl. intros c H. unfold is_printable in H.
  unfold is_scalar. apply orb_true_iff. left. apply N.ltb_lt.
  rewrite orb_true_iff, andb_true_iff, !N.leb_le, N.eqb_eq in H. lia.
Qed.

Lemma planned_schedule_ok goal text :
  Goal_validate goal = true ->
  data_model_ok (Schedule.mk goal (map (task_of goal) (retained text))).
Proof.
  intros Hg. split; [exact Hg|]. split.
  - cbn [Schedule.subtasks]. apply List.Forall_map, List.Forall_forall.
    intros p Hin. apply (task_of_valid goal text p Hin).
  - pose proof (Schedule_new_parsed goal text) as H.
    unfold Schedule_new in H. cbv zeta in H.
    destruct (Schedule_validate _); [reflexivity | discriminate H].
Qed.

Lemma planned_schedule_unicode goal text :
  unicode_text (Goal.title goal) -> unicode_text (Goal.description goal) ->
  unicode_text text ->
  unicode_schedule (Schedule.mk goal (map (task_of goal) (retained text))).
Proof.
  intros Ht Hd Hx. split; [exact Ht|]. split; [exact Hd|].
  cbn [Schedule.subtasks]. apply List.Forall_map, List.Forall_forall.
  intros p Hin. destruct (retained_in_clean_lines text p Hin) as (Hc & _).
  unfold unicode_subtask, task_of.
  cbn [SubTask.id SubTask.goal_title SubTask.description].
  split; [|split; [exact Ht|]].
  - apply unicode_app; [repeat constructor|].
    apply printable_unicode, str_of_int_printable.
  - pose proof (clean_lines_Forall _ text Hx) as Hall.
    rewrite List.Forall_forall in Hall. apply (Hall _ Hc).
Qed.

(** X6: the Schedule [plan_and_execute] returns for a Goal with a title,
    when neither the Goal nor the collaborator's text holds a surrogate code
    point, meets the constraints of the data model, and [load_schedule]
    after [save_schedule] gives it back unchanged. *)
Theorem planned_schedule_survives_save_load
    (kickoff : str -> str -> result str) (goal : Goal.t) (text : str)
    (p : path) (now : datetime) (fs : filesystem) :
  Goal_validate goal = true ->
  unicode_text (Goal.title goal) -> unicode_text (Goal.description goal) ->
  kickoff (Goal.title goal) (Goal.description goal) = Ok text ->
  unicode_text text ->
  exists schedule,
    plan_and_execute kickoff goal = Ok schedule
    /\ data_model_ok schedule
    /\ load_schedule (save_schedule p schedule now fs) p = Ok schedule.
Proof.
  intros Hg Ht Hd Hk Hx. eexists.
  split; [apply (plan_and_execute_returns kickoff goal text Hk)|].
  pose proof (planned_schedule_ok goal text Hg) as Hok.
  split; [exact Hok|].
  rewrite save_schedule_writes. unfold load_schedule.
  rewrite lookup_insert_eq, record_reads_back
    by (apply unicode_schedule_storable, planned_schedule_unicode;
        assumption).
  cbn [bind getitem]. lookup. apply Schedule_validate_dump, Hok.
Qed.

Lemma planned_schedule_survives_save_load_scenario1 :
  exists schedule,
    plan_and_execute scenario1_planner a_goal = Ok schedule
    /\ data_model_ok schedule
    /\ load_schedule
         (save_schedule schedule_json schedule nine_o_clock fs_with_record)
         schedule_json
       = Ok schedule.
Proof.
  apply (planned_schedule_survives_save_load scenario1_planner a_goal
           scenario1 schedule_json nine_o_clock fs_with_record).
  - reflexivity.
  - repeat constructor.
  - repeat constructor.
  - reflexivity.
  - repeat constructor.
Defined.

(** ** More on the persistence gateway *)

(** X8: of a file that holds a well-formed JSON document, [load_schedule]
    reads the [schedule] member and nothing else: a document that is no
    object raises [TypeError], an object without the member raises
    [KeyError], and otherwise the outcome is that of validating the
    member. *)
Theorem load_schedule_reads_schedule_member
    (fs : filesystem) (p : path) (v : json) :
  json_ok v -> fs !! p = Some (json_dumps v) ->
  load_schedule fs p
  = match v with
    | JDict d =>
        match dict_get (lit "schedule") d with
        | Some data => Schedule_model_validate data
        | None => Raise (KeyError (lit "schedule"))
        end
    | _ => Raise TypeError
    end.
Proof.
  intros Hok Hp. unfold load_schedule. rewrite Hp, (json_loads_dumps v Hok).
  cbn [bind]. unfold getitem.
  destruct v as [ | b | n | l | s | items | d ]; try reflexivity.
  destruct (dict_get (lit "schedule") d); reflexivity.
Qed.

Lemma load_schedule_reads_schedule_member_missing :
  load_schedule (<[schedule_json := json_dumps record_without_schedule]> ∅)
    schedule_json
  = Raise (KeyError (lit "schedule")).
Proof.
  apply (load_schedule_reads_schedule_member
           (<[schedule_json := json_dumps record_without_schedule]> ∅)
           schedule_json record_without_schedule).
  - apply json_ok_dict. split; [|distinct_keys].
    constructor; [|constructor].
    split; [apply unicode_storable; repeat constructor
           | apply unicode_storable, isoformat_unicode].
  - apply lookup_insert_eq.
Defined.

(** ** The text of the record *)

Lemma float_free_list items :
  float_free (JList items) <-> Forall float_free items.
Proof.
  cbn [float_free]. induction items as [|x items IH].
  - split; [constructor | trivial].
  - rewrite IH. split.
    + intros [H1 H2]. constructor; assumption.
    + intros H. inversion H; subst. split; assumption.
Qed.

Lemma float_free_dict items :
  float_free (JDict items) <-> Forall (fun kv => float_free (snd kv)) items.
Proof.
  cbn [float_free]. induction items as [|x items IH].
  - split; [constructor | trivial].
  - rewrite IH. split.
    + intros [H1 H2]. constructor; assumption.
    + intros H. inversion H; subst. split; assumption.
Qed.

Lemma printable_app a b :
  printable_text a -> printable_text b -> printable_text (a ++ b).
Proof. intros Ha Hb. apply List.Forall_app. split; assumption. Qed.

Lemma hex_digit_printable n : (n < 16)%N -> is_printable (hex_digit n) = true.
Proof.
  intros H. unfold hex_digit, is_printable.
  destruct (N.ltb_spec n 10); apply orb_true_iff; left;
    apply andb_true_iff; split; apply N.leb_le; lia.
Qed.

Lemma hex4_printable n : printable_text (hex4 n).
Proof.
  unfold hex4.
  repeat (constructor; [apply hex_digit_printable, N.mod_lt; discriminate|]).
  constructor.
Qed.

Lemma escape_char_printable c : printable_text (escape_char c).
Proof.
  unfold escape_char.
  do 7 (match goal with
        | |- context [if (c =? ?k)%N then _ else _] =>
            destruct (c =? k)%N; [repeat constructor|]
        end).
  destruct ((32 <=? c) && (c <=? 126))%N eqn:E.
  { constructor; [|constructor]. unfold is_printable. rewrite E. reflexivity. }
  destruct (c <? 65536)%N.
  - constructor; [reflexivity|].
    apply printable_app; [repeat constructor | apply hex4_printable].
  - cbv zeta. constructor; [reflexivity|].
    apply printable_app; [repeat constructor|].
    apply printable_app; [apply hex4_printable|].
    constructor; [reflexivity|].
    apply printable_app; [repeat constructor | apply hex4_printable].
Qed.

Lemma encode_printable s : printable_text (encode_basestring_ascii s).
Proof.
  unfold encode_basestring_ascii. constructor; [reflexivity|].
  apply printable_app; [|repeat constructor].
  induction s as [|c s IH]; cbn [flat_map]; [constructor|].
  apply printable_app; [apply escape_char_printable | exact IH].
Qed.

Lemma newline_indent_printable level : printable_text (newline_indent level).
Proof.
  unfold newline_indent. constructor; [reflexivity|].
  apply List.Forall_forall. intros c H. apply repeat_spec in H. subst c.
  reflexivity.
Qed.

Lemma join_with_printable sep chunks :
  printable_text sep -> Forall printable_text chunks ->
  printable_text (join_with sep chunks).
Proof.
  intros Hsep. induction 1 as [|c chunks Hc Hchunks IH]; [constructor|].
  destruct chunks as [|c' chunks']; [exact Hc|].
  change (join_with sep (c :: c' :: chunks'))
    with (c ++ sep ++ join_with sep (c' :: chunks')).
  apply printable_app; [exact Hc|]. apply printable_app; [exact Hsep | exact IH].
Qed.

(** Whatever its strings hold, a document with no float is written with
    printable ASCII characters and newlines only. *)
Lemma dumps_printable : forall v level,
  float_free v -> printable_text (dumps_at level v).
Proof.
  assert (Hsep : forall level,
            printable_text (COMMA :: newline_indent level))
    by (intros level; constructor;
        [reflexivity | apply newline_indent_printable]).
  induction v as [ | b | n | l | s | items IH | items IH ]
    using json_nested_ind; intros level Hff.
  - repeat constructor.
  - destruct b; repeat constructor.
  - apply str_of_int_printable.
  - destruct Hff.
  - apply encode_printable.
  - destruct items as [|x xs]; [repeat constructor|].
    rewrite dumps_list_cons. apply float_free_list in Hff.
    apply printable_app; [repeat constructor|].
    apply printable_app; [apply newline_indent_printable|].
    apply printable_app;
      [|apply printable_app;
          [apply newline_indent_printable | repeat constructor]].
    apply join_with_printable; [apply Hsep|].
    apply List.Forall_map. rewrite List.Forall_forall in *.
    intros y Hy. apply IH; [exact Hy | apply Hff, Hy].
  - destruct items as [|kv kvs]; [repeat constructor|].
    rewrite dumps_dict_cons. apply float_free_dict in Hff.
    apply printable_app; [repeat constructor|].
    apply printable_app; [apply newline_indent_printable|].
    apply printable_app;
      [|apply printable_app;
          [apply newline_indent_printable | repeat constructor]].
    apply join_with_printable; [apply Hsep|].
    apply List.Forall_map. rewrite List.Forall_forall in *.
    intros y Hy. cbv beta.
    apply printable_app; [apply encode_printable|].
    apply printable_app; [repeat constructor|].
    apply IH; [exact Hy | apply Hff, Hy].
Qed.

Lemma SubTask_dump_float_free t : float_free (SubTask_model_dump t).
Proof.
  unfold SubTask_model_dump. apply float_free_dict.
  repeat (constructor; [cbn [snd]|]); try exact I; try constructor.
  - destruct (SubTask.estimate_minutes t); exact I.
  - destruct (SubTask.scheduled_start t); exact I.
  - destruct (SubTask.scheduled_end t); exact I.
Qed.

Lemma record_float_free schedule now :
  float_free
    (JDict [ (lit "saved_at", JStr (isoformat now));
             (lit "schedule", Schedule_model_dump schedule) ]).
Proof.
  apply float_free_dict. constructor; [exact I|]. constructor; [|constructor].
  cbn [snd]. unfold Schedule_model_dump. apply float_free_dict.
  constructor; [cbn; tauto|]. constructor; [|constructor].
  cbn [snd]. apply float_free_list, List.Forall_map, List.Forall_forall.
  intros t _. apply SubTask_dump_float_free.
Qed.

(** X9: the file [save_schedule] leaves at its path holds printable ASCII
    characters and newlines only, whatever characters the strings of the
    Schedule hold. *)
Theorem saved_record_is_printable_ascii
    (p : path) (schedule : Schedule.t) (now : datetime) (fs : filesystem) :
  exists text,
    save_schedule p schedule now fs !! p = Some text
    /\ Forall (fun c => (32 <= c <= 126)%N \/ c = LF) text.
Proof.
  exists (record_text schedule now).
  split; [rewrite save_schedule_writes; apply lookup_insert_eq|].
  eapply List.Forall_impl;
    [|apply (dumps_printable _ 0 (record_float_free schedule now))].
  intros c H. unfold is_printable in H.
  rewrite orb_true_iff, andb_true_iff, !N.leb_le, N.eqb_eq in H.
  unfold LF. lia.
Qed.

(** ** The readable export *)

Lemma readable_loop_emits tasks : forall idx lines,
  Forall (fun t => SubTask.scheduled_start t <> None) tasks ->
  readable_loop idx tasks lines
  = Ok (lines ++ flat_map entry_lines (enumerate idx tasks)).
Proof.
  induction tasks as [|task rest IH]; intros idx lines H;
    cbn [readable_loop enumerate flat_map].
  - rewrite app_nil_r. reflexivity.
  - inversion H as [|t0 l0 Hs Hrest]; subst. cbv zeta.
    unfold entry_lines at 1. cbn [fst snd].
    destruct (SubTask.scheduled_start task) as [start|]; [|contradiction].
    rewrite IH by exact Hrest. rewrite <- !app_assoc. reflexivity.
Qed.

Lemma readable_loop_outcome tasks : forall idx lines,
  match readable_loop idx tasks lines with
  | Ok _ => Forall (fun t => SubTask.scheduled_start t <> None) tasks
  | Raise e =>
      e = TypeError
      /\ Exists (fun t => SubTask.scheduled_start t = None) tasks
  end.
Proof.
  induction tasks as [|task rest IH]; intros idx lines; cbn [readable_loop].
  - constructor.
  - cbv zeta. destruct (SubTask.scheduled_start task) as [start|] eqn:E.
    + match goal with
      | |- match readable_loop ?i rest ?l with _ => _ end =>
          specialize (IH i l); destruct (readable_loop i rest l)
      end.
      * constructor; [congruence | exact IH].
      * destruct IH as [-> Hex]. split; [reflexivity|].
        apply Exists_cons_tl, Hex.
    + split; [reflexivity|]. apply Exists_cons_hd, E.
Qed.

Lemma entries_length tasks : forall idx,
  length (flat_map entry_lines (enumerate idx tasks))
  = (4 * length tasks)%nat.
Proof.
  induction tasks as [|task rest IH]; intros idx; [reflexivity|].
  cbn [enumerate flat_map]. rewrite length_app, IH. cbn [entry_lines length].
  lia.
Qed.

(** The lines of the SubTask at index [k] start at index [4 * k]. *)
Lemma entries_nth tasks : forall idx k t j,
  nth_error tasks k = Some t -> (j < 4)%nat ->
  nth_error (flat_map entry_lines (enumerate idx tasks)) (4 * k + j)
  = nth_error (entry_lines (idx + Z.of_nat k, t)) j.
Proof.
  induction tasks as [|task rest IH]; intros idx k t j Hk Hj;
    [destruct k; discriminate|].
  cbn [enumerate flat_map]. destruct k as [|k].
  - injection Hk as ->. rewrite Z.add_0_r.
    rewrite nth_error_app1 by (cbn [entry_lines length]; lia). reflexivity.
  - cbn [nth_error] in Hk.
    rewrite nth_error_app2 by (cbn [entry_lines length]; lia).
    replace (4 * S k + j - length (entry_lines (idx, task)))%nat
      with (4 * k + j)%nat by (cbn [entry_lines length]; lia).
    rewrite (IH (idx + 1) k t j Hk Hj). do 3 f_equal. lia.
Qed.

(** X10: for a Schedule whose SubTasks all have a start, the readable export
    is the line of the Goal, an empty line, and four lines per SubTask in
    list order: the description numbered by its position in the list
    (whatever its [order]), the start to the minute, the estimate, and an
    empty line. *)
Theorem readable_lines_layout (goal : Goal.t) (schedule : Schedule.t) :
  Forall (fun t => SubTask.scheduled_start t <> None)
    (Schedule.subtasks schedule) ->
  exists lines,
    readable_lines goal schedule = Ok lines
    /\ length lines = (2 + 4 * length (Schedule.subtasks schedule))%nat
    /\ nth_error lines 0 = Some (lit "Goal: " ++ Goal.title goal)
    /\ nth_error lines 1 = Some []
    /\ forall k t,
         nth_error (Schedule.subtasks schedule) k = Some t ->
         nth_error lines (2 + 4 * k)
         = Some (str_of_int (Z.of_nat k + 1) ++ lit ". "
                 ++ SubTask.description t)
         /\ (exists start,
               SubTask.scheduled_start t = Some start
               /\ nth_error lines (3 + 4 * k)
                  = Some (lit "   - Start: " ++ strftime_minute start))
         /\ nth_error lines (4 + 4 * k)
            = Some (lit "   - Estimate: " ++ estimate_text t)
         /\ nth_error lines (5 + 4 * k) = Some [].
Proof.
  intros H. eexists. split; [apply readable_loop_emits, H|].
  split; [cbn [app length]; rewrite entries_length; reflexivity|].
  split; [reflexivity|]. split; [reflexivity|].
  intros k t Hk.
  assert (E : forall j, (j < 4)%nat ->
            nth_error
              ([lit "Goal: " ++ Goal.title goal; []]
               ++ flat_map entry_lines
                    (enumerate 1 (Schedule.subtasks schedule)))
              (2 + (4 * k + j))
            = nth_error (entry_lines (1 + Z.of_nat k, t)) j).
  { intros j Hj. cbn [app Nat.add nth_error]. apply entries_nth; assumption. }
  replace (2 + 4 * k)%nat with (2 + (4 * k + 0))%nat by lia.
  replace (3 + 4 * k)%nat with (2 + (4 * k + 1))%nat by lia.
  replace (4 + 4 * k)%nat with (2 + (4 * k + 2))%nat by lia.
  replace (5 + 4 * k)%nat with (2 + (4 * k + 3))%nat by lia.
  rewrite !E by lia. cbn [entry_lines nth_error fst snd].
  replace (1 + Z.of_nat k) with (Z.of_nat k + 1) by lia.
  split; [reflexivity|]. split; [|split; reflexivity].
  rewrite List.Forall_forall in H.
  specialize (H t (nth_error_In _ _ Hk)).
  destruct (SubTask.scheduled_start t) as [start|]; [|contradiction].
  exists start. split; reflexivity.
Qed.

Lemma readable_lines_layout_scenario3 :
  exists lines,
    readable_lines a_goal scenario3_blocked = Ok lines
    /\ length lines
       = (2 + 4 * length (Schedule.subtasks scenario3_blocked))%nat
    /\ nth_error lines 0 = Some (lit "Goal: " ++ Goal.title a_goal)
    /\ nth_error lines 1 = Some []
    /\ forall k t,
         nth_error (Schedule.subtasks scenario3_blocked) k = Some t ->
         nth_error lines (2 + 4 * k)
         = Some (str_of_int (Z.of_nat k + 1) ++ lit ". "
                 ++ SubTask.description t)
         /\ (exists start,
               SubTask.scheduled_start t = Some start
               /\ nth_error lines (3 + 4 * k)
                  = Some (lit "   - Start: " ++ strftime_minute start))
         /\ nth_error lines (4 + 4 * k)
            = Some (lit "   - Estimate: " ++ estimate_text t)
         /\ nth_error lines (5 + 4 * k) = Some [].
Proof.
  apply (readable_lines_layout a_goal scenario3_blocked).
  vm_compute. repeat (constructor; [discriminate|]). constructor.
Defined.

(** X11: when some SubTask has no start, the readable export is not built:
    making its lines raises. *)
Theorem readable_lines_needs_start (goal : Goal.t) (schedule : Schedule.t) :
  Exists (fun t => SubTask.scheduled_start t = None)
    (Schedule.subtasks schedule) ->
  exists e, readable_lines goal schedule = Raise e.
Proof.
  intros Hex.
  pose proof (readable_loop_outcome (Schedule.subtasks schedule) 1
                [lit "Goal: " ++ Goal.title goal; []]) as H.
  fold (readable_lines goal schedule) in H.
  destruct (readable_lines goal schedule) as [lines|e]; [|exists e; reflexivity].
  apply List.Exists_exists in Hex as (t & Hin & Ht).
  rewrite List.Forall_forall in H. destruct (H t Hin Ht).
Qed.

Lemma readable_lines_needs_start_scenario3 :
  exists e, readable_lines a_goal scenario3 = Raise e.
Proof.
  apply (readable_lines_needs_start a_goal scenario3).
  apply Exists_cons_hd. reflexivity.
Defined.

(** ** A record cut short *)

Lemma scanstring_u_plain h1 h2 h3 h4 uni r acc :
  unhex4 h1 h2 h3 h4 = Some uni ->
  match r with
  | b :: u :: _ =>
      is_high_surrogate uni && (b =? BACKSLASH)%N && (u =? 117)%N = false
  | _ => True
  end ->
  scanstring (BACKSLASH :: 117%N :: h1 :: h2 :: h3 :: h4 :: r) acc
  = scanstring r (uni :: acc).
Proof.
  intros Hu Hr. cbn [scanstring].
  change (BACKSLASH =? QUOTE)%N with false.
  change (BACKSLASH =? BACKSLASH)%N with true.
  change (117 =? 117)%N with true. cbv iota.
  rewrite Hu.
  destruct r as [|b [|u [|g1 [|g2 [|g3 [|g4 r3]]]]]]; try reflexivity.
  rewrite Hr. reflexivity.
Qed.

Lemma scanstring_u_short l acc :
  (length l < 4)%nat -> scanstring (BACKSLASH :: 117%N :: l) acc = Raise JSONDecodeError.
Proof.
  intros H. destruct l as [|h1 [|h2 [|h3 [|h4 r]]]]; try reflexivity.
  simpl in H. lia.
Qed.

Lemma scanstring_u_pair h1 h2 h3 h4 uni g1 g2 g3 g4 r acc :
  unhex4 h1 h2 h3 h4 = Some uni -> is_high_surrogate uni = true ->
  scanstring (BACKSLASH :: 117%N :: h1 :: h2 :: h3 :: h4
              :: BACKSLASH :: 117%N :: g1 :: g2 :: g3 :: g4 :: r) acc
  = match unhex4 g1 g2 g3 g4 with
    | None => Raise JSONDecodeError
    | Some uni2 =>
        if is_low_surrogate uni2
        then scanstring r
               ((65536 + N.lor (N.shiftl (uni - 55296) 10) (uni2 - 56320))%N
                :: acc)
        else scanstring (BACKSLASH :: 117%N :: g1 :: g2 :: g3 :: g4 :: r)
               (uni :: acc)
    end.
Proof.
  intros Hu Hh. cbn [scanstring].
  change (BACKSLASH =? QUOTE)%N with false.
  change (BACKSLASH =? BACKSLASH)%N with true.
  change (117 =? 117)%N with true. cbv iota.
  rewrite Hu, Hh. cbn [andb]. reflexivity.
Qed.

(** Replacing the left-hand side of [H], or of the goal, by means of the
    equation [E]. *)
Ltac step_in E H :=
  let H' := fresh in
  pose proof (eq_trans (eq_sym E) H) as H'; clear H; rename H' into H.
Ltac step E := refine (eq_trans E _).

(** A string that is read from a text is read the same way from any longer
    text. *)
Lemma scanstring_ext s : forall acc x rest q,
  scanstring s acc = Ok (x, rest) ->
  scanstring (s ++ q) acc = Ok (x, rest ++ q).
Proof.
  induction s as [s IH] using (induction_ltof1 _ (@List.length char)).
  unfold ltof in IH. intros acc x rest q H.
  destruct s as [|c s1]; [discriminate H|].
  destruct (N.eqb_spec c QUOTE) as [->|Nq].
  { cbn [scanstring app] in *. change (QUOTE =? QUOTE)%N with true in *.
    cbv iota in *. injection H as <- <-. reflexivity. }
  destruct (N.eqb_spec c BACKSLASH) as [->|Nb].
  2:{ destruct (N.ltb_spec c 32) as [L|L].
      - cbn [scanstring] in H.
        rewrite (proj2 (N.eqb_neq _ _) Nq), (proj2 (N.eqb_neq _ _) Nb),
          (proj2 (N.ltb_lt _ _) L) in H.
        discriminate H.
      - rewrite scanstring_plain in H by assumption. cbn [app].
        rewrite scanstring_plain by assumption.
        apply IH; [simpl; lia | exact H]. }
  destruct s1 as [|esc s2]; [discriminate H|].
  destruct (N.eqb_spec esc 117) as [->|Nu].
  2:{ cbn [scanstring app] in *.
      change (BACKSLASH =? QUOTE)%N with false in *.
      change (BACKSLASH =? BACKSLASH)%N with true in *.
      rewrite (proj2 (N.eqb_neq _ _) Nu) in *. cbv iota in *.
      destruct (unescape esc); [|discriminate H].
      apply IH; [simpl; lia | exact H]. }
  destruct s2 as [|h1 [|h2 [|h3 [|h4 r2]]]]; try discriminate H.
  destruct (unhex4 h1 h2 h3 h4) as [uni|] eqn:Hu.
  2:{ cbn [scanstring] in H.
      change (BACKSLASH =? QUOTE)%N with false in H.
      change (BACKSLASH =? BACKSLASH)%N with true in H.
      change (117 =? 117)%N with true in H. cbv iota in H.
      rewrite Hu in H. discriminate H. }
  cbn [app].
  destruct r2 as [|b r2].
  { step_in (scanstring_u_plain _ _ _ _ uni [] acc Hu I) H.
    discriminate H. }
  destruct (is_high_surrogate uni && (b =? BACKSLASH)%N) eqn:Ehb.
  2:{ assert (C : forall tl,
                match b :: tl with
                | b0 :: u :: _ =>
                    is_high_surrogate uni && (b0 =? BACKSLASH)%N
                    && (u =? 117)%N = false
                | _ => True
                end).
      { intros [|u tl]; [exact I|]. rewrite Ehb. reflexivity. }
      step_in (scanstring_u_plain _ _ _ _ uni (b :: r2) acc Hu (C r2)) H.
      cbn [app].
      step (scanstring_u_plain _ _ _ _ uni (b :: r2 ++ q) acc Hu (C (r2 ++ q))).
      apply (IH (b :: r2)); [simpl; lia | exact H]. }
  apply andb_true_iff in Ehb as [Eh Eb]. apply N.eqb_eq in Eb. subst b.
  destruct r2 as [|u r2].
  { step_in (scanstring_u_plain _ _ _ _ uni [BACKSLASH] acc Hu I) H.
    discriminate H. }
  destruct (N.eqb_spec u 117) as [->|Nu].
  2:{ assert (C : forall tl,
                match BACKSLASH :: u :: tl with
                | b0 :: u0 :: _ =>
                    is_high_surrogate uni && (b0 =? BACKSLASH)%N
                    && (u0 =? 117)%N = false
                | _ => True
                end).
      { intros tl. rewrite (proj2 (N.eqb_neq _ _) Nu). apply andb_false_r. }
      step_in (scanstring_u_plain _ _ _ _ uni (BACKSLASH :: u :: r2) acc Hu (C r2)) H.
      cbn [app].
      step (scanstring_u_plain _ _ _ _ uni (BACKSLASH :: u :: r2 ++ q) acc Hu (C (r2 ++ q))).
      apply (IH (BACKSLASH :: u :: r2)); [simpl; lia | exact H]. }
  destruct r2 as [|g1 [|g2 [|g3 [|g4 r3]]]].
  1-4: (cbn [scanstring] in H;
        change (BACKSLASH =? QUOTE)%N with false in H;
        change (BACKSLASH =? BACKSLASH)%N with true in H;
        change (117 =? 117)%N with true in H; cbv iota in H;
        rewrite Hu in H; discriminate H).
  step_in (scanstring_u_pair _ _ _ _ uni g1 g2 g3 g4 r3 acc Hu Eh) H.
  cbn [app]. step (scanstring_u_pair _ _ _ _ uni g1 g2 g3 g4 (r3 ++ q) acc Hu Eh).
  destruct (unhex4 g1 g2 g3 g4) as [uni2|]; [|discriminate H].
  destruct (is_low_surrogate uni2).
  - apply IH; [simpl; lia | exact H].
  - apply (IH (BACKSLASH :: 117%N :: g1 :: g2 :: g3 :: g4 :: r3));
      [simpl; lia | exact H].
Qed.

Lemma dropwhile_ext {A} (p : A -> bool) s c r q :
  dropwhile p s = c :: r -> dropwhile p (s ++ q) = c :: r ++ q.
Proof.
  induction s as [|a s IH]; simpl; [discriminate|].
  destruct (p a); [exact IH|]. intros [= <- <-]. reflexivity.
Qed.

Lemma skip_ws_ext s c r q :
  skip_ws s = c :: r -> skip_ws (s ++ q) = c :: r ++ q.
Proof. apply dropwhile_ext. Qed.

Lemma skip_ws_terminated s c r :
  skip_ws s = c :: r -> c = COMMA \/ c = 93%N \/ c = 125%N -> terminated s.
Proof.
  destruct s as [|a s]; [discriminate|]. unfold skip_ws. cbn [dropwhile].
  destruct (is_json_ws a) eqn:E; [intros _ _; left; exact E|].
  intros [= <- _] H. right. exact H.
Qed.

Lemma span_digits_ext s : forall ds r q,
  span_digits s = (ds, r) -> r <> [] -> span_digits (s ++ q) = (ds, r ++ q).
Proof.
  induction s as [|a s IH]; intros ds r q; cbn [span_digits app].
  - intros [= <- <-] H. contradiction.
  - destruct (is_ascii_digit a).
    + destruct (span_digits s) as [ds' r'] eqn:E. intros [= <- <-] Hr.
      rewrite (IH ds' r' q eq_refl Hr). reflexivity.
    + intros [= <- <-] _. reflexivity.
Qed.

Lemma span_integer_ext s neg ds r q :
  span_integer s = Some (neg, ds, r) -> r <> [] ->
  span_integer (s ++ q) = Some (neg, ds, r ++ q).
Proof.
  assert (body : forall neg0 (s0 : str),
            match s0 with
            | c :: rest =>
                if (c =? 48)%N then Some (neg0, [c], rest)
                else if is_ascii_digit c then
                  let (ds, r) := span_digits rest in Some (neg0, c :: ds, r)
                else None
            | [] => None
            end = Some (neg, ds, r) -> r <> [] ->
            match s0 ++ q with
            | c :: rest =>
                if (c =? 48)%N then Some (neg0, [c], rest)
                else if is_ascii_digit c then
                  let (ds, r) := span_digits rest in Some (neg0, c :: ds, r)
                else None
            | [] => None
            end = Some (neg, ds, r ++ q)).
  { intros neg0 [|c rest]; [discriminate|]. cbn [app].
    destruct (c =? 48)%N; [intros [= <- <- <-] _; reflexivity|].
    destruct (is_ascii_digit c); [|discriminate].
    destruct (span_digits rest) as [ds' r'] eqn:E. intros [= <- <- <-] Hr.
    rewrite (span_digits_ext rest ds' r' q E Hr). reflexivity. }
  unfold span_integer. destruct s as [|c rest]; [discriminate|]. cbn [app].
  destruct (c =? DASH)%N; [apply body | apply (body false (c :: rest))].
Qed.

Lemma span_frac_ext r frac r1 q :
  span_frac r = (frac, r1) -> r1 <> [] -> (forall tl, r1 <> DOT :: tl) ->
  span_frac (r ++ q) = (frac, r1 ++ q).
Proof.
  unfold span_frac. destruct r as [|c rest];
    [intros [= <- <-] H; contradiction|].
  cbn [app]. destruct (N.eqb_spec c DOT) as [->|Nd].
  - destruct (span_digits rest) as [ds r'] eqn:E. destruct ds as [|d ds].
    + intros [= <- <-] _ Hd. destruct (Hd rest eq_refl).
    + intros [= <- <-] Hr _. rewrite (span_digits_ext rest _ _ q E Hr).
      reflexivity.
  - intros [= <- <-] _ _. reflexivity.
Qed.

Lemma span_frac_nonempty r frac r1 :
  span_frac r = (frac, r1) -> r1 <> [] -> r <> [].
Proof. destruct r; [intros [= <- <-] H; contradiction | discriminate]. Qed.

(** What [span_exp] leaves is the whole text, unless the text starts with
    the letter of an exponent. *)
Lemma span_exp_rest r1 exp rest :
  span_exp r1 = (exp, rest) ->
  rest = r1
  \/ exists c tl, r1 = c :: tl /\ ((c =? 101) || (c =? 69))%N = true.
Proof.
  unfold span_exp. destruct r1 as [|c tl]; [intros [= <- <-]; left; reflexivity|].
  destruct ((c =? 101) || (c =? 69))%N eqn:E.
  - intros _. right. exists c, tl. split; [reflexivity | exact E].
  - intros [= <- <-]. left. reflexivity.
Qed.

Lemma span_exp_ext r1 exp rest q :
  span_exp r1 = (exp, rest) -> rest <> [] ->
  (forall c tl, rest = c :: tl -> ((c =? 101) || (c =? 69))%N = false) ->
  span_exp (r1 ++ q) = (exp, rest ++ q).
Proof.
  unfold span_exp. destruct r1 as [|c tl];
    [intros [= <- <-] H; contradiction|].
  cbn [app]. destruct ((c =? 101) || (c =? 69))%N eqn:E.
  2:{ intros [= <- <-] _ _. reflexivity. }
  assert (digits : forall (sign rest1 whole : str),
            (exists tl', whole = c :: tl') ->
            match span_digits rest1 with
            | ([], _) => ([], whole)
            | (ds, r) => (c :: sign ++ ds, r)
            end = (exp, rest) ->
            rest <> [] ->
            (forall c tl, rest = c :: tl
                          -> ((c =? 101) || (c =? 69))%N = false) ->
            match span_digits (rest1 ++ q) with
            | ([], _) => ([], whole ++ q)
            | (ds, r) => (c :: sign ++ ds, r)
            end = (exp, rest ++ q)).
  { intros sign rest1 whole [tl' ->].
    destruct (span_digits rest1) as [ds r] eqn:Ed. destruct ds as [|d ds].
    - intros [= <- <-] _ Hh. rewrite (Hh c tl' eq_refl) in E. discriminate E.
    - intros [= <- <-] Hr _. rewrite (span_digits_ext rest1 _ _ q Ed Hr).
      reflexivity. }
  destruct tl as [|g rest1].
  - intros [= <- <-] _ Hh. rewrite (Hh c [] eq_refl) in E. discriminate E.
  - cbn [app]. destruct ((g =? 43) || (g =? 45))%N.
    + apply (digits [g] rest1 (c :: g :: rest1)). eexists; reflexivity.
    + apply (digits [] (g :: rest1) (c :: g :: rest1)). eexists; reflexivity.
Qed.

Lemma terminated_head rest :
  terminated rest ->
  rest <> [] /\ (forall tl, rest <> DOT :: tl)
  /\ (forall c tl, rest = c :: tl -> ((c =? 101) || (c =? 69))%N = false).
Proof.
  destruct rest as [|c tl]; [contradiction|]. unfold terminated, is_json_ws.
  intros H. split; [discriminate|].
  assert (Hc : c <> DOT /\ c <> 101%N /\ c <> 69%N).
  { rewrite !orb_true_iff, !N.eqb_eq in H. unfold COMMA, DOT in *.
    repeat split; intros ->; intuition discriminate. }
  destruct Hc as (H1 & H2 & H3). split.
  - intros tl' [= E _]. contradiction.
  - intros c' tl' [= <- _]. apply orb_false_iff. split; apply N.eqb_neq; assumption.
Qed.

(** A number that is read before a terminating character is read the same
    way from any longer text. *)
Lemma scan_number_ext s v rest q :
  scan_number s = Ok (v, rest) -> terminated rest ->
  scan_number (s ++ q) = Ok (v, rest ++ q).
Proof.
  unfold scan_number.
  destruct (span_integer s) as [[[neg ds] r]|] eqn:Ei; [|discriminate].
  destruct (span_frac r) as [frac r1] eqn:Ef.
  destruct (span_exp r1) as [exp r2] eqn:Ee.
  intros H Ht.
  assert (E : rest = r2) by (destruct frac, exp; injection H; auto).
  subst r2. destruct (terminated_head rest Ht) as (Hne & Hdot & Hexp).
  assert (H1 : r1 <> [] /\ forall tl, r1 <> DOT :: tl).
  { destruct (span_exp_rest r1 exp rest Ee) as [<- | (c & tl & -> & Hc)];
      [split; assumption|].
    split; [discriminate|]. intros tl' [= -> _]. discriminate Hc. }
  destruct H1 as [Hr1 Hr1dot].
  pose proof (span_frac_nonempty r frac r1 Ef Hr1) as Hr.
  rewrite (span_integer_ext s neg ds r q Ei Hr).
  rewrite (span_frac_ext r frac r1 q Ef Hr1 Hr1dot).
  rewrite (span_exp_ext r1 exp rest q Ee Hne Hexp).
  destruct frac, exp; injection H as <- ; reflexivity.
Qed.

Lemma strip_prefix_ext p : forall s r q,
  strip_prefix p s = Some r -> strip_prefix p (s ++ q) = Some (r ++ q).
Proof.
  induction p as [|a p IH]; intros s r q; cbn [strip_prefix].
  - intros [= <-]. reflexivity.
  - destruct s as [|b s]; [discriminate|]. cbn [app].
    destruct (a =? b)%N; [apply IH | discriminate].
Qed.

Lemma strip_prefix_cons a p c (s : str) :
  strip_prefix (a :: p) (c :: s)
  = if (a =? c)%N then strip_prefix p s else None.
Proof. reflexivity. Qed.

(** A literal or a number that is read before a terminating character is
    read the same way from any longer text. *)
Lemma scan_scalar_ext (s : str) v rest (q : str) :
  scan_scalar s = Ok (v, rest) -> terminated rest ->
  scan_scalar (s ++ q) = Ok (v, rest ++ q).
Proof.
  intros H Ht. destruct s as [|c s1]; [discriminate H|].
  unfold scan_scalar in *. cbn [app].
  change (lit "null") with (110 :: lit "ull")%N in *.
  change (lit "true") with (116 :: lit "rue")%N in *.
  change (lit "false") with (102 :: lit "alse")%N in *.
  change (lit "NaN") with (78 :: lit "aN")%N in *.
  change (lit "Infinity") with (73 :: lit "nfinity")%N in *.
  change (lit "-Infinity") with (45 :: lit "Infinity")%N in *.
  rewrite !strip_prefix_cons in *.
  destruct (N.eqb_spec 110 c) as [<-|N1].
  { cbn [N.eqb Pos.eqb] in *. cbv iota in *.
    destruct (strip_prefix (lit "ull") s1) as [r|] eqn:E.
    - rewrite (strip_prefix_ext _ _ _ q E). injection H as <- <-. reflexivity.
    - vm_compute in H. discriminate H. }
  destruct (N.eqb_spec 116 c) as [<-|N2].
  { cbn [N.eqb Pos.eqb] in *. cbv iota in *.
    destruct (strip_prefix (lit "rue") s1) as [r|] eqn:E.
    - rewrite (strip_prefix_ext _ _ _ q E). injection H as <- <-. reflexivity.
    - vm_compute in H. discriminate H. }
  destruct (N.eqb_spec 102 c) as [<-|N3].
  { cbn [N.eqb Pos.eqb] in *. cbv iota in *.
    destruct (strip_prefix (lit "alse") s1) as [r|] eqn:E.
    - rewrite (strip_prefix_ext _ _ _ q E). injection H as <- <-. reflexivity.
    - vm_compute in H. discriminate H. }
  destruct (N.eqb_spec 78 c) as [<-|N4].
  { cbn [N.eqb Pos.eqb] in *. cbv iota in *.
    destruct (strip_prefix (lit "aN") s1) as [r|] eqn:E.
    - rewrite (strip_prefix_ext _ _ _ q E). injection H as <- <-. reflexivity.
    - vm_compute in H. discriminate H. }
  destruct (N.eqb_spec 73 c) as [<-|N5].
  { cbn [N.eqb Pos.eqb] in *. cbv iota in *.
    destruct (strip_prefix (lit "nfinity") s1) as [r|] eqn:E.
    - rewrite (strip_prefix_ext _ _ _ q E). injection H as <- <-. reflexivity.
    - vm_compute in H. discriminate H. }
  destruct (N.eqb_spec 45 c) as [<-|N6].
  { cbv iota in *.
    destruct (strip_prefix (lit "Infinity") s1) as [r|] eqn:E.
    - rewrite (strip_prefix_ext _ _ _ q E). injection H as <- <-. reflexivity.
    - destruct s1 as [|d s2]; [vm_compute in H; discriminate H|].
      change (lit "Infinity") with (73 :: lit "nfinity")%N in *.
      cbn [app]. rewrite strip_prefix_cons in *.
      destruct (N.eqb_spec 73 d) as [<-|N7];
        [vm_compute in H; discriminate H|].
      apply (scan_number_ext (45%N :: d :: s2) v rest q H Ht). }
  cbv iota in *. apply (scan_number_ext (c :: s1) v rest q H Ht).
Qed.

Lemma scan_once_nil fuel : scan_once fuel [] = Raise JSONDecodeError.
Proof. destruct fuel; reflexivity. Qed.

Lemma array_loop_nil fuel acc : array_loop fuel [] acc = Raise JSONDecodeError.
Proof.
  destruct fuel as [|fuel]; [reflexivity|]. cbn [array_loop].
  rewrite scan_once_nil. reflexivity.
Qed.

(** What is read from a text is read the same way from any longer text: for
    a value when the text opens a string, an array or an object, or when a
    terminating character follows the value. *)
Lemma scan_ext : forall fuel,
  (forall s v rest q,
     scan_once fuel s = Ok (v, rest) -> terminated rest \/ delimited s ->
     scan_once fuel (s ++ q) = Ok (v, rest ++ q))
  /\ (forall s acc v rest q,
        array_loop fuel s acc = Ok (v, rest) ->
        array_loop fuel (s ++ q) acc = Ok (v, rest ++ q))
  /\ (forall s acc v rest q,
        object_loop fuel s acc = Ok (v, rest) ->
        object_loop fuel (s ++ q) acc = Ok (v, rest ++ q)).
Proof.
  induction fuel as [|f (IHs & IHa & IHo)];
    [repeat split; intros; discriminate|].
  split; [|split].
  - intros s v rest q H Hc. destruct s as [|c s1]; [discriminate H|].
    cbn [scan_once app] in H |- *.
    destruct (N.eqb_spec c QUOTE) as [->|N1].
    { destruct (scanstring s1 []) as [[x r]|] eqn:Es; [|discriminate H].
      cbn [bind fst snd] in H. injection H as <- <-.
      rewrite (scanstring_ext _ _ _ _ q Es). reflexivity. }
    destruct (N.eqb_spec c 123) as [->|N2].
    { destruct (skip_ws s1) as [|c' r'] eqn:Ew; [discriminate H|].
      rewrite (skip_ws_ext _ _ _ q Ew).
      destruct (c' =? 125)%N; [injection H as <- <-; reflexivity|].
      destruct (c' =? QUOTE)%N; [|discriminate H]. apply IHo, H. }
    destruct (N.eqb_spec c 91) as [->|N3].
    { destruct (skip_ws s1) as [|c' r'] eqn:Ew; [discriminate H|].
      rewrite (skip_ws_ext _ _ _ q Ew).
      destruct (c' =? 93)%N; [injection H as <- <-; reflexivity|].
      apply (IHa (c' :: r')), H. }
    apply (scan_scalar_ext (c :: s1) v rest q H).
    destruct Hc as [Ht | [Hq | [Hb | Hb]]]; [exact Ht | contradiction..].
  - intros s acc v rest q H. cbn [array_loop] in H |- *.
    destruct (scan_once f s) as [[v1 r1]|] eqn:Es; [|discriminate H].
    cbn [bind fst snd] in H.
    destruct (skip_ws r1) as [|c r] eqn:Ew; [discriminate H|].
    assert (Hc : c = COMMA \/ c = 93%N \/ c = 125%N).
    { destruct (N.eqb_spec c 93); [tauto|].
      destruct (N.eqb_spec c COMMA); [tauto | discriminate H]. }
    rewrite (IHs s v1 r1 q Es (or_introl (skip_ws_terminated _ _ _ Ew Hc))).
    cbn [bind fst snd]. rewrite (skip_ws_ext _ _ _ q Ew).
    destruct (c =? 93)%N; [injection H as <- <-; reflexivity|].
    destruct (c =? COMMA)%N; [|discriminate H].
    destruct (skip_ws r) as [|c2 r2] eqn:Ew2;
      [rewrite array_loop_nil in H; discriminate H|].
    rewrite (skip_ws_ext _ _ _ q Ew2). apply (IHa (c2 :: r2)), H.
  - intros s acc v rest q H. cbn [object_loop] in H |- *.
    destruct (scanstring s []) as [[k rk]|] eqn:Es; [|discriminate H].
    rewrite (scanstring_ext _ _ _ _ q Es). cbn [bind fst snd] in H |- *.
    destruct (skip_ws rk) as [|c r] eqn:Ew; [discriminate H|].
    rewrite (skip_ws_ext _ _ _ q Ew).
    destruct (c =? COLON)%N; [|discriminate H].
    destruct (skip_ws r) as [|c2 r2] eqn:Ew2;
      [rewrite scan_once_nil in H; discriminate H|].
    rewrite (skip_ws_ext _ _ _ q Ew2).
    destruct (scan_once f (c2 :: r2)) as [[v1 r1]|] eqn:Ev; [|discriminate H].
    cbn [bind fst snd] in H.
    destruct (skip_ws r1) as [|c3 r3] eqn:Ew3; [discriminate H|].
    assert (Hc : c3 = COMMA \/ c3 = 93%N \/ c3 = 125%N).
    { destruct (N.eqb_spec c3 125); [tauto|].
      destruct (N.eqb_spec c3 COMMA); [tauto | discriminate H]. }
    change (c2 :: r2 ++ q) with ((c2 :: r2) ++ q).
    rewrite (IHs (c2 :: r2) v1 r1 q Ev
               (or_introl (skip_ws_terminated _ _ _ Ew3 Hc))).
    cbn [bind fst snd]. rewrite (skip_ws_ext _ _ _ q Ew3).
    destruct (c3 =? 125)%N; [injection H as <- <-; reflexivity|].
    destruct (c3 =? COMMA)%N; [|discriminate H].
    destruct (skip_ws r3) as [|c4 r4] eqn:Ew4; [discriminate H|].
    rewrite (skip_ws_ext _ _ _ q Ew4).
    destruct (c4 =? QUOTE)%N; [|discriminate H]. apply IHo, H.
Qed.

(** More fuel does not change what is read. *)
Lemma scan_fuel_S : forall fuel,
  (forall s r, scan_once fuel s = Ok r -> scan_once (S fuel) s = Ok r)
  /\ (forall s acc r,
        array_loop fuel s acc = Ok r -> array_loop (S fuel) s acc = Ok r)
  /\ (forall s acc r,
        object_loop fuel s acc = Ok r -> object_loop (S fuel) s acc = Ok r).
Proof.
  induction fuel as [|f (IHs & IHa & IHo)];
    [repeat split; intros; discriminate|].
  remember (S f) as g eqn:Eg. split; [|split].
  - intros s r H. rewrite Eg in H. cbn [scan_once] in H |- *.
    destruct s as [|c s1]; [discriminate H|].
    destruct (c =? QUOTE)%N; [exact H|].
    destruct (c =? 123)%N.
    { destruct (skip_ws s1) as [|c' r']; [discriminate H|].
      destruct (c' =? 125)%N; [exact H|].
      destruct (c' =? QUOTE)%N; [|discriminate H].
      apply IHo, H. }
    destruct (c =? 91)%N; [|exact H].
    destruct (skip_ws s1) as [|c' r']; [discriminate H|].
    destruct (c' =? 93)%N; [exact H|]. apply IHa, H.
  - intros s acc r H. rewrite Eg in H. cbn [array_loop] in H |- *.
    destruct (scan_once f s) as [[v1 r1]|] eqn:Es; [|discriminate H].
    rewrite (IHs s _ Es). cbn [bind fst snd] in H |- *.
    destruct (skip_ws r1) as [|c r0]; [discriminate H|].
    destruct (c =? 93)%N; [exact H|].
    destruct (c =? COMMA)%N; [|discriminate H]. apply IHa, H.
  - intros s acc r H. rewrite Eg in H. cbn [object_loop] in H |- *.
    destruct (scanstring s []) as [[k rk]|]; [|discriminate H].
    cbn [bind fst snd] in H |- *.
    destruct (skip_ws rk) as [|c r0]; [discriminate H|].
    destruct (c =? COLON)%N; [|discriminate H].
    destruct (scan_once f (skip_ws r0)) as [[v1 r1]|] eqn:Ev;
      [|discriminate H].
    rewrite (IHs _ _ Ev). cbn [bind fst snd] in H |- *.
    destruct (skip_ws r1) as [|c3 r3]; [discriminate H|].
    destruct (c3 =? 125)%N; [exact H|].
    destruct (c3 =? COMMA)%N; [|discriminate H].
    destruct (skip_ws r3) as [|c4 r4]; [discriminate H|].
    destruct (c4 =? QUOTE)%N; [|discriminate H]. apply IHo, H.
Qed.

Lemma scan_once_fuel fuel fuel' s r :
  scan_once fuel s = Ok r -> (fuel <= fuel')%nat -> scan_once fuel' s = Ok r.
Proof.
  intros H Hle. induction Hle as [|m Hle IH]; [exact H|].
  apply (proj1 (scan_fuel_S m)), IH.
Qed.

(** The only error of the reader is [JSONDecodeError]. *)
Lemma scanstring_error s : forall acc e,
  scanstring s acc = Raise e -> e = JSONDecodeError.
Proof.
  induction s as [s IH] using (induction_ltof1 _ (@List.length char)).
  unfold ltof in IH. intros acc e H.
  destruct s as [|c s1]; [injection H as <-; reflexivity|].
  cbn [scanstring] in H.
  repeat match type of H with
         | context [match ?x with _ => _ end] => destruct x
         end;
    try discriminate H; try (injection H as <-; reflexivity);
    (eapply IH; [|exact H]; simpl; lia).
Qed.

Lemma scan_number_error s e : scan_number s = Raise e -> e = JSONDecodeError.
Proof.
  unfold scan_number. intros H.
  repeat match type of H with
         | context [match ?x with _ => _ end] => destruct x
         end;
    try discriminate H; injection H as <-; reflexivity.
Qed.

Lemma scan_scalar_error s e : scan_scalar s = Raise e -> e = JSONDecodeError.
Proof.
  unfold scan_scalar. intros H.
  repeat match type of H with
         | context [match strip_prefix ?p ?x with _ => _ end] =>
             destruct (strip_prefix p x)
         end;
    try discriminate H. apply (scan_number_error s e H).
Qed.

Lemma scan_error : forall fuel,
  (forall s e, scan_once fuel s = Raise e -> e = JSONDecodeError)
  /\ (forall s acc e, array_loop fuel s acc = Raise e -> e = JSONDecodeError)
  /\ (forall s acc e, object_loop fuel s acc = Raise e -> e = JSONDecodeError).
Proof.
  induction fuel as [|f (IHs & IHa & IHo)];
    [repeat split; intros; injection H as <-; reflexivity|].
  split; [|split].
  - intros s e H. destruct s as [|c s1]; [injection H as <-; reflexivity|].
    cbn [scan_once] in H.
    destruct (c =? QUOTE)%N.
    { destruct (scanstring s1 []) as [[x r]|e'] eqn:Es; [discriminate H|].
      injection H as <-. apply (scanstring_error _ _ _ Es). }
    destruct (c =? 123)%N.
    { destruct (skip_ws s1) as [|c' r']; [injection H as <-; reflexivity|].
      destruct (c' =? 125)%N; [discriminate H|].
      destruct (c' =? QUOTE)%N; [|injection H as <-; reflexivity].
      apply (IHo _ _ _ H). }
    destruct (c =? 91)%N.
    { destruct (skip_ws s1) as [|c' r']; [injection H as <-; reflexivity|].
      destruct (c' =? 93)%N; [discriminate H|]. apply (IHa _ _ _ H). }
    apply (scan_scalar_error (c :: s1) e H).
  - intros s acc e H. cbn [array_loop] in H.
    destruct (scan_once f s) as [[v1 r1]|e'] eqn:Es;
      [|injection H as <-; apply (IHs _ _ Es)].
    cbn [bind fst snd] in H.
    destruct (skip_ws r1) as [|c r0]; [injection H as <-; reflexivity|].
    destruct (c =? 93)%N; [discriminate H|].
    destruct (c =? COMMA)%N; [|injection H as <-; reflexivity].
    apply (IHa _ _ _ H).
  - intros s acc e H. cbn [object_loop] in H.
    destruct (scanstring s []) as [[k rk]|e'] eqn:Es;
      [|injection H as <-; apply (scanstring_error _ _ _ Es)].
    cbn [bind fst snd] in H.
    destruct (skip_ws rk) as [|c r0]; [injection H as <-; reflexivity|].
    destruct (c =? COLON)%N; [|injection H as <-; reflexivity].
    destruct (scan_once f (skip_ws r0)) as [[v1 r1]|e'] eqn:Ev;
      [|injection H as <-; apply (IHs _ _ Ev)].
    cbn [bind fst snd] in H.
    destruct (skip_ws r1) as [|c3 r3]; [injection H as <-; reflexivity|].
    destruct (c3 =? 125)%N; [discriminate H|].
    destruct (c3 =? COMMA)%N; [|injection H as <-; reflexivity].
    destruct (skip_ws r3) as [|c4 r4]; [injection H as <-; reflexivity|].
    destruct (c4 =? QUOTE)%N; [|injection H as <-; reflexivity].
    apply (IHo _ _ _ H).
Qed.

Lemma json_loads_error s e : json_loads s = Raise e -> e = JSONDecodeError.
Proof.
  unfold json_loads. intros H.
  destruct (scan_once (S (length s)) (skip_ws s)) as [[v r]|e'] eqn:E.
  - cbn [bind fst snd] in H.
    destruct (skip_ws r); [discriminate H | injection H as <-; reflexivity].
  - injection H as <-. apply (proj1 (scan_error _) _ _ E).
Qed.

(** No leading part of the text of an object is itself a document. *)
Lemma truncated_object_is_rejected items (pre : str) :
  json_ok (JDict items) ->
  is_prefix pre (json_dumps (JDict items)) ->
  pre <> json_dumps (JDict items) ->
  json_loads pre = Raise JSONDecodeError.
Proof.
  intros Hok [post Hpost] Hne.
  destruct (json_loads pre) as [v|e] eqn:E;
    [|f_equal; apply (json_loads_error pre e E)].
  exfalso. unfold json_loads in E.
  destruct (scan_once (S (length pre)) (skip_ws pre)) as [[v' rest]|] eqn:Es;
    [|discriminate E].
  assert (Hopen : exists tl, pre = 123%N :: tl).
  { destruct pre as [|c tl]; [rewrite scan_once_nil in Es; discriminate Es|].
    unfold json_dumps in Hpost. destruct items as [|kv kvs].
    - cbn in Hpost. injection Hpost as <- _. eauto.
    - rewrite dumps_dict_cons in Hpost. cbn [lit app] in Hpost.
      injection Hpost as <- _. eauto. }
  destruct Hopen as [tl ->].
  change (skip_ws (123%N :: tl)) with (123%N :: tl) in Es.
  pose proof (proj1 (scan_ext _) _ _ _ post Es
                (or_intror (or_intror (or_intror eq_refl)))) as Hext.
  rewrite <- Hpost in Hext.
  set (fuel := S (length (123%N :: tl))) in *.
  assert (Hback : scan_once (fuel + json_size (JDict items))
                    (json_dumps (JDict items)) = Ok (JDict items, [])).
  { rewrite <- (app_nil_r (json_dumps (JDict items))).
    apply (json_reads_back (JDict items) Hok 0%nat []); [exact I | lia]. }
  rewrite (scan_once_fuel fuel (fuel + json_size (JDict items)) _ _ Hext)
    in Hback by lia.
  injection Hback as _ Hrest.
  apply app_eq_nil in Hrest as [_ ->].
  rewrite app_nil_r in Hpost. apply Hne. symmetry. exact Hpost.
Qed.

Lemma truncated_record_is_rejected schedule now (pre : str) :
  unicode_schedule schedule ->
  is_prefix pre (record_text schedule now) ->
  pre <> record_text schedule now ->
  json_loads pre = Raise JSONDecodeError.
Proof.
  intros Hu. unfold record_text. cbv zeta.
  apply truncated_object_is_rejected, record_ok, unicode_schedule_storable.
  exact Hu.
Qed.

(** X12: a [save_schedule] that is cancelled or fails on the way never
    leaves a file that [load_schedule] takes for a record: the file at the
    path is as it was before, or holds the whole new record, or
    [load_schedule] raises [JSONDecodeError] for it. *)
Theorem interrupted_save_is_detected
    (p : path) (schedule : Schedule.t) (now : datetime)
    (fs fs' : filesystem) :
  unicode_schedule schedule ->
  interrupted (save_schedule_ops p schedule now) fs fs' ->
  fs' !! p = fs !! p
  \/ fs' !! p = Some (record_text schedule now)
  \/ load_schedule fs' p = Raise JSONDecodeError.
Proof.
  intros Hu H.
  assert (Hpre : forall pre,
            is_prefix pre (record_text schedule now) ->
            fs' !! p = Some pre ->
            fs' !! p = Some (record_text schedule now)
            \/ load_schedule fs' p = Raise JSONDecodeError).
  { intros pre Hp Hfs.
    destruct (decide (pre = record_text schedule now)) as [->|Hne];
      [left; exact Hfs|].
    right. unfold load_schedule. rewrite Hfs.
    rewrite (truncated_record_is_rejected schedule now pre Hu Hp Hne).
    reflexivity. }
  unfold save_schedule_ops in H. cbv zeta in H.
  inversion H as [ | | op ops fs1 fs1' H1]; subst; [left; reflexivity|].
  right.
  inversion H1 as [ | q data pre ops fs2 Hp | op ops fs2 fs2' H2]; subst.
  - apply (Hpre []); [apply is_prefix_nil|].
    cbn [run_op]. apply lookup_insert_eq.
  - apply (Hpre pre Hp).
    cbn [run_op]. rewrite !lookup_insert_eq. reflexivity.
  - inversion H2; subst. left.
    cbn [run_op]. rewrite !lookup_insert_eq. reflexivity.
Qed.

Lemma interrupted_save_is_detected_scenario3 :
  run_op fs_with_record (OpenW schedule_json) !! schedule_json
  = fs_with_record !! schedule_json
  \/ run_op fs_with_record (OpenW schedule_json) !! schedule_json
     = Some (record_text scenario3_blocked nine_o_clock)
  \/ load_schedule (run_op fs_with_record (OpenW schedule_json)) schedule_json
     = Raise JSONDecodeError.
Proof.
  apply (interrupted_save_is_detected schedule_json scenario3_blocked
           nine_o_clock fs_with_record
           (run_op fs_with_record (OpenW schedule_json))).
  - repeat split; repeat constructor.
  - apply stopped_later, stopped_before.
Defined.

(** ** Saving and loading, exactly *)

Lemma has_surrogate_pair_snoc (l : str) (c : char) :
  has_surrogate_pair (l ++ [c])
  = has_surrogate_pair l
    || match rev l with
       | h :: _ => is_high_surrogate h && is_low_surrogate c
       | [] => false
       end.
Proof.
  induction l as [|a l IH]; [reflexivity|].
  cbn [app has_surrogate_pair]. rewrite IH.
  destruct l as [|b l]; [cbn; rewrite !orb_false_r; reflexivity|].
  cbn [app rev]. rewrite <- !orb_assoc. do 2 f_equal.
  destruct (rev l ++ [b]) eqn:E; [|reflexivity].
  destruct (rev l); discriminate E.
Qed.

(** One more character after what was read leaves it without a pair. *)
Lemma no_pair_push (acc : str) (c : char) :
  has_surrogate_pair (rev acc) = false ->
  match acc with
  | h :: _ => is_high_surrogate h && is_low_surrogate c = false
  | [] => True
  end ->
  has_surrogate_pair (rev (c :: acc)) = false.
Proof.
  intros H Hc. cbn [rev]. rewrite has_surrogate_pair_snoc, H, rev_involutive.
  destruct acc; [reflexivity | exact Hc].
Qed.

Lemma printable_not_surrogate c :
  is_printable c = true ->
  is_high_surrogate c = false /\ is_low_surrogate c = false.
Proof.
  unfold is_printable, is_high_surrogate, is_low_surrogate.
  rewrite orb_true_iff, andb_true_iff, !andb_false_iff, !N.leb_le, !N.leb_gt,
    N.eqb_eq.
  lia.
Qed.

Lemma unescape_not_surrogate esc ch :
  unescape esc = Some ch ->
  is_high_surrogate ch = false /\ is_low_surrogate ch = false.
Proof.
  unfold unescape.
  repeat (destruct (_ =? _)%N; [intros [= <-]; split; reflexivity|]).
  discriminate.
Qed.

Lemma merged_not_surrogate n :
  is_high_surrogate (65536 + n) = false /\ is_low_surrogate (65536 + n) = false.
Proof.
  unfold is_high_surrogate, is_low_surrogate.
  rewrite !andb_false_iff, !N.leb_gt. lia.
Qed.

Lemma no_pair_push_plain (acc : str) (c : char) :
  has_surrogate_pair (rev acc) = false -> is_low_surrogate c = false ->
  has_surrogate_pair (rev (c :: acc)) = false.
Proof.
  intros H Hc. apply no_pair_push; [exact H|].
  destruct acc; [exact I|]. rewrite Hc. apply andb_false_r.
Qed.

Lemma no_pair_ahead_plain (c : char) (acc s : str) :
  is_high_surrogate c = false -> no_pair_ahead (c :: acc) s.
Proof. intros H. cbn [no_pair_ahead]. rewrite H. discriminate. Qed.

(** A string read from a text of printable ASCII holds no surrogate pair: an
    escaped high surrogate directly followed by an escaped low surrogate is
    read as one character. *)
Lemma scanstring_no_pair s : forall acc x rest,
  printable_text s ->
  has_surrogate_pair (rev acc) = false -> no_pair_ahead acc s ->
  scanstring s acc = Ok (x, rest) ->
  has_surrogate_pair x = false /\ printable_text rest.
Proof.
  induction s as [s IH] using (induction_ltof1 _ (@List.length char)).
  unfold ltof in IH. intros acc x rest Hp Hacc Hahead H.
  destruct s as [|c s1]; [discriminate H|].
  inversion Hp as [|? ? Hc Hs1]; subst.
  destruct (printable_not_surrogate c Hc) as [Hch Hcl].
  destruct (N.eqb_spec c QUOTE) as [->|Nq].
  { cbn [scanstring] in H. change (QUOTE =? QUOTE)%N with true in H.
    cbv iota in H. injection H as <- <-. split; assumption. }
  destruct (N.eqb_spec c BACKSLASH) as [->|Nb].
  2:{ cbn [scanstring] in H.
      rewrite (proj2 (N.eqb_neq _ _) Nq), (proj2 (N.eqb_neq _ _) Nb) in H.
      destruct (c <? 32)%N; [discriminate H|].
      apply (IH s1 ltac:(simpl; lia) (c :: acc) x rest Hs1); [ | | exact H].
      - apply no_pair_push_plain; assumption.
      - apply no_pair_ahead_plain, Hch. }
  destruct s1 as [|esc s2]; [discriminate H|].
  inversion Hs1 as [|? ? _ Hs2]; subst.
  destruct (N.eqb_spec esc 117) as [->|Nu].
  2:{ cbn [scanstring] in H.
      change (BACKSLASH =? QUOTE)%N with false in H.
      change (BACKSLASH =? BACKSLASH)%N with true in H.
      rewrite (proj2 (N.eqb_neq _ _) Nu) in H. cbv iota in H.
      destruct (unescape esc) as [ch|] eqn:Ee; [|discriminate H].
      destruct (unescape_not_surrogate esc ch Ee) as [Hh Hl].
      apply (IH s2 ltac:(simpl; lia) (ch :: acc) x rest Hs2); [ | | exact H].
      - apply no_pair_push_plain; assumption.
      - apply no_pair_ahead_plain, Hh. }
  destruct s2 as [|h1 [|h2 [|h3 [|h4 r2]]]]; try discriminate H.
  assert (Hr2 : printable_text r2).
  { inversion Hs2 as [|? ? _ T1]; subst. inversion T1 as [|? ? _ T2]; subst.
    inversion T2 as [|? ? _ T3]; subst. inversion T3; subst. assumption. }
  cbn [scanstring] in H.
  change (BACKSLASH =? QUOTE)%N with false in H.
  change (BACKSLASH =? BACKSLASH)%N with true in H.
  change (117 =? 117)%N with true in H. cbv iota in H.
  destruct (unhex4 h1 h2 h3 h4) as [uni|] eqn:Hu; [|discriminate H].
  assert (Hpush : has_surrogate_pair (rev (uni :: acc)) = false).
  { apply no_pair_push; [exact Hacc|]. destruct acc as [|h acc']; [exact I|].
    cbn [no_pair_ahead low_escape_next] in Hahead.
    change (BACKSLASH =? BACKSLASH)%N with true in Hahead.
    change (117 =? 117)%N with true in Hahead. rewrite Hu in Hahead.
    cbn [andb] in Hahead.
    destruct (is_high_surrogate h); [|reflexivity].
    rewrite Hahead by reflexivity. reflexivity. }
  assert (Hplain : (is_high_surrogate uni = true
                    -> low_escape_next r2 = false) ->
                   scanstring r2 (uni :: acc) = Ok (x, rest) ->
                   has_surrogate_pair x = false /\ printable_text rest).
  { intros Hn Hscan.
    apply (IH r2 ltac:(simpl; lia) (uni :: acc) x rest Hr2 Hpush);
      [exact Hn | exact Hscan]. }
  destruct r2 as [|b [|u [|g1 [|g2 [|g3 [|g4 r3]]]]]];
    try (apply Hplain; [reflexivity | exact H]).
  destruct (is_high_surrogate uni) eqn:Eh; cbn [andb] in H.
  2:{ apply Hplain; [discriminate | exact H]. }
  destruct ((b =? BACKSLASH) && (u =? 117))%N eqn:Ec.
  2:{ apply Hplain; [|exact H].
      intros _. cbn [low_escape_next]. rewrite Ec. reflexivity. }
  destruct (unhex4 g1 g2 g3 g4) as [uni2|] eqn:Hg; [|discriminate H].
  destruct (is_low_surrogate uni2) eqn:El.
  - assert (Hr3 : printable_text r3).
    { inversion Hr2 as [|? ? _ T1]; subst. inversion T1 as [|? ? _ T2]; subst.
      inversion T2 as [|? ? _ T3]; subst. inversion T3 as [|? ? _ T4]; subst.
      inversion T4 as [|? ? _ T5]; subst. inversion T5; subst. assumption. }
    destruct (merged_not_surrogate
                (N.lor (N.shiftl (uni - 55296) 10) (uni2 - 56320)))
      as [Mh Ml].
    apply (IH r3 ltac:(simpl; lia) _ x rest Hr3) in H; [exact H | | ].
    + apply no_pair_push_plain; assumption.
    + apply no_pair_ahead_plain, Mh.
  - apply Hplain; [|exact H].
    intros _. cbn [low_escape_next]. rewrite Ec, Hg, El. reflexivity.
Qed.

Lemma is_suffix_refl (s : str) : is_suffix s s.
Proof. exists []. reflexivity. Qed.

Lemma is_suffix_cons (c : char) (rest s : str) :
  is_suffix rest s -> is_suffix rest (c :: s).
Proof. intros [pre ->]. exists (c :: pre). reflexivity. Qed.

Lemma is_suffix_trans (a b c : str) :
  is_suffix a b -> is_suffix b c -> is_suffix a c.
Proof.
  intros [p ->] [q ->]. exists (q ++ p). rewrite app_assoc. reflexivity.
Qed.

Lemma suffix_Forall (P : char -> Prop) (rest s : str) :
  is_suffix rest s -> Forall P s -> Forall P rest.
Proof. intros [pre ->] H. apply List.Forall_app in H. apply H. Qed.

Lemma dropwhile_suffix (p : char -> bool) (s : str) :
  is_suffix (dropwhile p s) s.
Proof.
  induction s as [|c s IH]; [apply is_suffix_refl|]. cbn [dropwhile].
  destruct (p c); [apply is_suffix_cons, IH | apply is_suffix_refl].
Qed.

Lemma strip_prefix_suffix (p : str) : forall s r : str,
  strip_prefix p s = Some r -> is_suffix r s.
Proof.
  induction p as [|a p IH]; intros s r; cbn [strip_prefix].
  - intros [= <-]. apply is_suffix_refl.
  - destruct s as [|b s]; [discriminate|].
    destruct (a =? b)%N; [|discriminate].
    intros H. apply is_suffix_cons, (IH _ _ H).
Qed.

Lemma span_digits_suffix (s : str) : forall ds r : str,
  span_digits s = (ds, r) -> is_suffix r s.
Proof.
  induction s as [|c s IH]; intros ds r; cbn [span_digits].
  - intros [= <- <-]. apply is_suffix_refl.
  - destruct (is_ascii_digit c).
    + destruct (span_digits s) as [ds' r'] eqn:E. intros [= <- <-].
      apply is_suffix_cons, (IH _ _ eq_refl).
    + intros [= <- <-]. apply is_suffix_refl.
Qed.

Lemma span_integer_suffix (s : str) neg (ds r : str) :
  span_integer s = Some (neg, ds, r) -> is_suffix r s.
Proof.
  assert (body : forall (neg0 : bool) (s0 : str),
            match s0 with
            | c :: rest =>
                if (c =? 48)%N then Some (neg0, [c], rest)
                else if is_ascii_digit c then
                  let (ds, r) := span_digits rest in Some (neg0, c :: ds, r)
                else None
            | [] => None
            end = Some (neg, ds, r) -> is_suffix r s0).
  { intros neg0 [|c rest]; [discriminate|].
    destruct (c =? 48)%N;
      [intros [= <- <- <-]; apply is_suffix_cons, is_suffix_refl|].
    destruct (is_ascii_digit c); [|discriminate].
    destruct (span_digits rest) as [ds' r'] eqn:E. intros [= <- <- <-].
    apply is_suffix_cons, (span_digits_suffix _ _ _ E). }
  unfold span_integer. destruct s as [|c rest]; [discriminate|].
  destruct (c =? DASH)%N.
  - intros H. apply is_suffix_cons, (body _ _ H).
  - apply (body false (c :: rest)).
Qed.

Lemma span_frac_suffix (r frac r1 : str) :
  span_frac r = (frac, r1) -> is_suffix r1 r.
Proof.
  unfold span_frac. destruct r as [|c rest];
    [intros [= <- <-]; apply is_suffix_refl|].
  destruct (c =? DOT)%N; [|intros [= <- <-]; apply is_suffix_refl].
  destruct (span_digits rest) as [ds r'] eqn:E. destruct ds as [|d ds].
  - intros [= <- <-]. apply is_suffix_refl.
  - intros [= <- <-]. apply is_suffix_cons, (span_digits_suffix _ _ _ E).
Qed.

Lemma span_exp_suffix (r1 exp rest : str) :
  span_exp r1 = (exp, rest) -> is_suffix rest r1.
Proof.
  unfold span_exp. destruct r1 as [|c tl];
    [intros [= <- <-]; apply is_suffix_refl|].
  destruct ((c =? 101) || (c =? 69))%N;
    [|intros [= <- <-]; apply is_suffix_refl].
  assert (digits : forall (sign rest1 : str),
            is_suffix rest1 tl ->
            match span_digits rest1 with
            | ([], _) => ([], c :: tl)
            | (ds, r) => (c :: sign ++ ds, r)
            end = (exp, rest) -> is_suffix rest (c :: tl)).
  { intros sign rest1 Hsuf.
    destruct (span_digits rest1) as [ds r] eqn:Ed. destruct ds as [|d ds].
    - intros [= <- <-]. apply is_suffix_refl.
    - intros [= <- <-]. apply is_suffix_cons.
      apply (is_suffix_trans _ rest1); [|exact Hsuf].
      apply (span_digits_suffix _ _ _ Ed). }
  destruct tl as [|g rest1].
  - apply (digits [] []), is_suffix_refl.
  - destruct ((g =? 43) || (g =? 45))%N.
    + apply (digits [g] rest1), is_suffix_cons, is_suffix_refl.
    + apply (digits [] (g :: rest1)), is_suffix_refl.
Qed.

Lemma scan_number_suffix (s : str) v (rest : str) :
  scan_number s = Ok (v, rest) -> pair_free v /\ is_suffix rest s.
Proof.
  unfold scan_number.
  destruct (span_integer s) as [[[neg ds] r]|] eqn:Ei; [|discriminate].
  destruct (span_frac r) as [frac r1] eqn:Ef.
  destruct (span_exp r1) as [exp r2] eqn:Ee. intros H.
  assert (Hsuf : is_suffix r2 s).
  { apply (is_suffix_trans _ r1); [apply (span_exp_suffix _ _ _ Ee)|].
    apply (is_suffix_trans _ r); [apply (span_frac_suffix _ _ _ Ef)|].
    apply (span_integer_suffix _ _ _ _ Ei). }
  destruct frac, exp; injection H as <- <-; (split; [exact I | exact Hsuf]).
Qed.

Lemma scan_scalar_suffix (s : str) v (rest : str) :
  scan_scalar s = Ok (v, rest) -> pair_free v /\ is_suffix rest s.
Proof.
  unfold scan_scalar. intros H.
  repeat match type of H with
         | context [match strip_prefix ?p ?x with _ => _ end] =>
             let E := fresh "E" in
             destruct (strip_prefix p x) eqn:E;
             [injection H as <- <-;
              split; [exact I | apply (strip_prefix_suffix _ _ _ E)] | ]
         end.
  apply (scan_number_suffix s v rest H).
Qed.

Lemma pair_free_list items :
  pair_free (JList items) <-> Forall pair_free items.
Proof.
  cbn [pair_free]. induction items as [|x items IH].
  - split; [constructor | trivial].
  - rewrite IH. split.
    + intros [H1 H2]. constructor; assumption.
    + intros H. inversion H; subst. split; assumption.
Qed.

Lemma pair_free_dict items :
  pair_free (JDict items)
  <-> Forall (fun kv => has_surrogate_pair (fst kv) = false
                        /\ pair_free (snd kv)) items.
Proof.
  cbn [pair_free]. induction items as [|x items IH].
  - split; [constructor | trivial].
  - rewrite IH. split.
    + intros [H1 H2]. constructor; assumption.
    + intros H. inversion H; subst. split; assumption.
Qed.

Lemma dict_set_Forall (P : str * json -> Prop) k v d :
  P (k, v) -> Forall P d -> Forall P (dict_set k v d).
Proof.
  intros Hkv. induction 1 as [|[k' x] d Hx Hd IH]; cbn [dict_set].
  - repeat constructor. exact Hkv.
  - destruct (str_eqb k' k) eqn:E.
    + apply str_eqb_eq in E. subst k'. constructor; assumption.
    + constructor; assumption.
Qed.

Lemma dict_of_pairs_Forall (P : str * json -> Prop) pairs :
  Forall P pairs -> Forall P (dict_of_pairs pairs).
Proof.
  unfold dict_of_pairs. generalize (@nil (str * json)) (List.Forall_nil P).
  induction pairs as [|[k v] pairs IH]; intros d Hd H; cbn [fold_left];
    [exact Hd|].
  inversion H; subst. apply IH; [|assumption].
  apply dict_set_Forall; assumption.
Qed.

(** No string or key read from a text of printable ASCII holds a surrogate
    pair. *)
Lemma scan_no_pair : forall fuel,
  (forall s v rest,
     printable_text s -> scan_once fuel s = Ok (v, rest) ->
     pair_free v /\ printable_text rest)
  /\ (forall s acc v rest,
        printable_text s -> Forall pair_free acc ->
        array_loop fuel s acc = Ok (v, rest) ->
        pair_free v /\ printable_text rest)
  /\ (forall s acc v rest,
        printable_text s ->
        Forall (fun kv => has_surrogate_pair (fst kv) = false
                          /\ pair_free (snd kv)) acc ->
        object_loop fuel s acc = Ok (v, rest) ->
        pair_free v /\ printable_text rest).
Proof.
  assert (Hws : forall s : str, printable_text s -> printable_text (skip_ws s))
    by (intros s; apply (suffix_Forall _ _ _ (dropwhile_suffix _ s))).
  assert (Htail : forall (c : char) (s : str),
            printable_text (c :: s) -> printable_text s)
    by (intros c s H; inversion H; assumption).
  induction fuel as [|f (IHs & IHa & IHo)];
    [repeat split; intros; discriminate|].
  split; [|split].
  - intros s v rest Hp H. destruct s as [|c s1]; [discriminate H|].
    pose proof (Htail _ _ Hp) as Hs1. cbn [scan_once] in H.
    destruct (c =? QUOTE)%N.
    { destruct (scanstring s1 []) as [[x r]|] eqn:Es; [|discriminate H].
      cbn [bind fst snd] in H. injection H as <- <-.
      apply (scanstring_no_pair s1 [] x r Hs1 eq_refl I Es). }
    destruct (c =? 123)%N.
    { pose proof (Hws _ Hs1) as Hw.
      destruct (skip_ws s1) as [|c' r']; [discriminate H|].
      destruct (c' =? 125)%N;
        [injection H as <- <-; split; [exact I | apply (Htail _ _ Hw)]|].
      destruct (c' =? QUOTE)%N; [|discriminate H].
      apply (IHo r' [] v rest (Htail _ _ Hw) (List.Forall_nil _) H). }
    destruct (c =? 91)%N.
    { pose proof (Hws _ Hs1) as Hw.
      destruct (skip_ws s1) as [|c' r']; [discriminate H|].
      destruct (c' =? 93)%N;
        [injection H as <- <-; split; [exact I | apply (Htail _ _ Hw)]|].
      apply (IHa (c' :: r') [] v rest Hw (List.Forall_nil _) H). }
    destruct (scan_scalar_suffix (c :: s1) v rest H) as [Hv Hsuf].
    split; [exact Hv | apply (suffix_Forall _ _ _ Hsuf Hp)].
  - intros s acc v rest Hp Hacc H. cbn [array_loop] in H.
    destruct (scan_once f s) as [[v1 r1]|] eqn:Es; [|discriminate H].
    destruct (IHs s v1 r1 Hp Es) as [Hv1 Hr1].
    cbn [bind fst snd] in H. pose proof (Hws _ Hr1) as Hw.
    destruct (skip_ws r1) as [|c r]; [discriminate H|].
    destruct (c =? 93)%N.
    { injection H as <- <-. split; [|apply (Htail _ _ Hw)].
      apply pair_free_list. cbn [rev]. apply List.Forall_app.
      split; [apply List.Forall_rev, Hacc | constructor; [exact Hv1|]].
      constructor. }
    destruct (c =? COMMA)%N; [|discriminate H].
    apply (IHa (skip_ws r) (v1 :: acc) v rest); [ | | exact H].
    + apply Hws, (Htail _ _ Hw).
    + constructor; assumption.
  - intros s acc v rest Hp Hacc H. cbn [object_loop] in H.
    destruct (scanstring s []) as [[k rk]|] eqn:Es; [|discriminate H].
    destruct (scanstring_no_pair s [] k rk Hp eq_refl I Es) as [Hk Hrk].
    cbn [bind fst snd] in H. pose proof (Hws _ Hrk) as Hw.
    destruct (skip_ws rk) as [|c r]; [discriminate H|].
    destruct (c =? COLON)%N; [|discriminate H].
    destruct (scan_once f (skip_ws r)) as [[v1 r1]|] eqn:Ev;
      [|discriminate H].
    destruct (IHs _ v1 r1 (Hws _ (Htail _ _ Hw)) Ev) as [Hv1 Hr1].
    cbn [bind fst snd] in H. pose proof (Hws _ Hr1) as Hw1.
    destruct (skip_ws r1) as [|c3 r3]; [discriminate H|].
    destruct (c3 =? 125)%N.
    { injection H as <- <-. split; [|apply (Htail _ _ Hw1)].
      apply pair_free_dict, dict_of_pairs_Forall. cbn [rev].
      apply List.Forall_app.
      split; [apply List.Forall_rev, Hacc | constructor; [split; assumption|]].
      constructor. }
    destruct (c3 =? COMMA)%N; [|discriminate H].
    pose proof (Hws _ (Htail _ _ Hw1)) as Hw3.
    destruct (skip_ws r3) as [|c4 r4]; [discriminate H|].
    destruct (c4 =? QUOTE)%N; [|discriminate H].
    apply (IHo r4 ((k, v1) :: acc) v rest (Htail _ _ Hw3)); [|exact H].
    constructor; [split; assumption | exact Hacc].
Qed.

Lemma json_loads_no_pair (text : str) v :
  printable_text text -> json_loads text = Ok v -> pair_free v.
Proof.
  unfold json_loads. intros Hp H.
  destruct (scan_once (S (length text)) (skip_ws text)) as [[v' r]|] eqn:E;
    [|discriminate H].
  cbn [bind fst snd] in H. destruct (skip_ws r); [|discriminate H].
  injection H as <-.
  apply (proj1 (scan_no_pair (S (length text))) (skip_ws text) v' r);
    [|exact E].
  apply (suffix_Forall _ _ _ (dropwhile_suffix _ text) Hp).
Qed.

Lemma dict_get_pair_free k d v :
  pair_free (JDict d) -> dict_get k d = Some v -> pair_free v.
Proof.
  intros H. apply pair_free_dict in H.
  induction H as [|[k' x] d [_ Hx] _ IH]; cbn [dict_get]; [discriminate|].
  destruct (str_eqb k' k); [intros [= <-]; exact Hx | exact IH].
Qed.

Lemma required_str_no_pair d name x :
  pair_free (JDict d) -> required as_str d name = Ok x ->
  has_surrogate_pair x = false.
Proof.
  intros Hd. unfold required.
  destruct (dict_get name d) as [v|] eqn:E; [|discriminate].
  pose proof (dict_get_pair_free _ _ _ Hd E) as Hv.
  destruct v; try discriminate. intros [= <-]. exact Hv.
Qed.

Lemma Goal_validate_no_pair v g :
  pair_free v -> Goal_model_validate v = Ok g ->
  has_surrogate_pair (Goal.title g) = false
  /\ has_surrogate_pair (Goal.description g) = false.
Proof.
  intros Hv. destruct v as [ | | | | | |d]; try discriminate.
  unfold Goal_model_validate.
  destruct (required as_str d (lit "title")) as [t|] eqn:E1;
    [|discriminate].
  destruct (required as_str d (lit "description")) as [ds|] eqn:E2;
    [|discriminate].
  cbn [bind]. destruct (Goal_validate _); [|discriminate]. intros [= <-].
  split; [apply (required_str_no_pair _ _ _ Hv E1)
         | apply (required_str_no_pair _ _ _ Hv E2)].
Qed.

Lemma SubTask_validate_no_pair v t :
  pair_free v -> SubTask_model_validate v = Ok t ->
  Forall (fun s => has_surrogate_pair s = false) (SubTask_strings t).
Proof.
  intros Hv. destruct v as [ | | | | | |d]; try discriminate.
  unfold SubTask_model_validate.
  destruct (required as_str d (lit "id")) as [i|] eqn:E1; [|discriminate].
  destruct (required as_str d (lit "goal_title")) as [g|] eqn:E2;
    [|discriminate].
  destruct (required as_str d (lit "description")) as [ds|] eqn:E3;
    [|discriminate].
  cbn [bind].
  destruct (required as_int d (lit "order")); [|discriminate].
  destruct (optional as_int d (lit "estimate_minutes")); [|discriminate].
  destruct (optional as_datetime d (lit "scheduled_start")); [|discriminate].
  destruct (optional as_datetime d (lit "scheduled_end")); [|discriminate].
  cbn [bind]. destruct (SubTask_validate _); [|discriminate]. intros [= <-].
  unfold SubTask_strings.
  cbn [SubTask.id SubTask.goal_title SubTask.description].
  repeat constructor;
    [ apply (required_str_no_pair _ _ _ Hv E1)
    | apply (required_str_no_pair _ _ _ Hv E2)
    | apply (required_str_no_pair _ _ _ Hv E3) ].
Qed.

Lemma mapM_validate_no_pair vs : forall ts,
  Forall pair_free vs -> mapM SubTask_model_validate vs = Ok ts ->
  Forall (fun t => Forall (fun s => has_surrogate_pair s = false)
                     (SubTask_strings t)) ts.
Proof.
  induction vs as [|v vs IH]; intros ts Hvs; cbn [mapM].
  - intros [= <-]. constructor.
  - inversion Hvs as [|? ? Hv Hvs']; subst.
    destruct (SubTask_model_validate v) as [t|] eqn:E; [|discriminate].
    cbn [bind]. destruct (mapM SubTask_model_validate vs) as [ts'|];
      [|discriminate].
    cbn [bind]. intros [= <-]. constructor; [|apply IH; auto].
    apply (SubTask_validate_no_pair v t Hv E).
Qed.

Lemma Schedule_validate_no_pair v s :
  pair_free v -> Schedule_model_validate v = Ok s ->
  Forall (fun x => has_surrogate_pair x = false) (Schedule_strings s).
Proof.
  intros Hv. destruct v as [ | | | | | |d]; try discriminate.
  unfold Schedule_model_validate, required.
  destruct (dict_get (lit "goal") d) as [g|] eqn:Eg; [|discriminate].
  destruct (Goal_model_validate g) as [goal|] eqn:E1; [|discriminate].
  cbn [bind].
  destruct (dict_get (lit "subtasks") d) as [l|] eqn:El; [|discriminate].
  destruct (as_subtasks l) as [ts|] eqn:E2; [|discriminate].
  cbn [bind]. unfold Schedule_new.
  destruct (Schedule_validate _); [|discriminate]. intros [= <-].
  apply Schedule_strings_Forall. cbn [Schedule.goal Schedule.subtasks].
  destruct (Goal_validate_no_pair g goal (dict_get_pair_free _ _ _ Hv Eg) E1)
    as [T1 T2].
  split; [exact T1|]. split; [exact T2|].
  pose proof (dict_get_pair_free _ _ _ Hv El) as Hl.
  destruct l; try discriminate E2. cbn [as_subtasks] in E2.
  apply (mapM_validate_no_pair items ts); [|exact E2].
  apply pair_free_list, Hl.
Qed.

(** Whatever a file of printable ASCII holds, no string of a Schedule that
    [load_schedule] returns from it holds a surrogate pair. *)
Lemma loaded_strings_no_pair (fs : filesystem) (p : path) text s :
  fs !! p = Some text -> printable_text text ->
  load_schedule fs p = Ok s ->
  Forall (fun x => has_surrogate_pair x = false) (Schedule_strings s).
Proof.
  intros Hp Ht. unfold load_schedule. rewrite Hp.
  destruct (json_loads text) as [raw|] eqn:E; [|discriminate].
  pose proof (json_loads_no_pair text raw Ht E) as Hraw.
  cbn [bind]. unfold getitem. destruct raw; try discriminate.
  destruct (dict_get (lit "schedule") items) as [data|] eqn:Ed;
    [|discriminate].
  cbn [bind]. apply Schedule_validate_no_pair.
  apply (dict_get_pair_free _ _ _ Hraw Ed).
Qed.

Lemma record_text_printable schedule now :
  printable_text (record_text schedule now).
Proof.
  unfold record_text. cbv zeta.
  apply (dumps_printable _ 0 (record_float_free schedule now)).
Qed.

Lemma existsb_false {A} (f : A -> bool) l :
  existsb f l = false <-> Forall (fun a => f a = false) l.
Proof.
  induction l as [|a l IH]; cbn [existsb].
  - split; [constructor | reflexivity].
  - rewrite orb_false_iff, IH, List.Forall_cons_iff. reflexivity.
Qed.

(** C6 (amended): for every path and every Schedule that meets the
    constraints of the data model, [load_schedule] after [save_schedule]
    returns that Schedule, equal in every field of the Goal and of each
    SubTask (an absent optional field stays absent, a present one keeps its
    value, timestamps to the microsecond), exactly when no string of the
    Schedule holds a high surrogate directly followed by a low surrogate;
    a surrogate that stands alone is kept.  When some string holds such a
    pair, what is loaded is not that Schedule.  (The strings are those of
    Python: code points up to U+10FFFF.) *)
Theorem load_after_save (p : path) (schedule : Schedule.t) (now : datetime)
    (fs : filesystem) :
  data_model_ok schedule ->
  Forall python_text (Schedule_strings schedule) ->
  if existsb has_surrogate_pair (Schedule_strings schedule)
  then load_schedule (save_schedule p schedule now fs) p <> Ok schedule
  else load_schedule (save_schedule p schedule now fs) p = Ok schedule.
Proof.
  intros Hd Hp. rewrite save_schedule_writes.
  destruct (existsb has_surrogate_pair (Schedule_strings schedule)) eqn:E.
  - intros H.
    apply (loaded_strings_no_pair _ p (record_text schedule now)) in H;
      [ | apply lookup_insert_eq | apply record_text_printable ].
    apply existsb_false in H. congruence.
  - assert (Hs : Forall storable (Schedule_strings schedule)).
    { apply existsb_false in E. rewrite List.Forall_forall in *.
      intros x Hx. split; [apply Hp, Hx | apply E, Hx]. }
    unfold load_schedule.
    rewrite lookup_insert_eq, (record_reads_back schedule now Hs).
    cbn [bind getitem]. lookup. apply Schedule_validate_dump, Hd.
Qed.

(** The amended C6 for scenario 3 with its time blocks, saved over an earlier
    record. *)
Lemma load_after_save_scenario3 :
  load_schedule
    (save_schedule schedule_json scenario3_blocked nine_o_clock fs_with_record)
    schedule_json
  = Ok scenario3_blocked.
Proof.
  refine (load_after_save schedule_json scenario3_blocked nine_o_clock
            fs_with_record _ _).
  - repeat split; try reflexivity. repeat constructor.
  - repeat constructor.
Defined.

(** C6, as the specification states it, fails: a description that holds a
    surrogate pair as two code points is written as two escapes, and read
    back as the one character U+1F600. *)
Lemma surrogate_pair_is_merged :
  exists loaded,
    load_schedule
      (save_schedule schedule_json surrogate_schedule nine_o_clock ∅)
      schedule_json
    = Ok loaded
    /\ data_model_ok surrogate_schedule
    /\ map SubTask.description (Schedule.subtasks surrogate_schedule)
       = [lit "1. " ++ [55357; 56832]%N]
    /\ map SubTask.description (Schedule.subtasks loaded)
       = [lit "1. " ++ [128512%N]]
    /\ loaded <> surrogate_schedule.
Proof.
  eexists. split; [vm_compute; reflexivity|].
  split; [repeat split; try reflexivity; repeat constructor|].
  split; [reflexivity|]. split; [reflexivity|].
  intros H. apply (f_equal (fun s => map SubTask.description
                                       (Schedule.subtasks s))) in H.
  vm_compute in H. discriminate H.
Qed.
